(** * ml4tc: example matching, satellite-file lookup and grid plotting helpers

    A shallow embedding of
      - [ml4tc/scripts/match_cnn_predictions_to_ships.py] ([_match_examples]
        and the row selections of [_run]),
      - [ml4tc/io/satellite_io.py] ([find_file], [find_cyclones],
        [file_name_to_cyclone_id]),
      - [ml4tc/plotting/satellite_plotting.py] ([_grid_points_to_edges], the
        argument checks of [plot_2d_grid_regular], the contour bounds of
        [plot_saliency] and [plot_class_activation]),
      - [ml4tc/scripts/plot_predictors.py] ([_get_intensities],
        [_get_predictions_and_targets], the panel grid of [_concat_panels]),
      - [ml4tc/scripts/plot_occlusion_maps.py] (the loop over lag times).

    Conventions.  A numpy [float64] is a primitive binary64 [float]: IEEE 754
    arithmetic rounded to nearest even, with NaN, infinities and signed
    zeros, and comparisons that are false on NaN.  Integer arrays are lists
    of [Z]; where the code adds to an [int64] array the sum wraps around.
    1-D arrays are lists; Python exceptions are the [Raise] branch of
    [result].  The panel grid of [_concat_panels] alone is computed on real
    numbers: the square root and the quotient of small whole numbers. *)

From Stdlib Require Import String Ascii DecimalString.
From Stdlib Require Import Floats.
From Stdlib Require Import Reals Lra Lia ZArith Bool List Sorted OrdersEx.
Import ListNotations.

(** ** Exceptions *)

Inductive exn : Type :=
| ValueError (msg : string)
| IndexError
| TypeError
| OverflowError.

Inductive result (A : Type) : Type :=
| Ok (a : A)
| Raise (e : exn).

Arguments Ok {A} a.
Arguments Raise {A} e.

Definition bind {A B : Type} (m : result A) (k : A -> result B) : result B :=
  match m with
  | Ok a => k a
  | Raise e => Raise e
  end.

Notation "x <- m ;; k" := (bind m (fun x => k))
  (at level 61, m at next level, right associativity).

(** The value a state-passing computation returns, its final state
    dropped. *)
Definition returned {S A : Type} (m : result (S * A)) : result A :=
  r <- m ;; Ok (snd r).

(** ** Operations on [float64] scalars *)

Module F64.

Local Open Scope float_scope.

(** [x > y] and [x >= y]: false when either side is NaN. *)
Definition gtb (x y : float) : bool := y <? x.
Definition geb (x y : float) : bool := y <=? x.

(** The three-way comparison behind [<?], [<=?] and [=?], as the
    specification of the primitive floats gives it; [None] when a side is
    NaN. *)
Definition cmp (x y : float) : option comparison :=
  SFcompare (Prim2SF x) (Prim2SF y).

(** Comparison of the finite values of one sign, by exponent and then by
    mantissa. *)
Definition cmp_finite (m1 : positive) (e1 : Z) (m2 : positive) (e2 : Z)
  : comparison :=
  match Z.compare e1 e2 with
  | Lt => Lt
  | Gt => Gt
  | Eq => Pos.compare m1 m2
  end.

(** [x ** 2]: numpy squares a [float64] by the product [x * x]. *)
Definition square (x : float) : float := x * x.

(** [numpy.minimum(x, y)] on two scalars: a NaN on either side wins. *)
Definition minimum (x y : float) : float :=
  if (x <=? y) || is_nan x then x else y.

(** [max([x, y])]: Python keeps the first item unless the second is
    greater, so a NaN in first place stays and a NaN in second place is
    dropped. *)
Definition max_of_pair (x y : float) : float := if x <? y then y else x.

End F64.

(** ** A small model of the numpy operations the scripts use *)

Module Np.

Local Open Scope float_scope.

(** [a[i]] on a 1-D array, for a non-negative index. *)
Definition item {A : Type} (a : list A) (i : nat) : result A :=
  match nth_error a i with
  | Some x => Ok x
  | None => Raise IndexError
  end.

(** [a[js]] for an array [js] of non-negative indices. *)
Fixpoint take {A : Type} (a : list A) (js : list nat) : result (list A) :=
  match js with
  | [] => Ok []
  | j :: js' =>
      x <- item a j ;;
      xs <- take a js' ;;
      Ok (x :: xs)
  end.

(** [numpy.where(mask)[0]]: the positions of the true entries, in order. *)
Fixpoint where_from (k : nat) (mask : list bool) : list nat :=
  match mask with
  | [] => []
  | b :: mask' =>
      if b then k :: where_from (S k) mask' else where_from (S k) mask'
  end.

Definition where_ (mask : list bool) : list nat := where_from 0 mask.

(** [numpy.full(n, v)]. *)
Definition full {A : Type} (n : nat) (v : A) : list A := repeat v n.

(** [a[i] = v] for [0 <= i < len(a)]; numpy raises IndexError otherwise. *)
Fixpoint set_item {A : Type} (a : list A) (i : nat) (v : A) : result (list A) :=
  match a, i with
  | [], _ => Raise IndexError
  | _ :: a', O => Ok (v :: a')
  | x :: a', S i' => a'' <- set_item a' i' v ;; Ok (x :: a'')
  end.

(** Element-wise binary operation on two arrays of one length. *)
Fixpoint zip_with {A B C : Type} (f : A -> B -> C) (xs : list A) (ys : list B)
  : list C :=
  match xs, ys with
  | x :: xs', y :: ys' => f x y :: zip_with f xs' ys'
  | _, _ => []
  end.

(** [numpy.minimum(a, b)]. *)
Definition minimum (xs ys : list float) : list float :=
  zip_with F64.minimum xs ys.

(** [numpy.min(a)], the reduction of [numpy.minimum] from the left: NaN as
    soon as one entry is NaN.  numpy raises ValueError on an empty array.
    (A vectorised reduction may return the other zero where [0.] and [-0.]
    both are least; the two compare equal.) *)
Fixpoint min_from (best : float) (xs : list float) : float :=
  match xs with
  | [] => best
  | x :: xs' => min_from (F64.minimum best x) xs'
  end.

Definition min (xs : list float) : result float :=
  match xs with
  | [] => Raise (ValueError "zero-size array to reduction operation minimum")
  | x :: xs' => Ok (min_from x xs')
  end.

(** [numpy.argmin(a)]: the scan keeps the running minimum [mp] and moves to
    entry [x] when [not (x >= mp)]; it stops at the first NaN, which counts
    as the minimum. *)
Fixpoint argmin_from (mp : float) (besti k : nat) (xs : list float) : nat :=
  match xs with
  | [] => besti
  | x :: xs' =>
      if is_nan mp then besti
      else if negb (F64.geb x mp)
      then argmin_from x k (S k) xs'
      else argmin_from mp besti (S k) xs'
  end.

Definition argmin (xs : list float) : result nat :=
  match xs with
  | [] => Raise (ValueError "attempt to get argmin of an empty sequence")
  | x :: xs' => Ok (argmin_from x 0 1 xs')
  end.

(** [numpy.diff(a)] on a 1-D array. *)
Fixpoint diff (xs : list float) : list float :=
  match xs with
  | x :: ((y :: _) as xs') => (y - x) :: diff xs'
  | _ => []
  end.

End Np.

(** ** [match_cnn_predictions_to_ships.py] *)

Module Match.

Local Open Scope float_scope.

(** [MAX_DISTANCE_DEG = 1.] *)
Definition MAX_DISTANCE_DEG : float := 1.

(** The dictionary read by [prediction_io.read_file], restricted to the keys
    the script reads. *)
Record cnn_prediction_dict : Type := {
  cnn_init_times_unix_sec : list Z;      (* INIT_TIMES_KEY *)
  storm_latitudes_deg_n : list float;    (* STORM_LATITUDES_KEY *)
  storm_longitudes_deg_e : list float;   (* STORM_LONGITUDES_KEY *)
  cyclone_id_strings : list string;      (* CYCLONE_IDS_KEY *)
  model_file_name : string;              (* MODEL_FILE_KEY *)
  cnn_lead_times_hours : list Z          (* LEAD_TIMES_KEY *)
}.

(** The dictionary read by [ships_prediction_io.read_ri_file] or
    [ships_prediction_io.read_td_to_ts_file], restricted likewise. *)
Record ships_prediction_dict : Type := {
  ships_init_times_unix_sec : list Z;    (* INIT_TIMES_KEY *)
  init_latitudes_deg_n : list float;     (* INIT_LATITUDES_KEY *)
  init_longitudes_deg_e : list float;    (* INIT_LONGITUDES_KEY *)
  ri_probabilities : list (list float);  (* RI_PROBABILITIES_KEY *)
  ships_lead_times_hours : list Z        (* LEAD_TIMES_KEY *)
}.

(** [numpy.sqrt((lat_i - lat) ** 2 + (lng_i - lng) ** 2)] for one pair of
    positions, every operation rounded as numpy rounds it. *)
Definition planar_distance (lat_i lng_i lat lng : float) : float :=
  PrimFloat.sqrt (F64.square (lat_i - lat) + F64.square (lng_i - lng)).

(** The same with the scalars broadcast over the arrays. *)
Definition distances_deg (lat_i lng_i : float) (lats lngs : list float)
  : list float :=
  Np.zip_with (planar_distance lat_i lng_i) lats lngs.

(** The arrays [_match_examples] binds before its loop. *)
Record arrays : Type := {
  ships_times : list Z;
  ships_lats : list float;
  ships_pos_lngs : list float;
  ships_neg_lngs : list float;
  cnn_times : list Z;
  cnn_lats : list float;
  cnn_pos_lngs : list float;
  cnn_neg_lngs : list float
}.

(** The two planar distances between CNN example [i] and SHIPS example [j],
    one per longitude convention, and the smaller of them. *)
Definition d_pos (a : arrays) (i j : nat) : float :=
  planar_distance (nth i (cnn_lats a) 0) (nth i (cnn_pos_lngs a) 0)
    (nth j (ships_lats a) 0) (nth j (ships_pos_lngs a) 0).

Definition d_neg (a : arrays) (i j : nat) : float :=
  planar_distance (nth i (cnn_lats a) 0) (nth i (cnn_neg_lngs a) 0)
    (nth j (ships_lats a) 0) (nth j (ships_neg_lngs a) 0).

Definition distance_deg (a : arrays) (i j : nat) : float :=
  F64.minimum (d_pos a i j) (d_neg a i j).

(** SHIPS example [j] is a candidate for CNN example [i]: both exist and
    carry the same initialisation time. *)
Definition candidate (a : arrays) (i j : nat) : Prop :=
  exists t : Z,
    nth_error (cnn_times a) i = Some t /\ nth_error (ships_times a) j = Some t.

(** "Array lengths agree": the three columns of each dataset have one
    length. *)
Definition lengths_agree (a : arrays) : Prop :=
  List.length (ships_lats a) = List.length (ships_times a) /\
  List.length (ships_pos_lngs a) = List.length (ships_times a) /\
  List.length (ships_neg_lngs a) = List.length (ships_times a) /\
  List.length (cnn_lats a) = List.length (cnn_times a) /\
  List.length (cnn_pos_lngs a) = List.length (cnn_times a) /\
  List.length (cnn_neg_lngs a) = List.length (cnn_times a).

(** Position [k] of the returned arrays pairs CNN example [i] with the
    SHIPS index [s]. *)
Definition paired_at (cnn_indices : list nat) (ships_indices : list Z)
    (k i : nat) (s : Z) : Prop :=
  nth_error cnn_indices k = Some i /\ nth_error ships_indices k = Some s.

Section WithLongitudeConversion.

(** [gewittergefahr.gg_utils.longitude_conversion] is an external library:
    its two conversions are parameters of the model.  Each returns a new
    array or raises. *)
Variable convert_lng_positive_in_west : list float -> result (list float).
Variable convert_lng_negative_in_west : list float -> result (list float).

Definition bind_arrays (cnn : cnn_prediction_dict)
    (ships : ships_prediction_dict) : result arrays :=
  sp <- convert_lng_positive_in_west (init_longitudes_deg_e ships) ;;
  sn <- convert_lng_negative_in_west (init_longitudes_deg_e ships) ;;
  cp <- convert_lng_positive_in_west (storm_longitudes_deg_e cnn) ;;
  cn <- convert_lng_negative_in_west (storm_longitudes_deg_e cnn) ;;
  Ok {| ships_times := ships_init_times_unix_sec ships;
        ships_lats := init_latitudes_deg_n ships;
        ships_pos_lngs := sp;
        ships_neg_lngs := sn;
        cnn_times := cnn_init_times_unix_sec cnn;
        cnn_lats := storm_latitudes_deg_n cnn;
        cnn_pos_lngs := cp;
        cnn_neg_lngs := cn |}.

(** [numpy.where(ships_init_times_unix_sec == t)[0]] *)
Definition same_time_indices (a : arrays) (t : Z) : list nat :=
  Np.where_ (map (fun s => Z.eqb s t) (ships_times a)).

(** [these_distances_deg] of iteration [i], for the candidates [js]. *)
Definition candidate_distances (a : arrays) (i : nat) (js : list nat)
  : result (list float) :=
  lat_i <- Np.item (cnn_lats a) i ;;
  lats <- Np.take (ships_lats a) js ;;
  pos_i <- Np.item (cnn_pos_lngs a) i ;;
  pos <- Np.take (ships_pos_lngs a) js ;;
  neg_i <- Np.item (cnn_neg_lngs a) i ;;
  neg <- Np.take (ships_neg_lngs a) js ;;
  let first_distances_deg := distances_deg lat_i pos_i lats pos in
  let second_distances_deg := distances_deg lat_i neg_i lats neg in
  Ok (Np.minimum first_distances_deg second_distances_deg).

(** One iteration of the loop, up to the assignment: [None] is [continue],
    [Some j] is the value stored in [cnn_to_ships_indices[i]]. *)
Definition find_match (a : arrays) (i : nat) : result (option nat) :=
  t <- Np.item (cnn_times a) i ;;
  let js := same_time_indices a t in
  if Nat.eqb (List.length js) 0 then Ok None else
  these_distances_deg <- candidate_distances a i js ;;
  d <- Np.min these_distances_deg ;;
  if F64.gtb d MAX_DISTANCE_DEG then Ok None else
  k <- Np.argmin these_distances_deg ;;
  j <- Np.item js k ;;
  Ok (Some j).

Definition loop_body (a : arrays) (i : nat) (cnn_to_ships_indices : list Z)
  : result (list Z) :=
  m <- find_match a i ;;
  match m with
  | None => Ok cnn_to_ships_indices
  | Some j => Np.set_item cnn_to_ships_indices i (Z.of_nat j)
  end.

(** [for i in range(...)], over the positions still to visit. *)
Fixpoint for_each (a : arrays) (range : list nat)
    (cnn_to_ships_indices : list Z) : result (list Z) :=
  match range with
  | [] => Ok cnn_to_ships_indices
  | i :: range' =>
      next <- loop_body a i cnn_to_ships_indices ;;
      for_each a range' next
  end.

(** The message [_match_examples] prints. *)
Definition dec (n : nat) : string :=
  DecimalString.NilZero.string_of_uint (Nat.to_uint n).

Definition matched_message (num_matched num_cnn_examples : nat) : string :=
  String.append "Matched "
    (String.append (dec num_matched)
       (String.append " of "
          (String.append (dec num_cnn_examples)
             " CNN examples to a SHIPS example!"))).

(** [_match_examples], with standard output as the only state it touches:
    [stdout] is the list of lines printed so far, newest last. *)
Definition _match_examples_io (stdout : list string)
    (cnn : cnn_prediction_dict) (ships : ships_prediction_dict)
  : result (list string * (list nat * list Z)) :=
  a <- bind_arrays cnn ships ;;
  let num_cnn_examples := List.length (cnn_times a) in
  let cnn_to_ships_indices := Np.full num_cnn_examples (-1)%Z in
  cnn_to_ships_indices <-
    for_each a (seq 0 num_cnn_examples) cnn_to_ships_indices ;;
  let cnn_indices :=
    Np.where_ (map (fun v => Z.geb v 0) cnn_to_ships_indices) in
  ships_indices <- Np.take cnn_to_ships_indices cnn_indices ;;
  Ok (stdout ++
        [matched_message (List.length cnn_indices) num_cnn_examples],
      (cnn_indices, ships_indices)).

(** The value [_match_examples] returns: [(cnn_indices, ships_indices)]. *)
Definition _match_examples (cnn : cnn_prediction_dict)
    (ships : ships_prediction_dict) : result (list nat * list Z) :=
  returned (_match_examples_io [] cnn ships).

End WithLongitudeConversion.

End Match.

(** ** [satellite_io.py] *)

Module SatelliteIo.

Local Open Scope string_scope.

Definition GZIP_FILE_EXTENSION : string := ".gz".

Definition CYCLONE_ID_REGEX : string :=
  "[0-9][0-9][0-9][0-9][A-Z][A-Z][0-9][0-9]".

(** The double-quote character of the error messages. *)
Definition dquote : string := String (ascii_of_nat 34) EmptyString.

(** [s.split(sep)] for a one-character separator: never empty. *)
Fixpoint split (sep : ascii) (s : string) : list string :=
  match s with
  | EmptyString => [EmptyString]
  | String c s' =>
      if Ascii.eqb c sep then EmptyString :: split sep s'
      else match split sep s' with
           | h :: t => String c h :: t
           | [] => [String c EmptyString]
           end
  end.

(** [s[:-n]] for [n > 0]. *)
Definition drop_last (n : nat) (s : string) : string :=
  substring 0 (String.length s - n) s.

(** [os.path.split(p)[1]]: what follows the last slash. *)
Definition path_tail (p : string) : string :=
  last (split "/"%char p) EmptyString.

(** Sorted insertion without duplicates: [list(set(l))] followed by
    [l.sort()] yields the distinct elements in increasing order. *)
Fixpoint insert_unique (x : string) (l : list string) : list string :=
  match l with
  | [] => [x]
  | y :: l' =>
      if String.eqb x y then l
      else if String.ltb x y then x :: l
      else y :: insert_unique x l'
  end.

Definition sorted_set (l : list string) : list string :=
  fold_right insert_unique [] l.

Section WithEnvironment.

(** [os.path.isfile] and [glob.glob]: the file system as the calls see it. *)
Variable isfile : string -> bool.
Variable glob : string -> list string.

(** [satellite_utils.parse_cyclone_id] belongs to this repository but its
    module is not among the sources at hand: it is a parameter, returning
    the parsed parts or raising. *)
Variable cyclone_id_parts : Type.
Variable parse_cyclone_id : string -> result cyclone_id_parts.

(** The path [find_file] tries first. *)
Definition preferred_file_name (directory_name cyclone_id_string : string)
    (prefer_zipped : bool) : string :=
  directory_name ++ "/cira_satellite_" ++ cyclone_id_string ++ ".nc"
    ++ (if prefer_zipped then GZIP_FILE_EXTENSION else "").

Definition find_file (directory_name cyclone_id_string : string)
    (prefer_zipped allow_other_format raise_error_if_missing : bool)
  : result string :=
  _ <- parse_cyclone_id cyclone_id_string ;;
  let satellite_file_name :=
    preferred_file_name directory_name cyclone_id_string prefer_zipped in
  if isfile satellite_file_name then Ok satellite_file_name else
  let satellite_file_name :=
    if allow_other_format then
      if prefer_zipped
      then drop_last (String.length GZIP_FILE_EXTENSION) satellite_file_name
      else satellite_file_name ++ GZIP_FILE_EXTENSION
    else satellite_file_name in
  if isfile satellite_file_name || negb raise_error_if_missing
  then Ok satellite_file_name
  else Raise (ValueError
         ("Cannot find file.  Expected at: " ++ dquote
            ++ satellite_file_name ++ dquote)).

Definition file_name_to_cyclone_id (satellite_file_name : string)
  : result string :=
  let pathless_file_name := path_tail satellite_file_name in
  let cyclone_id_string :=
    last (split "_"%char (hd EmptyString (split "."%char pathless_file_name)))
      EmptyString in
  _ <- parse_cyclone_id cyclone_id_string ;;
  Ok cyclone_id_string.

(** The loop of [find_cyclones]: [try: append(...) except: pass]. *)
Fixpoint collect_cyclone_ids (satellite_file_names : list string)
  : list string :=
  match satellite_file_names with
  | [] => []
  | this_file_name :: rest =>
      match file_name_to_cyclone_id this_file_name with
      | Ok cyclone_id_string => cyclone_id_string :: collect_cyclone_ids rest
      | Raise _ => collect_cyclone_ids rest
      end
  end.

(** The files the two [glob.glob] calls of [find_cyclones] return. *)
Definition globbed_file_names (directory_name : string) : list string :=
  let file_pattern :=
    directory_name ++ "/cira_satellite_" ++ CYCLONE_ID_REGEX ++ ".nc" in
  (glob file_pattern ++ glob (file_pattern ++ GZIP_FILE_EXTENSION))%list.

Definition find_cyclones (directory_name : string)
    (raise_error_if_all_missing : bool) : result (list string) :=
  let file_pattern :=
    directory_name ++ "/cira_satellite_" ++ CYCLONE_ID_REGEX ++ ".nc" in
  let satellite_file_names := glob file_pattern in
  let file_pattern := file_pattern ++ GZIP_FILE_EXTENSION in
  let satellite_file_names :=
    (satellite_file_names ++ glob file_pattern)%list in
  let cyclone_id_strings := collect_cyclone_ids satellite_file_names in
  let cyclone_id_strings := sorted_set cyclone_id_strings in
  if raise_error_if_all_missing
     && Nat.eqb (List.length cyclone_id_strings) 0
  then Raise (ValueError
         ("Could not find any cyclone IDs from files with pattern: "
            ++ dquote ++ file_pattern ++ dquote))
  else Ok cyclone_id_strings.

End WithEnvironment.

Arguments find_file isfile {cyclone_id_parts} parse_cyclone_id.
Arguments file_name_to_cyclone_id {cyclone_id_parts} parse_cyclone_id.
Arguments collect_cyclone_ids {cyclone_id_parts} parse_cyclone_id.
Arguments find_cyclones glob {cyclone_id_parts} parse_cyclone_id.

End SatelliteIo.

(** ** Multi-dimensional arrays *)

(** A numpy array of [float64]: its shape and its values in row-major
    order. *)
Record ndarray : Type := {
  shape : list nat;
  flat : list float
}.

(** The 1-D array holding the values [l]. *)
Definition array1 (l : list float) : ndarray :=
  {| shape := [List.length l]; flat := l |}.

(** [len(a)]: the first dimension; a 0-d array has no length. *)
Definition len (a : ndarray) : result nat :=
  match shape a with
  | n :: _ => Ok n
  | [] => Raise TypeError
  end.

(** ** The checks of [gewittergefahr.gg_utils.error_checking]

    An external library: each check is modelled by the contract its name and
    the arguments at its call sites state.  A check returns nothing or
    raises. *)

Module ErrorChecking.

Local Open Scope float_scope.

(** [assert_is_numpy_array(a, num_dimensions=n)] *)
Definition assert_is_numpy_array_num_dimensions (a : ndarray) (n : nat)
  : result unit :=
  if Nat.eqb (List.length (shape a)) n then Ok tt else Raise TypeError.

(** [assert_is_numpy_array(a, exact_dimensions=dims)] *)
Definition assert_is_numpy_array_exact_dimensions (a : ndarray)
    (dims : list nat) : result unit :=
  if list_eq_dec Nat.eq_dec (shape a) dims then Ok tt else Raise TypeError.

(** [assert_is_numpy_array_without_nan(a)] *)
Definition assert_is_numpy_array_without_nan (values : list float)
  : result unit :=
  if existsb is_nan values
  then Raise (ValueError "array must not contain NaN")
  else Ok tt.

(** [assert_is_greater_numpy_array(values, base, allow_nan=allow_nan)]:
    every entry is greater than the base value; with [allow_nan] the NaN
    entries are left out of the test, without it a NaN fails it. *)
Definition assert_is_greater_numpy_array (values : list float) (base : float)
    (allow_nan : bool) : result unit :=
  if forallb (fun x => (allow_nan && is_nan x) || F64.gtb x base) values
  then Ok tt
  else Raise (ValueError "array elements must be greater than the base value").

(** [assert_is_valid_lat_numpy_array(a)]: every latitude in [-90, 90]; a
    NaN is not. *)
Definition assert_is_valid_lat_numpy_array (values : list float)
  : result unit :=
  if forallb (fun x => F64.geb x (-90) && (x <=? 90)) values then Ok tt
  else Raise (ValueError "latitudes must lie in [-90, 90] deg N").

(** [assert_is_geq(x, base)] on integers. *)
Definition assert_is_geq (x base : Z) : result unit :=
  if Z.leb base x then Ok tt
  else Raise (ValueError "value must be at least the base value").

End ErrorChecking.

(** ** [gewittergefahr.gg_utils.longitude_conversion]

    The external conversions as their documentation describes them
    (longitudes in [-180, 360] deg E, NaN let through); the models of this
    repository's code take the conversions as parameters and these are the
    instances used on concrete inputs. *)

Module LngConversion.

Local Open Scope float_scope.

Definition valid_lng (x : float) : bool :=
  is_nan x || (F64.geb x (-180) && (x <=? 360)).

Definition check_longitudes (lngs : list float) : result unit :=
  if forallb valid_lng lngs then Ok tt
  else Raise (ValueError "longitudes must lie in [-180, 360] deg E").

Definition convert_lng_positive_in_west (lngs : list float)
  : result (list float) :=
  _ <- check_longitudes lngs ;;
  Ok (map (fun x => if x <? 0 then x + 360 else x) lngs).

Definition convert_lng_negative_in_west (lngs : list float)
  : result (list float) :=
  _ <- check_longitudes lngs ;;
  Ok (map (fun x => if F64.gtb x 180 then x - 360 else x) lngs).

(** The same on an array of any shape. *)
Definition convert_array_negative_in_west (a : ndarray) : result ndarray :=
  v <- convert_lng_negative_in_west (flat a) ;;
  Ok {| shape := shape a; flat := v |}.

End LngConversion.

(** ** [satellite_plotting.py] *)

Module SatellitePlotting.

Local Open Scope float_scope.

Import ErrorChecking.

(** [TOLERANCE = 1e-6]: the binary64 nearest to one millionth. *)
Definition TOLERANCE : float := 0x1.0c6f7a0b5ed8dp-20.

(** Each coordinate is smaller than the next one. *)
Definition strictly_increasing (coords : list float) : Prop :=
  forall k, (S k < List.length coords)%nat ->
            (nth k coords 0 <? nth (S k) coords 0) = true.

(** [a[-2:]] *)
Definition last_two {A : Type} (a : list A) : list A :=
  skipn (List.length a - 2) a.

(** [a[-1]] *)
Definition last_item {A : Type} (a : list A) : result A :=
  match a with
  | [] => Raise IndexError
  | x :: a' => Ok (last a' x)
  end.

Definition _grid_points_to_edges (grid_point_coords : list float)
  : result (list float) :=
  let grid_cell_edge_coords :=
    Np.zip_with (fun p q => (p + q) / 2)
      (removelast grid_point_coords) (tl grid_point_coords) in
  first_coord <- Np.item grid_point_coords 0 ;;
  let first_edge_coords :=
    map (fun d => first_coord - d / 2)
      (Np.diff (firstn 2 grid_point_coords)) in
  last_coord <- last_item grid_point_coords ;;
  let last_edge_coords :=
    map (fun d => last_coord + d / 2)
      (Np.diff (last_two grid_point_coords)) in
  Ok (first_edge_coords ++ grid_cell_edge_coords ++ last_edge_coords).

(** Lines 285-288 and 373-374: the contour bounds both functions return. *)
Definition contour_bounds (min_contour_value max_contour_value : float)
  : float * float :=
  let min_contour_value := F64.max_of_pair min_contour_value TOLERANCE in
  let max_contour_value :=
    F64.max_of_pair max_contour_value (min_contour_value + TOLERANCE) in
  (min_contour_value, max_contour_value).

Section WithLibraries.

(** [lng_conversion.convert_lng_negative_in_west], external. *)
Variable convert_lng_negative_in_west : ndarray -> result ndarray.

(** The drawing stage of the contour plots, external:
    [grids.latlng_vectors_to_matrices], the longitude conversion of the
    matrix it returns, [numpy.linspace] and [axes_object.contour].  It takes
    the data matrix, the coordinates, the two bounds and the number of
    contours, and returns nothing the callers use. *)
Variable draw_contours :
  ndarray -> ndarray -> ndarray -> float -> float -> Z -> result unit.

(** [plot_2d_grid_regular] up to its call of [pcolormesh]; the value is the
    pair [(edge_longitudes_deg_e, edge_latitudes_deg_n)] handed to it.
    [cbar_orientation_string] is [None] or a string by its type.  The
    external [grids.latlng_field_grid_points_to_edges] and the drawing
    calls on [axes_object] are left out. *)
Definition plot_2d_grid_regular (brightness_temp_matrix_kelvins : ndarray)
    (latitudes_deg_n longitudes_deg_e : ndarray)
    (cbar_orientation_string : option string)
  : result (list float * list float) :=
  _ <- assert_is_numpy_array_num_dimensions latitudes_deg_n 1 ;;
  _ <- assert_is_valid_lat_numpy_array (flat latitudes_deg_n) ;;
  _ <- assert_is_greater_numpy_array
         (Np.diff (flat latitudes_deg_n)) 0 false ;;
  _ <- assert_is_numpy_array_num_dimensions longitudes_deg_e 1 ;;
  longitudes_deg_e <- convert_lng_negative_in_west longitudes_deg_e ;;
  _ <- assert_is_greater_numpy_array
         (Np.diff (flat longitudes_deg_e)) 0 false ;;
  num_rows <- len latitudes_deg_n ;;
  num_columns <- len longitudes_deg_e ;;
  let expected_dim := [num_rows; num_columns] in
  _ <- assert_is_numpy_array_exact_dimensions
         brightness_temp_matrix_kelvins expected_dim ;;
  _ <- assert_is_greater_numpy_array
         (flat brightness_temp_matrix_kelvins) 0 true ;;
  edge_latitudes_deg_n <- _grid_points_to_edges (flat latitudes_deg_n) ;;
  edge_longitudes_deg_e <- _grid_points_to_edges (flat longitudes_deg_e) ;;
  Ok (edge_longitudes_deg_e, edge_latitudes_deg_n).

(** The checks [plot_saliency] and [plot_class_activation] share
    (lines 262-279 and 350-367). *)
Definition check_contour_grid (data_matrix latitudes_deg_n longitudes_deg_e
    : ndarray) : result unit :=
  _ <- assert_is_numpy_array_num_dimensions latitudes_deg_n 1 ;;
  _ <- assert_is_greater_numpy_array
         (Np.diff (flat latitudes_deg_n)) 0 false ;;
  _ <- assert_is_numpy_array_num_dimensions longitudes_deg_e 1 ;;
  _ <- assert_is_greater_numpy_array
         (Np.diff (flat longitudes_deg_e)) 0 false ;;
  num_rows <- len latitudes_deg_n ;;
  num_columns <- len longitudes_deg_e ;;
  let expected_dim := [num_rows; num_columns] in
  _ <- assert_is_numpy_array_without_nan (flat data_matrix) ;;
  assert_is_numpy_array_exact_dimensions data_matrix expected_dim.

Definition plot_saliency (saliency_matrix latitudes_deg_n longitudes_deg_e
    : ndarray) (min_abs_contour_value max_abs_contour_value : float)
    (half_num_contours : Z) : result (float * float) :=
  _ <- check_contour_grid saliency_matrix latitudes_deg_n longitudes_deg_e ;;
  let min_abs_contour_value :=
    F64.max_of_pair min_abs_contour_value TOLERANCE in
  let max_abs_contour_value :=
    F64.max_of_pair max_abs_contour_value
      (min_abs_contour_value + TOLERANCE) in
  _ <- assert_is_geq half_num_contours 5 ;;
  _ <- draw_contours saliency_matrix latitudes_deg_n longitudes_deg_e
         min_abs_contour_value max_abs_contour_value half_num_contours ;;
  Ok (min_abs_contour_value, max_abs_contour_value).

Definition plot_class_activation (class_activation_matrix latitudes_deg_n
    longitudes_deg_e : ndarray) (min_contour_value max_contour_value : float)
    (num_contours : Z) : result (float * float) :=
  _ <- check_contour_grid class_activation_matrix latitudes_deg_n
         longitudes_deg_e ;;
  let min_contour_value := F64.max_of_pair min_contour_value TOLERANCE in
  let max_contour_value :=
    F64.max_of_pair max_contour_value (min_contour_value + TOLERANCE) in
  _ <- assert_is_geq num_contours 5 ;;
  _ <- draw_contours class_activation_matrix latitudes_deg_n longitudes_deg_e
         min_contour_value max_contour_value num_contours ;;
  Ok (min_contour_value, max_contour_value).

End WithLibraries.

End SatellitePlotting.

(** ** Concrete inputs *)

Module Examples.

Import Match.
Local Open Scope float_scope.

(** Three CNN examples; the first sits at 359 deg E. *)
Definition cnn_ex : cnn_prediction_dict :=
  {| cnn_init_times_unix_sec := [10; 20; 30]%Z;
     storm_latitudes_deg_n := [0; 0; 0];
     storm_longitudes_deg_e := [359; 0; 0];
     cyclone_id_strings := ["2005AL01"; "2005AL02"; "2005AL03"]%string;
     model_file_name := "model.h5"%string;
     cnn_lead_times_hours := [24]%Z |}.

(** Four SHIPS examples: two at time 10 (the second at -1 deg E, the same
    meridian as 359 deg E), one at time 20 two degrees away, one at a time
    no CNN example has. *)
Definition ships_ex : ships_prediction_dict :=
  {| ships_init_times_unix_sec := [10; 10; 20; 40]%Z;
     init_latitudes_deg_n := [0; 0; 2; 0];
     init_longitudes_deg_e := [1; -1; 0; 0];
     ri_probabilities := [[0; 0]; [0; 0]; [0; 0]; [0; 0]];
     ships_lead_times_hours := [24]%Z |}.

(** One CNN example with two SHIPS candidates, both exactly one degree
    away. *)
Definition cnn_boundary : cnn_prediction_dict :=
  {| cnn_init_times_unix_sec := [5]%Z;
     storm_latitudes_deg_n := [0];
     storm_longitudes_deg_e := [0];
     cyclone_id_strings := ["2005AL01"]%string;
     model_file_name := "model.h5"%string;
     cnn_lead_times_hours := [24]%Z |}.

Definition ships_boundary : ships_prediction_dict :=
  {| ships_init_times_unix_sec := [5; 5]%Z;
     init_latitudes_deg_n := [1; -1];
     init_longitudes_deg_e := [0; 0];
     ri_probabilities := [[0; 0]; [0; 0]];
     ships_lead_times_hours := [24]%Z |}.

(** The arrays [_match_examples] binds on these inputs. *)
Definition arrays_ex : arrays :=
  {| ships_times := [10; 10; 20; 40]%Z;
     ships_lats := [0; 0; 2; 0];
     ships_pos_lngs := [1; 359; 0; 0];
     ships_neg_lngs := [1; -1; 0; 0];
     cnn_times := [10; 20; 30]%Z;
     cnn_lats := [0; 0; 0];
     cnn_pos_lngs := [359; 0; 0];
     cnn_neg_lngs := [-1; 0; 0] |}.

Definition arrays_boundary : arrays :=
  {| ships_times := [5; 5]%Z;
     ships_lats := [1; -1];
     ships_pos_lngs := [0; 0];
     ships_neg_lngs := [0; 0];
     cnn_times := [5]%Z;
     cnn_lats := [0];
     cnn_pos_lngs := [0];
     cnn_neg_lngs := [0] |}.

(** Two SHIPS candidates for the CNN example of [cnn_boundary]: the first
    at the very same position, the second with a NaN latitude. *)
Definition ships_nan : ships_prediction_dict :=
  {| ships_init_times_unix_sec := [5; 5]%Z;
     init_latitudes_deg_n := [0; nan];
     init_longitudes_deg_e := [0; 0];
     ri_probabilities := [[0; 0]; [0; 0]];
     ships_lead_times_hours := [24]%Z |}.

Definition arrays_nan : arrays :=
  {| ships_times := [5; 5]%Z;
     ships_lats := [0; nan];
     ships_pos_lngs := [0; 0];
     ships_neg_lngs := [0; 0];
     cnn_times := [5]%Z;
     cnn_lats := [0];
     cnn_pos_lngs := [0];
     cnn_neg_lngs := [0] |}.

(** Two SHIPS candidates one degree north of the CNN example of
    [cnn_boundary], the first of them [2 ** -30] degrees further east. *)
Definition ships_near_tie : ships_prediction_dict :=
  {| ships_init_times_unix_sec := [5; 5]%Z;
     init_latitudes_deg_n := [1; 1];
     init_longitudes_deg_e := [0x1p-30; 0];
     ri_probabilities := [[0; 0]; [0; 0]];
     ships_lead_times_hours := [24]%Z |}.

Definition arrays_near_tie : arrays :=
  {| ships_times := [5; 5]%Z;
     ships_lats := [1; 1];
     ships_pos_lngs := [0x1p-30; 0];
     ships_neg_lngs := [0x1p-30; 0];
     cnn_times := [5]%Z;
     cnn_lats := [0];
     cnn_pos_lngs := [0];
     cnn_neg_lngs := [0] |}.

(** A directory holding two files whose names fit the pattern of
    [find_cyclones], and a cyclone-ID parser that accepts any ID except one
    with cyclone number 00. *)
Definition isfile_ex (path : string) : bool :=
  String.eqb path "data/cira_satellite_2005AL00.nc"
  || String.eqb path "data/cira_satellite_2005AL01.nc".

Definition glob_ex (pattern : string) : list string :=
  if String.eqb pattern
       (String.append "data/cira_satellite_"
          (String.append SatelliteIo.CYCLONE_ID_REGEX ".nc"))
  then ["data/cira_satellite_2005AL00.nc"%string;
        "data/cira_satellite_2005AL01.nc"%string]
  else [].

Definition parse_cyclone_id_ex (cyclone_id_string : string)
  : result (Z * string * Z) :=
  if String.eqb (substring 6 2 cyclone_id_string) "00"
  then Raise (ValueError "cyclone number must be positive")
  else Ok (2005%Z, substring 4 2 cyclone_id_string, 1%Z).

(** A 2-by-2 grid and a drawing stage that never fails. *)
Definition grid_latitudes : ndarray := array1 [10; 11].
Definition grid_longitudes : ndarray := array1 [20; 21].
Definition grid_matrix : ndarray :=
  {| shape := [2; 2]%nat; flat := [250; 251; 252; 253] |}.

Definition draw_nothing (data_matrix latitudes_deg_n longitudes_deg_e : ndarray)
    (min_value max_value : float) (num_contours : Z) : result unit :=
  Ok tt.

End Examples.

(** ** More Python and numpy idioms *)

Module Py.

Local Open Scope R_scope.

(** [a[i]] for a signed index: a negative one counts from the end. *)
Definition item_signed {A : Type} (a : list A) (i : Z) : result A :=
  if (0 <=? i)%Z then Np.item a (Z.to_nat i)
  else if (- i <=? Z.of_nat (List.length a))%Z
       then Np.item a (Z.to_nat (Z.of_nat (List.length a) + i))
       else Raise IndexError.

(** [a[js]] for an array [js] of signed indices. *)
Fixpoint take_signed {A : Type} (a : list A) (js : list Z)
  : result (list A) :=
  match js with
  | [] => Ok []
  | j :: js' =>
      x <- item_signed a j ;;
      xs <- take_signed a js' ;;
      Ok (x :: xs)
  end.

(** [[f(x) for x in xs]]: the first exception ends the comprehension. *)
Fixpoint for_list {A B : Type} (f : A -> result B) (xs : list A)
  : result (list B) :=
  match xs with
  | [] => Ok []
  | x :: xs' =>
      y <- f x ;;
      ys <- for_list f xs' ;;
      Ok (y :: ys)
  end.

(** [numpy.where(times == t)[0]] *)
Definition indices_of (times : list Z) (t : Z) : list nat :=
  Np.where_ (map (fun s => Z.eqb s t) times).

(** [numpy.where(times == t)[0][0]] *)
Definition first_index_of (times : list Z) (t : Z) : result nat :=
  Np.item (indices_of times t) 0.

(** [t in times] on a numpy array. *)
Definition contains (times : list Z) (t : Z) : bool :=
  existsb (fun s => Z.eqb s t) times.

(** [int(numpy.floor(x))] and [int(numpy.ceil(x))], on the real number a
    small count stands for. *)
Definition floor (x : R) : Z := Int_part x.
Definition ceil (x : R) : Z := (- Int_part (- x))%Z.

(** The range of [int64]. *)
Definition INT64_MIN : Z := (- 2 ^ 63)%Z.
Definition INT64_MAX : Z := (2 ^ 63 - 1)%Z.

Definition in_int64 (z : Z) : bool :=
  ((INT64_MIN <=? z) && (z <=? INT64_MAX))%Z.

(** The value an [int64] sum holds: numpy array arithmetic wraps around
    without a warning. *)
Definition wrap_int64 (z : Z) : Z := ((z + 2 ^ 63) mod 2 ^ 64 - 2 ^ 63)%Z.

(** [a + n] for an [int64] array [a] and a Python integer [n]: a Python
    integer outside [int64] cannot be added (NumPy 2 raises OverflowError;
    older releases change the type of the array instead, which is not
    modelled). *)
Definition int64_array_add (a : list Z) (n : Z) : result (list Z) :=
  if in_int64 n then Ok (map (fun t => wrap_int64 (t + n)) a)
  else Raise OverflowError.

(** No character of [s] is [c]. *)
Fixpoint no_char (c : ascii) (s : string) : bool :=
  match s with
  | EmptyString => true
  | String c' s' => negb (Ascii.eqb c' c) && no_char c s'
  end.

End Py.

(** ** [match_cnn_predictions_to_ships.py]: the selections of [_run] *)

Module MatchRun.

Import Match.

(** Lines 188-192: the position, among the SHIPS lead times, of each CNN
    lead time. *)
Definition lead_time_index (cnn_lead_times_hours ships_lead_times_hours
    : list Z) (l : Z) : result Z :=
  if negb (Py.contains cnn_lead_times_hours l) then Ok (-1)%Z
  else k <- Py.first_index_of ships_lead_times_hours l ;; Ok (Z.of_nat k).

Definition lead_time_indices (cnn_lead_times_hours ships_lead_times_hours
    : list Z) : result (list Z) :=
  Py.for_list (lead_time_index cnn_lead_times_hours ships_lead_times_hours)
    cnn_lead_times_hours.

(** Lines 253-257: [ships_prediction_dict[RI_PROBABILITIES_KEY][
    ships_indices, int(use_ri_consensus)]], before the values below -0.1
    are masked. *)
Definition select_ri_probabilities (ships : ships_prediction_dict)
    (ships_indices : list Z) (use_ri_consensus : bool)
  : result (list float) :=
  Py.for_list
    (fun s =>
       row <- Py.item_signed (ri_probabilities ships) s ;;
       Np.item row (if use_ri_consensus then 1 else 0)%nat)
    ships_indices.

(** The rows of the CNN dictionary handed to [prediction_io.write_file]
    (lines 277-290): cyclone IDs, init times, latitudes, longitudes at
    [cnn_indices]. *)
Definition select_cnn_rows (d : cnn_prediction_dict) (cnn_indices : list nat)
  : result (list string * list Z * list float * list float) :=
  ids <- Np.take (cyclone_id_strings d) cnn_indices ;;
  times <- Np.take (cnn_init_times_unix_sec d) cnn_indices ;;
  lats <- Np.take (storm_latitudes_deg_n d) cnn_indices ;;
  lngs <- Np.take (storm_longitudes_deg_e d) cnn_indices ;;
  Ok (ids, times, lats, lngs).

End MatchRun.

(** ** [plot_predictors.py] *)

Module PlotPredictors.

Local Open Scope R_scope.

Definition HOURS_TO_SECONDS : Z := 3600.

(** [METRES_PER_SECOND_TO_KT = 3.6 / 1.852]: the quotient of the binary64
    values of the two literals. *)
Definition METRES_PER_SECOND_TO_KT : float :=
  (0x1.ccccccccccccdp+1 / 0x1.da1cac083126fp+0)%float.

(** The example table read by [example_io.read_file], restricted to what
    [_get_intensities] reads. *)
Record example_table : Type := {
  ships_valid_times_unix_sec : list Z;   (* coords[SHIPS_VALID_TIME_DIM] *)
  storm_intensities_m_s01 : list float   (* STORM_INTENSITY_KEY *)
}.

(** The prediction dictionary read by [prediction_io.read_file], restricted
    to what [_get_predictions_and_targets] reads. *)
Record prediction_table : Type := {
  table_cyclone_ids : list string;       (* CYCLONE_IDS_KEY *)
  table_init_times_unix_sec : list Z;    (* INIT_TIMES_KEY *)
  table_target_classes : list Z;         (* TARGET_CLASSES_KEY *)
  table_probability_matrix : list (list float) (* PROBABILITY_MATRIX_KEY *)
}.

Section WithRounding.

(** [numpy.round(x).astype(int)], external. *)
Variable round_to_int : float -> Z.

(** [lead_time_hours] is
    [model_metadata_dict[VALIDATION_OPTIONS_KEY][LEAD_TIME_KEY]]. *)
Definition _get_intensities (xt : example_table)
    (init_times_unix_sec : list Z) (lead_time_hours : Z)
  : result (list Z * list Z) :=
  let these_times_unix_sec := ships_valid_times_unix_sec xt in
  good_indices <-
    Py.for_list (Py.first_index_of these_times_unix_sec)
      init_times_unix_sec ;;
  values <- Np.take (storm_intensities_m_s01 xt) good_indices ;;
  let current_intensities_kt :=
    map (fun v => round_to_int (METRES_PER_SECOND_TO_KT * v)%float) values in
  let lead_time_sec := (HOURS_TO_SECONDS * lead_time_hours)%Z in
  future_times_unix_sec <-
    Py.int64_array_add init_times_unix_sec lead_time_sec ;;
  let good_indices_2d_list :=
    map (fun t => Py.indices_of these_times_unix_sec t)
      future_times_unix_sec in
  let good_indices :=
    map (fun idcs => match idcs with
                     | [] => (-1)%Z
                     | i :: _ => Z.of_nat i
                     end)
      good_indices_2d_list in
  values <- Py.take_signed (storm_intensities_m_s01 xt) good_indices ;;
  let future_intensities_kt :=
    Np.zip_with
      (fun i v =>
         if (i =? -1)%Z then 0%float
         else (METRES_PER_SECOND_TO_KT * v)%float)
      good_indices values in
  Ok (current_intensities_kt, map round_to_int future_intensities_kt).

End WithRounding.

(** [_get_predictions_and_targets] on the dictionary it has read. *)
Definition _get_predictions_and_targets (prediction_dict : prediction_table)
    (cyclone_id_string : string) (init_times_unix_sec : list Z)
  : result (list (list float) * list Z) :=
  let good_flags :=
    map (fun cid => String.eqb cid cyclone_id_string)
      (table_cyclone_ids prediction_dict) in
  let good_indices := Np.where_ good_flags in
  these_times_unix_sec <-
    Np.take (table_init_times_unix_sec prediction_dict) good_indices ;;
  good_subindices <-
    Py.for_list (Py.first_index_of these_times_unix_sec)
      init_times_unix_sec ;;
  good_indices <- Np.take good_indices good_subindices ;;
  target_classes <-
    Np.take (table_target_classes prediction_dict) good_indices ;;
  forecast_prob_matrix <-
    Np.take (table_probability_matrix prediction_dict) good_indices ;;
  Ok (forecast_prob_matrix, target_classes).

(** Row [g] of the prediction table belongs to the cyclone and carries the
    init time [t]. *)
Definition is_row_of (prediction_dict : prediction_table)
    (cyclone_id_string : string) (t : Z) (g : nat) : Prop :=
  nth_error (table_cyclone_ids prediction_dict) g = Some cyclone_id_string /\
  nth_error (table_init_times_unix_sec prediction_dict) g = Some t.

(** The index [_get_intensities] uses for a future time: -1 when the time
    is absent. *)
Definition future_index (times : list Z) (t : Z) : Z :=
  match Py.indices_of times t with
  | [] => (-1)%Z
  | i :: _ => Z.of_nat i
  end.

(** Lines 226-232 of [_concat_panels]: the numbers of panel rows and
    columns.  [None] is the ZeroDivisionError of dividing by zero rows. *)
Definition panel_grid (num_panels : nat) : option (Z * Z) :=
  let num_panel_rows := Py.floor (sqrt (INR num_panels)) in
  if (num_panel_rows =? 0)%Z then None
  else Some (num_panel_rows,
             Py.ceil (INR num_panels / IZR num_panel_rows)).

End PlotPredictors.

(** ** [plot_occlusion_maps.py] *)

Module PlotOcclusionMaps.

Import SatellitePlotting.

Section WithLibraries.

Variable draw_contours :
  ndarray -> ndarray -> ndarray -> float -> float -> Z -> result unit.

(** What follows the contour plot of panel [k] in the loop: saving and
    resizing the figure, external. *)
Variable save_panel : nat -> result unit.

(** Lines 228-271 of [_plot_occlusion_map_one_example]: the loop over the
    lag times, threading the contour bounds from panel to panel.
    [latitudes k] and [longitudes k] are column [k] of the two coordinate
    matrices. *)
Fixpoint plot_panels (occlusion_matrix : ndarray)
    (latitudes longitudes : nat -> ndarray)
    (plot_normalized_occlusion : bool) (range : list nat)
    (min_contour_value max_contour_value : float)
  : result (float * float) :=
  match range with
  | [] => Ok (min_contour_value, max_contour_value)
  | k :: range' =>
      bounds <-
        (if plot_normalized_occlusion
         then plot_saliency draw_contours occlusion_matrix
                (latitudes k) (longitudes k)
                min_contour_value max_contour_value 10
         else plot_class_activation draw_contours occlusion_matrix
                (latitudes k) (longitudes k)
                min_contour_value max_contour_value 15) ;;
      _ <- save_panel k ;;
      plot_panels occlusion_matrix latitudes longitudes
        plot_normalized_occlusion range' (fst bounds) (snd bounds)
  end.

End WithLibraries.

End PlotOcclusionMaps.

(** ** More example inputs *)

Module MoreExamples.

Import Match.
Local Open Scope float_scope.

(** A directory seen through two listings: three unzipped or zipped files
    of three cyclones, one cyclone in both formats, and the same files in
    another order with one of them listed twice. *)
Definition nc_pattern_ex : string :=
  String.append "data/cira_satellite_"
    (String.append SatelliteIo.CYCLONE_ID_REGEX ".nc").

Definition glob_unsorted (pattern : string) : list string :=
  if String.eqb pattern nc_pattern_ex
  then ["data/cira_satellite_2005AL03.nc"%string;
        "data/cira_satellite_2005AL01.nc"%string]
  else if String.eqb pattern
            (String.append nc_pattern_ex SatelliteIo.GZIP_FILE_EXTENSION)
  then ["data/cira_satellite_2005AL01.nc.gz"%string;
        "data/cira_satellite_2005AL02.nc.gz"%string]
  else [].

Definition glob_reordered (pattern : string) : list string :=
  if String.eqb pattern nc_pattern_ex
  then ["data/cira_satellite_2005AL01.nc"%string;
        "data/cira_satellite_2005AL03.nc"%string;
        "data/cira_satellite_2005AL01.nc"%string]
  else if String.eqb pattern
            (String.append nc_pattern_ex SatelliteIo.GZIP_FILE_EXTENSION)
  then ["data/cira_satellite_2005AL02.nc.gz"%string;
        "data/cira_satellite_2005AL01.nc.gz"%string]
  else [].

(** One CNN example whose latitude column is empty, and one SHIPS example
    at the same time. *)
Definition cnn_ragged : cnn_prediction_dict :=
  {| cnn_init_times_unix_sec := [10]%Z;
     storm_latitudes_deg_n := [];
     storm_longitudes_deg_e := [0];
     cyclone_id_strings := ["2005AL01"]%string;
     model_file_name := "model.h5"%string;
     cnn_lead_times_hours := [24]%Z |}.

Definition ships_single : ships_prediction_dict :=
  {| ships_init_times_unix_sec := [10]%Z;
     init_latitudes_deg_n := [0];
     init_longitudes_deg_e := [0];
     ri_probabilities := [[0; 0]];
     ships_lead_times_hours := [24]%Z |}.

Definition arrays_ragged : arrays :=
  {| ships_times := [10]%Z;
     ships_lats := [0];
     ships_pos_lngs := [0];
     ships_neg_lngs := [0];
     cnn_times := [10]%Z;
     cnn_lats := [];
     cnn_pos_lngs := [0];
     cnn_neg_lngs := [0] |}.

(** SHIPS examples at times no CNN example of [Examples.cnn_ex] has, with
    a latitude column one entry short. *)
Definition ships_disjoint : ships_prediction_dict :=
  {| ships_init_times_unix_sec := [40; 50]%Z;
     init_latitudes_deg_n := [0];
     init_longitudes_deg_e := [0; 0];
     ri_probabilities := [[0; 0]; [0; 0]];
     ships_lead_times_hours := [24]%Z |}.

Definition arrays_disjoint : arrays :=
  {| ships_times := [40; 50]%Z;
     ships_lats := [0];
     ships_pos_lngs := [0; 0];
     ships_neg_lngs := [0; 0];
     cnn_times := [10; 20; 30]%Z;
     cnn_lats := [0; 0; 0];
     cnn_pos_lngs := [359; 0; 0];
     cnn_neg_lngs := [-1; 0; 0] |}.

(** The times and positions of [Examples.cnn_ex] as a SHIPS dataset. *)
Definition ships_self : ships_prediction_dict :=
  {| ships_init_times_unix_sec := [10; 20; 30]%Z;
     init_latitudes_deg_n := [0; 0; 0];
     init_longitudes_deg_e := [359; 0; 0];
     ri_probabilities := [[0; 0]; [0; 0]; [0; 0]];
     ships_lead_times_hours := [24]%Z |}.

Definition arrays_self : arrays :=
  {| ships_times := [10; 20; 30]%Z;
     ships_lats := [0; 0; 0];
     ships_pos_lngs := [359; 0; 0];
     ships_neg_lngs := [-1; 0; 0];
     cnn_times := [10; 20; 30]%Z;
     cnn_lats := [0; 0; 0];
     cnn_pos_lngs := [359; 0; 0];
     cnn_neg_lngs := [-1; 0; 0] |}.

(** [numpy.round(x).astype(int)] on a finite float of moderate size: the
    nearest integer, halves to the even one. *)
Definition round_half_even (x : float) : Z :=
  match Prim2SF x with
  | S754_finite s m e =>
      let n :=
        if (0 <=? e)%Z then (Z.pos m * 2 ^ e)%Z
        else
          let d := (2 ^ (- e))%Z in
          let q := (Z.pos m / d)%Z in
          let r := (Z.pos m mod d)%Z in
          if (2 * r <? d)%Z then q
          else if (d <? 2 * r)%Z then (q + 1)%Z
          else if Z.even q then q else (q + 1)%Z in
      if s then (- n)%Z else n
  | _ => 0%Z
  end.

(** Three hourly rows of an example table. *)
Definition example_table_ex : PlotPredictors.example_table :=
  {| PlotPredictors.ships_valid_times_unix_sec := [0; 3600; 7200]%Z;
     PlotPredictors.storm_intensities_m_s01 := [10; 20; 30] |}.

(** Predictions for two cyclones. *)
Definition prediction_table_ex : PlotPredictors.prediction_table :=
  {| PlotPredictors.table_cyclone_ids :=
       ["2005AL01"; "2005AL02"; "2005AL01"]%string;
     PlotPredictors.table_init_times_unix_sec := [0; 0; 3600]%Z;
     PlotPredictors.table_target_classes := [0; 1; 1]%Z;
     PlotPredictors.table_probability_matrix :=
       [[0.75; 0.25]; [0.25; 0.75]; [0.5; 0.5]] |}.

(** A panel that is always saved. *)
Definition save_nothing (k : nat) : result unit := Ok tt.

End MoreExamples.

(** * Properties *)

(** ** The error monad *)

Lemma bind_ok {A B : Type} (m : result A) (k : A -> result B) (b : B) :
  bind m k = Ok b -> exists a, m = Ok a /\ k a = Ok b.
Proof.
  destruct m as [a | e]; simpl; intros H.
  - exists a. split; [reflexivity | exact H].
  - discriminate H.
Qed.

(** Inverts a chain of successful binds in hypothesis [H]. *)
Ltac inv_bind H :=
  let x := fresh "x" in
  let Hx := fresh "Hx" in
  apply bind_ok in H; destruct H as [x [Hx H]].

Tactic Notation "inv_bind_as" hyp(H) ident(x) ident(Hx) :=
  apply bind_ok in H; destruct H as [x [Hx H]].

(** ** Floating-point comparisons *)

Module FloatFacts.

(** *** The order of [spec_float] *)

Lemma compare_cont_eq (m1 m2 : positive) :
  Pos.compare_cont Eq m1 m2 = Pos.compare m1 m2.
Proof. reflexivity. Qed.

Lemma cmp_finite_refl m e : F64.cmp_finite m e m e = Eq.
Proof.
  unfold F64.cmp_finite. rewrite Z.compare_refl. apply Pos.compare_refl.
Qed.

Lemma cmp_finite_antisym m1 e1 m2 e2 :
  F64.cmp_finite m2 e2 m1 e1 = CompOpp (F64.cmp_finite m1 e1 m2 e2).
Proof.
  unfold F64.cmp_finite. rewrite (Z.compare_antisym e1 e2).
  destruct (Z.compare e1 e2); simpl; try reflexivity.
  apply Pos.compare_antisym.
Qed.

Lemma cmp_finite_Lt m1 e1 m2 e2 :
  F64.cmp_finite m1 e1 m2 e2 = Lt <->
  (e1 < e2)%Z \/ (e1 = e2 /\ (m1 < m2)%positive).
Proof.
  unfold F64.cmp_finite.
  destruct (Z.compare_spec e1 e2) as [E | E | E].
  - rewrite Pos.compare_lt_iff. split; [auto | intros [H | [_ H]]; [lia | auto]].
  - split; [auto | reflexivity].
  - split; [discriminate | intros [H | [H _]]; lia].
Qed.

Lemma cmp_finite_Eq m1 e1 m2 e2 :
  F64.cmp_finite m1 e1 m2 e2 = Eq <-> e1 = e2 /\ m1 = m2.
Proof.
  unfold F64.cmp_finite.
  destruct (Z.compare_spec e1 e2) as [E | E | E].
  - rewrite Pos.compare_eq_iff. tauto.
  - split; [discriminate | intros [H _]; lia].
  - split; [discriminate | intros [H _]; lia].
Qed.

Lemma cmp_finite_Gt m1 e1 m2 e2 :
  F64.cmp_finite m1 e1 m2 e2 = Gt <-> F64.cmp_finite m2 e2 m1 e1 = Lt.
Proof.
  rewrite (cmp_finite_antisym m1 e1 m2 e2).
  destruct (F64.cmp_finite m1 e1 m2 e2); simpl; split; congruence.
Qed.

Lemma SFcompare_finite (s1 : bool) m1 e1 (s2 : bool) m2 e2 :
  SFcompare (S754_finite s1 m1 e1) (S754_finite s2 m2 e2) =
  Some (if s1
        then if s2 then CompOpp (F64.cmp_finite m1 e1 m2 e2) else Lt
        else if s2 then Gt else F64.cmp_finite m1 e1 m2 e2).
Proof.
  unfold F64.cmp_finite. simpl. destruct s1, s2; try reflexivity;
    destruct (Z.compare e1 e2); reflexivity.
Qed.

Lemma SFcompare_antisym (x y : spec_float) :
  SFcompare y x = option_map CompOpp (SFcompare x y).
Proof.
  destruct x as [sx | sx | | sx mx ex], y as [sy | sy | | sy my ey];
    try reflexivity;
    try (destruct sx; reflexivity);
    try (destruct sy; reflexivity);
    try (destruct sx, sy; reflexivity).
  all: rewrite !SFcompare_finite; simpl.
  all: rewrite (cmp_finite_antisym mx ex my ey).
  all: destruct sx, sy; simpl; try reflexivity.
  all: destruct (F64.cmp_finite mx ex my ey); reflexivity.
Qed.

Lemma SFcompare_refl (x : spec_float) :
  x <> S754_nan -> SFcompare x x = Some Eq.
Proof.
  destruct x as [s | s | | s m e]; intros H; try reflexivity;
    try congruence.
  - destruct s; reflexivity.
  - rewrite SFcompare_finite, cmp_finite_refl. destruct s; reflexivity.
Qed.

Lemma SFcompare_None (x y : spec_float) :
  SFcompare x y = None <-> x = S754_nan \/ y = S754_nan.
Proof.
  destruct x as [sx | sx | | sx mx ex], y as [sy | sy | | sy my ey];
    simpl; split; intros H; try discriminate; auto;
    try (destruct H; discriminate).
Qed.

Lemma SFcompare_trans_lt (x y z : spec_float) :
  SFcompare x y = Some Lt -> SFcompare y z = Some Lt ->
  SFcompare x z = Some Lt.
Proof.
  destruct x as [sx | sx | | sx mx ex], y as [sy | sy | | sy my ey],
    z as [sz | sz | | sz mz ez];
    rewrite ?SFcompare_finite; simpl;
    try discriminate; try reflexivity;
    try (destruct sx; simpl; try discriminate; try reflexivity);
    try (destruct sy; simpl; try discriminate; try reflexivity);
    try (destruct sz; simpl; try discriminate; try reflexivity).
  - intros H1 H2. f_equal.
    destruct (F64.cmp_finite mx ex my ey) eqn:E1; simpl in H1; try discriminate.
    destruct (F64.cmp_finite my ey mz ez) eqn:E2; simpl in H2; try discriminate.
    apply cmp_finite_Gt in E1, E2. rewrite cmp_finite_Lt in E1, E2.
    assert (E3 : F64.cmp_finite mz ez mx ex = Lt) by (apply cmp_finite_Lt; lia).
    rewrite (cmp_finite_antisym mx ex mz ez) in E3.
    destruct (F64.cmp_finite mx ex mz ez); simpl in *; congruence.
  - intros H1 H2. injection H1 as E1. injection H2 as E2. f_equal.
    rewrite cmp_finite_Lt in E1, E2. apply cmp_finite_Lt. lia.
Qed.

Lemma SFcompare_trans_eq_l (x y z : spec_float) :
  SFcompare x y = Some Eq ->
  SFcompare y z = SFcompare x z.
Proof.
  destruct x as [sx | sx | | sx mx ex], y as [sy | sy | | sy my ey];
    rewrite ?SFcompare_finite; simpl; try discriminate;
    try (destruct sx; discriminate); try (destruct sy; discriminate);
    try (destruct sx, sy; discriminate).
  - reflexivity.
  - destruct sx, sy; try discriminate; reflexivity.
  - intros H. injection H as E.
    assert (Heq : F64.cmp_finite mx ex my ey = Eq /\ sx = sy).
    { destruct sx, sy; try discriminate; split; auto.
      destruct (F64.cmp_finite mx ex my ey); simpl in E; congruence. }
    destruct Heq as [Hc ->]. apply cmp_finite_Eq in Hc.
    destruct Hc as [-> ->]. reflexivity.
Qed.


(** *** The sign of a difference *)

Lemma digits2_pos_bounds (m : positive) :
  (2 ^ (Z.pos (digits2_pos m) - 1) <= Z.pos m < 2 ^ Z.pos (digits2_pos m))%Z.
Proof.
  assert (Hstep : forall d : positive,
            (2 ^ (Z.pos (Pos.succ d) - 1) = 2 * 2 ^ (Z.pos d - 1) /\
             2 ^ Z.pos (Pos.succ d) = 2 * 2 ^ Z.pos d)%Z).
  { intros d. rewrite Pos2Z.inj_succ. split.
    - replace (Z.succ (Z.pos d) - 1)%Z with (Z.succ (Z.pos d - 1)) by lia.
      apply Z.pow_succ_r. lia.
    - apply Z.pow_succ_r. lia. }
  induction m as [p IH | p IH |]; simpl digits2_pos.
  - destruct (Hstep (digits2_pos p)) as [-> ->].
    rewrite (Pos2Z.inj_xI p).
    generalize dependent (2 ^ (Z.pos (digits2_pos p) - 1))%Z.
    generalize (2 ^ Z.pos (digits2_pos p))%Z. clear Hstep. intros. lia.
  - destruct (Hstep (digits2_pos p)) as [-> ->].
    rewrite (Pos2Z.inj_xO p).
    generalize dependent (2 ^ (Z.pos (digits2_pos p) - 1))%Z.
    generalize (2 ^ Z.pos (digits2_pos p))%Z. clear Hstep. intros. lia.
  - simpl. lia.
Qed.

Lemma shl_align_value (m : positive) (e ez : Z) :
  (ez <= e)%Z ->
  Z.pos (fst (shl_align m e ez)) = (Z.pos m * 2 ^ (e - ez))%Z.
Proof.
  intros H. unfold shl_align.
  destruct (ez - e)%Z as [| d | d] eqn:E.
  - replace (e - ez)%Z with 0%Z by lia. simpl fst. lia.
  - lia.
  - simpl fst. change (PosDef.Pos.iter xO m d) with (shift_pos d m).
    rewrite shift_pos_correct.
    replace (e - ez)%Z with (Z.pos d) by lia.
    change (2 ^ Z.pos d)%Z with (Z.pow_pos 2 d). lia.
Qed.

Lemma bounded_canonical (m : positive) (e : Z) :
  SpecFloat.bounded prec emax m e = true ->
  (-1074 <= e)%Z /\
  (Z.pos (digits2_pos m) <= 53)%Z /\
  ((-1074 < e)%Z -> Z.pos (digits2_pos m) = 53%Z).
Proof.
  unfold SpecFloat.bounded, canonical_mantissa, fexp, SpecFloat.emin, prec, emax.
  intros H. apply andb_true_iff in H. destruct H as [H _].
  apply Z.eqb_eq in H. lia.
Qed.

(** Among canonical mantissas a smaller exponent means a smaller value. *)
Lemma canonical_order (m1 : positive) (e1 : Z) (m2 : positive) (e2 : Z) :
  SpecFloat.bounded prec emax m1 e1 = true -> SpecFloat.bounded prec emax m2 e2 = true ->
  (Z.pos (fst (shl_align m1 e1 (Z.min e1 e2)))
   < Z.pos (fst (shl_align m2 e2 (Z.min e1 e2))))%Z ->
  (e1 < e2)%Z \/ (e1 = e2 /\ (m1 < m2)%positive).
Proof.
  intros B1 B2 H. set (ez := Z.min e1 e2) in H.
  rewrite !shl_align_value in H by (unfold ez; lia).
  destruct (bounded_canonical _ _ B1) as (L1 & D1 & N1).
  destruct (bounded_canonical _ _ B2) as (L2 & D2 & N2).
  pose proof (digits2_pos_bounds m1) as P1.
  pose proof (digits2_pos_bounds m2) as P2.
  destruct (Z.lt_trichotomy e1 e2) as [Hlt | [Heq | Hgt]]; [auto | |].
  - right. split; [exact Heq |]. subst e2. unfold ez in H.
    rewrite Z.min_id, Z.sub_diag in H. simpl in H. lia.
  - exfalso. unfold ez in H. rewrite Z.min_r in H by lia.
    rewrite Z.sub_diag, Z.mul_1_r in H.
    rewrite (N1 ltac:(lia)) in P1.
    assert (2 ^ 1 <= 2 ^ (e1 - e2))%Z by (apply Z.pow_le_mono_r; lia).
    assert (Z.pos m2 < 2 ^ 53)%Z.
    { eapply Z.lt_le_trans; [apply P2 |]. apply Z.pow_le_mono_r; lia. }
    change (53 - 1)%Z with 52%Z in P1.
    assert (2 ^ 52 * 2 ^ 1 <= Z.pos m1 * 2 ^ (e1 - e2))%Z
      by (apply Z.mul_le_mono_nonneg; lia).
    change (2 ^ 52 * 2 ^ 1)%Z with (2 ^ 53)%Z in *. lia.
Qed.

(** A rounded negative number is not positive. *)
Lemma binary_round_aux_sign (sx : bool) (mx ex : Z) (lx : location) :
  match binary_round_aux prec emax sx mx ex lx with
  | S754_zero s | S754_infinity s | S754_finite s _ _ => s = sx
  | S754_nan => True
  end.
Proof.
  unfold binary_round_aux.
  destruct (shr_fexp prec emax mx ex lx) as [mrs' e'].
  destruct (shr_fexp prec emax _ e' loc_Exact) as [mrs'' e''].
  destruct (shr_m mrs'') as [| m | m]; try exact I; try reflexivity.
  destruct (e'' <=? emax - prec)%Z; reflexivity.
Qed.

Lemma binary_normalize_positive (m e : Z) :
  SFltb (S754_zero false) (binary_normalize prec emax m e false) = true ->
  (0 < m)%Z.
Proof.
  destruct m as [| m | m]; simpl; [discriminate | lia |].
  unfold binary_round.
  destruct (shl_align m e _) as [mz ez].
  pose proof (binary_round_aux_sign true (Z.pos mz) ez loc_Exact) as H.
  destruct (binary_round_aux prec emax true (Z.pos mz) ez loc_Exact)
    as [s | s | | s m' e']; try subst s; discriminate.
Qed.

(** The sign of a difference: [x - y] is positive only when [y < x]. *)
Lemma SFsub_positive (x y : spec_float) :
  valid_binary x = true -> valid_binary y = true ->
  SFltb (S754_zero false) (SFsub prec emax x y) = true ->
  SFltb y x = true.
Proof.
  intros Vx Vy.
  destruct x as [sx | sx | | sx mx ex], y as [sy | sy | | sy my ey];
    try (simpl; discriminate);
    try (destruct sx; simpl; try discriminate; reflexivity);
    try (destruct sy; simpl; try discriminate; reflexivity);
    try (destruct sx, sy; simpl; try discriminate; reflexivity).
  unfold SFsub. intros H. apply binary_normalize_positive in H.
  simpl in Vx, Vy. unfold SFltb. rewrite SFcompare_finite.
  change (IntDef.Z.min ex ey) with (Z.min ex ey) in H.
  destruct sy, sx; unfold cond_Zopp in H; try reflexivity; try lia.
  - assert (Hc : F64.cmp_finite mx ex my ey = Lt).
    { apply cmp_finite_Lt. apply canonical_order; try assumption. lia. }
    rewrite (cmp_finite_antisym mx ex my ey), Hc. reflexivity.
  - assert (Hc : F64.cmp_finite my ey mx ex = Lt).
    { apply cmp_finite_Lt. apply canonical_order; try assumption.
      rewrite (Z.min_comm ey ex). lia. }
    rewrite Hc. reflexivity.
Qed.

(** *** The order of the primitive floats *)

Local Open Scope float_scope.

Lemma is_nan_spec (x : float) : is_nan x = true <-> Prim2SF x = S754_nan.
Proof.
  unfold is_nan. rewrite FloatAxioms.eqb_spec. unfold SFeqb.
  destruct (Prim2SF x) as [s | s | | s m e] eqn:E.
  - simpl. split; discriminate.
  - destruct s; simpl; split; discriminate.
  - simpl. split; reflexivity.
  - rewrite SFcompare_refl by discriminate. simpl. split; discriminate.
Qed.

Lemma is_nan_false (x : float) : is_nan x = false <-> Prim2SF x <> S754_nan.
Proof.
  rewrite <- is_nan_spec. destruct (is_nan x); split; congruence.
Qed.

Lemma float_ltb_cmp (x y : float) : (x <? y) = true <-> F64.cmp x y = Some Lt.
Proof.
  rewrite FloatAxioms.ltb_spec. unfold SFltb, F64.cmp.
  destruct (SFcompare _ _) as [[| |] |]; split; congruence.
Qed.

Lemma float_leb_cmp (x y : float) :
  (x <=? y) = true <-> F64.cmp x y = Some Lt \/ F64.cmp x y = Some Eq.
Proof.
  rewrite FloatAxioms.leb_spec. unfold SFleb, F64.cmp.
  destruct (SFcompare _ _) as [[| |] |]; split; try congruence; auto;
    intros [H | H]; congruence.
Qed.

Lemma cmp_nan (x y : float) :
  F64.cmp x y = None <-> is_nan x = true \/ is_nan y = true.
Proof. unfold F64.cmp. rewrite SFcompare_None, !is_nan_spec. tauto. Qed.

Lemma cmp_antisym (x y : float) : F64.cmp y x = option_map CompOpp (F64.cmp x y).
Proof. apply SFcompare_antisym. Qed.

Lemma cmp_refl (x : float) : is_nan x = false -> F64.cmp x x = Some Eq.
Proof. intros H. apply SFcompare_refl. apply is_nan_false. exact H. Qed.

Lemma float_ltb_irrefl (x : float) : (x <? x) = false.
Proof.
  destruct (x <? x) eqn:E; [| reflexivity].
  apply float_ltb_cmp in E. destruct (is_nan x) eqn:N.
  - assert (F64.cmp x x = None) by (apply cmp_nan; auto). congruence.
  - rewrite cmp_refl in E by exact N. discriminate.
Qed.

Lemma float_ltb_not_nan (x y : float) :
  (x <? y) = true -> is_nan x = false /\ is_nan y = false.
Proof.
  intros H. apply float_ltb_cmp in H.
  destruct (is_nan x) eqn:Nx, (is_nan y) eqn:Ny; auto;
    assert (F64.cmp x y = None) by (apply cmp_nan; auto); congruence.
Qed.

Lemma float_leb_not_nan (x y : float) :
  (x <=? y) = true -> is_nan x = false /\ is_nan y = false.
Proof.
  intros H. apply float_leb_cmp in H.
  destruct (is_nan x) eqn:Nx, (is_nan y) eqn:Ny; auto;
    assert (F64.cmp x y = None) by (apply cmp_nan; auto);
    destruct H; congruence.
Qed.

Lemma float_ltb_leb (x y : float) : (x <? y) = true -> (x <=? y) = true.
Proof. rewrite float_ltb_cmp, float_leb_cmp. auto. Qed.

Lemma float_leb_refl (x : float) : is_nan x = false -> (x <=? x) = true.
Proof. intros H. apply float_leb_cmp. right. apply cmp_refl. exact H. Qed.

Lemma float_ltb_antisym (x y : float) : (x <? y) = true -> (y <? x) = false.
Proof.
  intros H. apply float_ltb_cmp in H.
  destruct (y <? x) eqn:E; [| reflexivity].
  apply float_ltb_cmp in E. rewrite cmp_antisym, H in E. discriminate.
Qed.

Lemma float_ltb_not_leb (x y : float) : (x <? y) = true -> (y <=? x) = false.
Proof.
  intros H. apply float_ltb_cmp in H.
  destruct (y <=? x) eqn:E; [| reflexivity].
  apply float_leb_cmp in E. rewrite cmp_antisym, H in E.
  destruct E; discriminate.
Qed.

Lemma float_leb_not_ltb (x y : float) : (x <=? y) = true -> (y <? x) = false.
Proof.
  intros H. destruct (y <? x) eqn:E; [| reflexivity].
  apply float_ltb_not_leb in E. congruence.
Qed.

(** Two floats that are not NaN are comparable. *)
Lemma float_not_leb_ltb (x y : float) :
  is_nan x = false -> is_nan y = false ->
  (x <=? y) = false -> (y <? x) = true.
Proof.
  intros Nx Ny H. apply float_ltb_cmp. rewrite cmp_antisym.
  destruct (F64.cmp x y) as [[| |] |] eqn:E.
  - assert ((x <=? y) = true) by (apply float_leb_cmp; auto). congruence.
  - assert ((x <=? y) = true) by (apply float_leb_cmp; auto). congruence.
  - reflexivity.
  - apply cmp_nan in E. destruct E; congruence.
Qed.

Lemma float_not_ltb_leb (x y : float) :
  is_nan x = false -> is_nan y = false ->
  (x <? y) = false -> (y <=? x) = true.
Proof.
  intros Nx Ny H. destruct (y <=? x) eqn:E; [reflexivity |].
  apply float_not_leb_ltb in E; congruence.
Qed.

Lemma cmp_trans_lt (x y z : float) :
  F64.cmp x y = Some Lt -> F64.cmp y z = Some Lt -> F64.cmp x z = Some Lt.
Proof. apply SFcompare_trans_lt. Qed.

Lemma cmp_eq_l (x y z : float) :
  F64.cmp x y = Some Eq -> F64.cmp y z = F64.cmp x z.
Proof. apply SFcompare_trans_eq_l. Qed.

Lemma cmp_eq_r (x y z : float) :
  F64.cmp y z = Some Eq -> F64.cmp x y = F64.cmp x z.
Proof.
  intros H.
  assert (H' : F64.cmp z y = Some Eq) by (rewrite cmp_antisym, H; reflexivity).
  rewrite (cmp_antisym y x), (cmp_antisym z x).
  rewrite <- (cmp_eq_l z y x H'). reflexivity.
Qed.

Lemma float_ltb_trans (x y z : float) :
  (x <? y) = true -> (y <? z) = true -> (x <? z) = true.
Proof. rewrite !float_ltb_cmp. apply cmp_trans_lt. Qed.

Lemma float_ltb_leb_trans (x y z : float) :
  (x <? y) = true -> (y <=? z) = true -> (x <? z) = true.
Proof.
  rewrite !float_ltb_cmp, float_leb_cmp. intros H [H' | H'].
  - eapply cmp_trans_lt; eauto.
  - rewrite <- (cmp_eq_r x y z H'). exact H.
Qed.

Lemma float_leb_ltb_trans (x y z : float) :
  (x <=? y) = true -> (y <? z) = true -> (x <? z) = true.
Proof.
  rewrite !float_ltb_cmp, float_leb_cmp. intros [H | H] H'.
  - eapply cmp_trans_lt; eauto.
  - rewrite <- (cmp_eq_l x y z H). exact H'.
Qed.

Lemma float_leb_trans (x y z : float) :
  (x <=? y) = true -> (y <=? z) = true -> (x <=? z) = true.
Proof.
  intros H H'. pose proof H' as H''. apply float_leb_cmp in H''.
  destruct H'' as [E | E].
  - apply float_ltb_leb. eapply float_leb_ltb_trans; [exact H |]. apply float_ltb_cmp. exact E.
  - apply float_leb_cmp. rewrite <- (cmp_eq_r x y z E). apply float_leb_cmp. exact H.
Qed.

(** [numpy.diff(x) > 0] tells that [x] increases. *)
Lemma float_sub_positive (a b : float) :
  (0 <? b - a) = true -> (a <? b) = true.
Proof.
  rewrite !FloatAxioms.ltb_spec, FloatAxioms.sub_spec.
  apply SFsub_positive; apply Prim2SF_valid.
Qed.

(** *** Sums and differences *)

(** Shifting a non-negative mantissa to the right keeps it non-negative. *)
Lemma shr_1_nonneg (mrs : shr_record) :
  (0 <= shr_m mrs)%Z -> (0 <= shr_m (shr_1 mrs))%Z.
Proof.
  destruct mrs as [m r s]. simpl.
  destruct m as [| [p | p |] | [p | p |]]; simpl; lia.
Qed.

Lemma iter_pos_shr_1_nonneg (p : positive) :
  forall mrs : shr_record,
    (0 <= shr_m mrs)%Z -> (0 <= shr_m (SpecFloat.iter_pos shr_1 p mrs))%Z.
Proof.
  induction p as [p IH | p IH |]; intros mrs H; simpl.
  - apply IH, IH, shr_1_nonneg, H.
  - apply IH, IH, H.
  - apply shr_1_nonneg, H.
Qed.

Lemma shr_fexp_nonneg (m e : Z) (l : location) :
  (0 <= m)%Z -> (0 <= shr_m (fst (shr_fexp prec emax m e l)))%Z.
Proof.
  intros H. unfold shr_fexp, shr.
  assert (H0 : (0 <= shr_m (shr_record_of_loc m l))%Z).
  { destruct l as [| []]; exact H. }
  destruct (fexp prec emax (Zdigits2 m + e) - e)%Z; simpl fst;
    [exact H0 | | exact H0].
  apply iter_pos_shr_1_nonneg. exact H0.
Qed.

Lemma round_nearest_even_nonneg (m : Z) (l : location) :
  (0 <= m)%Z -> (0 <= round_nearest_even m l)%Z.
Proof.
  intros H. unfold round_nearest_even.
  destruct l as [| []]; try destruct (Z.even m); lia.
Qed.

Lemma binary_round_aux_not_nan (sx : bool) (mx ex : Z) (lx : location) :
  (0 <= mx)%Z -> binary_round_aux prec emax sx mx ex lx <> S754_nan.
Proof.
  intros H. unfold binary_round_aux.
  pose proof (shr_fexp_nonneg mx ex lx H) as H1.
  destruct (shr_fexp prec emax mx ex lx) as [mrs' e']. simpl fst in H1.
  pose proof (shr_fexp_nonneg _ e' loc_Exact
                (round_nearest_even_nonneg _ (loc_of_shr_record mrs') H1))
    as H2.
  destruct (shr_fexp prec emax _ e' loc_Exact) as [mrs'' e''].
  simpl fst in H2.
  destruct (shr_m mrs'') as [| m | m]; [discriminate | | lia].
  destruct (e'' <=? emax - prec)%Z; discriminate.
Qed.

Lemma binary_normalize_not_nan (m e : Z) (szero : bool) :
  binary_normalize prec emax m e szero <> S754_nan.
Proof.
  destruct m as [| m | m]; simpl; [discriminate | |];
    unfold binary_round; destruct (shl_align m e _) as [mz ez];
    apply binary_round_aux_not_nan; lia.
Qed.

(** A sum is NaN only by a NaN operand or by infinities of opposite
    signs. *)
Lemma SFadd_nan (x y : spec_float) :
  SFadd prec emax x y = S754_nan ->
  x = S754_nan \/ y = S754_nan \/
  exists s, x = S754_infinity s /\ y = S754_infinity (negb s).
Proof.
  destruct x as [sx | sx | | sx mx ex], y as [sy | sy | | sy my ey];
    simpl; auto; try discriminate;
    try (destruct sx, sy; discriminate).
  - destruct sx, sy; try discriminate; intros _; right; right;
      [exists true | exists false]; auto.
  - intros H. apply binary_normalize_not_nan in H. contradiction.
Qed.

Lemma float_add_not_nan (x y : float) (s : bool) (m : positive) (e : Z) :
  is_nan x = false -> Prim2SF y = S754_finite s m e ->
  is_nan (x + y) = false.
Proof.
  rewrite !is_nan_false, FloatAxioms.add_spec. intros Hx Hy H.
  apply SFadd_nan in H. rewrite Hy in H.
  destruct H as [H | [H | [s' [_ H]]]]; [contradiction | discriminate..].
Qed.

(** [x - x] is zero, or NaN when [x] is infinite or NaN. *)
Lemma float_sub_self (x : float) : x - x = 0 \/ x - x = nan.
Proof.
  assert (H : Prim2SF (x - x) = S754_zero false \/
              Prim2SF (x - x) = S754_nan).
  { rewrite FloatAxioms.sub_spec. unfold SF64sub.
    destruct (Prim2SF x) as [[] | [] | | s m e]; simpl; auto.
    left. unfold shl_align.
    change (IntDef.Z.min e e) with (Z.min e e).
    rewrite Z.min_id.
    change (IntDef.Z.sub e e) with (Z.sub e e).
    rewrite Z.sub_diag. simpl fst. reflexivity. }
  destruct H as [H | H]; [left | right]; apply Prim2SF_inj; rewrite H;
    reflexivity.
Qed.

End FloatFacts.

(** ** numpy operations *)

Module NpFacts.

Local Open Scope float_scope.

Lemma item_ok {A : Type} (a : list A) (i : nat) (x : A) :
  Np.item a i = Ok x <-> nth_error a i = Some x.
Proof.
  unfold Np.item. destruct (nth_error a i); split; intros H;
    try discriminate; inversion H; reflexivity.
Qed.

Lemma item_in_range {A : Type} (a : list A) (i : nat) :
  (i < List.length a)%nat -> exists x, Np.item a i = Ok x.
Proof.
  intros H. unfold Np.item.
  destruct (nth_error a i) eqn:E; [eauto |].
  apply nth_error_None in E. lia.
Qed.

Lemma take_ok {A : Type} (a : list A) (js : list nat) (xs : list A) :
  Np.take a js = Ok xs ->
  List.length xs = List.length js /\
  forall p j, nth_error js p = Some j -> nth_error xs p = nth_error a j /\
                                         (j < List.length a)%nat.
Proof.
  revert xs. induction js as [| j js IH]; simpl; intros xs H.
  - inversion H. split; [reflexivity |]. intros [| p] j' Hp; discriminate.
  - inv_bind H. inv_bind H. inversion H; subst xs. clear H.
    destruct (IH _ Hx0) as [Hlen Hnth]. split; [simpl; lia |].
    intros [| p] j' Hp; simpl in *.
    + inversion Hp; subst j'. apply item_ok in Hx. rewrite Hx. split; auto.
      apply nth_error_Some. congruence.
    + apply Hnth. exact Hp.
Qed.

Lemma take_in_range {A : Type} (a : list A) (js : list nat) :
  (forall j, In j js -> (j < List.length a)%nat) ->
  exists xs, Np.take a js = Ok xs.
Proof.
  induction js as [| j js IH]; simpl; intros H.
  - eauto.
  - destruct (item_in_range a j) as [x Hx]; [apply H; auto |].
    destruct IH as [xs Hxs]; [intros; apply H; auto |].
    rewrite Hx, Hxs. simpl. eauto.
Qed.

Lemma where_from_spec (mask : list bool) (k j : nat) :
  In j (Np.where_from k mask) <->
  (k <= j)%nat /\ nth_error mask (j - k) = Some true.
Proof.
  revert k. induction mask as [| b mask IH]; intros k; simpl.
  - split; [tauto |]. intros [_ H]. destruct (j - k)%nat; discriminate.
  - assert (Hrest : In j (Np.where_from (S k) mask) <->
                    (k < j)%nat /\ nth_error mask (j - S k) = Some true).
    { rewrite IH. tauto. }
    destruct b; simpl; rewrite Hrest; split.
    + intros [-> | [Hlt Hn]].
      * rewrite Nat.sub_diag. split; [lia | reflexivity].
      * split; [lia |]. replace (j - k)%nat with (S (j - S k)) by lia.
        exact Hn.
    + intros [Hle Hn]. destruct (Nat.eq_dec k j) as [-> | Hne]; [auto |].
      right. split; [lia |].
      replace (j - k)%nat with (S (j - S k)) in Hn by lia. exact Hn.
    + intros [Hlt Hn]. split; [lia |].
      replace (j - k)%nat with (S (j - S k)) by lia. exact Hn.
    + intros [Hle Hn]. destruct (Nat.eq_dec k j) as [-> | Hne].
      * rewrite Nat.sub_diag in Hn. discriminate.
      * split; [lia |].
        replace (j - k)%nat with (S (j - S k)) in Hn by lia. exact Hn.
Qed.

Lemma where_spec (mask : list bool) (j : nat) :
  In j (Np.where_ mask) <-> nth_error mask j = Some true.
Proof.
  unfold Np.where_. rewrite where_from_spec, Nat.sub_0_r.
  split; [tauto | intros; split; [lia | assumption]].
Qed.

Lemma where_from_sorted (mask : list bool) (k : nat) :
  StronglySorted lt (Np.where_from k mask).
Proof.
  revert k. induction mask as [| b mask IH]; intros k; simpl.
  - constructor.
  - destruct b; [| apply IH]. constructor; [apply IH |].
    apply Forall_forall. intros j Hj. apply where_from_spec in Hj. lia.
Qed.

Lemma where_from_length (mask : list bool) (k : nat) :
  (List.length (Np.where_from k mask) <= List.length mask)%nat.
Proof.
  revert k. induction mask as [| b mask IH]; intros k; simpl; [lia |].
  destruct b; simpl; specialize (IH (S k)); lia.
Qed.

Lemma min_from_nan (xs : list float) (best : float) :
  is_nan best = true -> Np.min_from best xs = best.
Proof.
  revert best. induction xs as [| x xs IH]; intros best H; simpl;
    [reflexivity |].
  unfold F64.minimum. rewrite H, orb_true_r. apply IH. exact H.
Qed.

Lemma argmin_from_nan (xs : list float) (best : float) (besti k : nat) :
  is_nan best = true -> Np.argmin_from best besti k xs = besti.
Proof.
  intros H. destruct xs as [| x xs]; simpl; [reflexivity |].
  rewrite H. reflexivity.
Qed.

(** The scan from a running minimum [best] that is not NaN: either
    nothing in [xs] is below [best], or the scan ends at an entry [p]
    holding the minimum, the first NaN of [xs] or the first least entry. *)
Lemma argmin_min_from (xs : list float) :
  forall (best : float) (besti k : nat),
    is_nan best = false ->
    (Np.argmin_from best besti k xs = besti /\
     Np.min_from best xs = best /\
     forall q y, nth_error xs q = Some y -> (best <=? y) = true)
    \/
    (exists p,
        Np.argmin_from best besti k xs = (k + p)%nat /\
        nth_error xs p = Some (Np.min_from best xs) /\
        (is_nan (Np.min_from best xs) = false ->
         (Np.min_from best xs <? best) = true /\
         (forall q y, nth_error xs q = Some y ->
                      (Np.min_from best xs <=? y) = true) /\
         (forall q y, (q < p)%nat -> nth_error xs q = Some y ->
                      (Np.min_from best xs <? y) = true)) /\
        (is_nan (Np.min_from best xs) = true ->
         forall q y, (q < p)%nat -> nth_error xs q = Some y ->
                     is_nan y = false)).
Proof.
  induction xs as [| x xs IH]; intros best besti k Hbest; simpl.
  - left. split; [reflexivity |]. split; [reflexivity |].
    intros [| q] y Hq; discriminate.
  - rewrite Hbest. unfold F64.minimum, F64.geb.
    rewrite Hbest, orb_false_r.
    destruct (best <=? x) eqn:Hle; simpl.
    + destruct (FloatFacts.float_leb_not_nan _ _ Hle) as [_ Hx].
      destruct (IH best besti (S k) Hbest)
        as [[Hr [Hm Hall]] | [p [Hr [Hn [Hmin Hnan]]]]].
      * left. split; [exact Hr |]. split; [exact Hm |].
        intros [| q] y Hq; simpl in Hq.
        -- inversion Hq; subst y. exact Hle.
        -- eapply Hall; eauto.
      * right. exists (S p). rewrite Hr.
        split; [lia |]. split; [exact Hn |]. split.
        -- intros Hm. destruct (Hmin Hm) as [Hlt [Hall Hfirst]].
           assert (Hltx : (Np.min_from best xs <? x) = true)
             by (eapply FloatFacts.float_ltb_leb_trans; eauto).
           split; [exact Hlt |]. split.
           ++ intros [| q] y Hq; simpl in Hq.
              ** inversion Hq; subst y.
                 apply FloatFacts.float_ltb_leb. exact Hltx.
              ** eapply Hall; eauto.
           ++ intros [| q] y Hlt' Hq; simpl in Hq.
              ** inversion Hq; subst y. exact Hltx.
              ** eapply Hfirst; eauto. lia.
        -- intros Hm [| q] y Hlt' Hq; simpl in Hq.
           ++ inversion Hq; subst y. exact Hx.
           ++ eapply Hnan; eauto. lia.
    + right. destruct (is_nan x) eqn:Hx.
      * exists 0%nat.
        rewrite argmin_from_nan, min_from_nan by exact Hx.
        split; [lia |]. split; [reflexivity |]. split.
        -- intros Hm. congruence.
        -- intros _ q y Hq. lia.
      * assert (Hlt : (x <? best) = true)
          by (apply FloatFacts.float_not_leb_ltb; assumption).
        destruct (IH x k (S k) Hx)
          as [[Hr [Hm Hall]] | [p [Hr [Hn [Hmin Hnan]]]]].
        -- exists 0%nat. rewrite Hr, Hm, Nat.add_0_r.
           split; [reflexivity |]. split; [reflexivity |]. split.
           ++ intros _. split; [exact Hlt |]. split.
              ** intros [| q] y Hq; simpl in Hq.
                 --- inversion Hq; subst y.
                     apply FloatFacts.float_leb_refl. exact Hx.
                 --- eapply Hall; eauto.
              ** intros q y Hq. lia.
           ++ intros Hnx. congruence.
        -- exists (S p). rewrite Hr.
           split; [lia |]. split; [exact Hn |]. split.
           ++ intros Hm. destruct (Hmin Hm) as [Hlt' [Hall Hfirst]].
              split; [eapply FloatFacts.float_ltb_trans; eauto |]. split.
              ** intros [| q] y Hq; simpl in Hq.
                 --- inversion Hq; subst y.
                     apply FloatFacts.float_ltb_leb. exact Hlt'.
                 --- eapply Hall; eauto.
              ** intros [| q] y Hq' Hq; simpl in Hq.
                 --- inversion Hq; subst y. exact Hlt'.
                 --- eapply Hfirst; eauto. lia.
           ++ intros Hm [| q] y Hq' Hq; simpl in Hq.
              ** inversion Hq; subst y. exact Hx.
              ** eapply Hnan; eauto. lia.
Qed.

(** [numpy.argmin] points at [numpy.min]: when the minimum is not NaN, at
    its first occurrence, no entry being smaller; when it is NaN, at the
    first NaN. *)
Lemma argmin_min (xs : list float) (r : nat) (m : float) :
  Np.argmin xs = Ok r -> Np.min xs = Ok m ->
  nth_error xs r = Some m /\
  (is_nan m = false ->
   (forall q y, nth_error xs q = Some y -> (m <=? y) = true) /\
   (forall q y, (q < r)%nat -> nth_error xs q = Some y ->
                (m <? y) = true)) /\
  (is_nan m = true ->
   forall q y, (q < r)%nat -> nth_error xs q = Some y -> is_nan y = false).
Proof.
  destruct xs as [| x xs]; simpl; [discriminate |].
  intros Hr Hm. inversion Hr; subst r. inversion Hm; subst m. clear Hr Hm.
  destruct (is_nan x) eqn:Hx.
  { rewrite argmin_from_nan, min_from_nan by exact Hx.
    split; [reflexivity |]. split; [congruence |].
    intros _ q y Hq. lia. }
  destruct (argmin_min_from xs x 0 1 Hx)
    as [[Hr [Hm Hall]] | [p [Hr [Hn [Hmin Hnan]]]]].
  - rewrite Hr, Hm. split; [reflexivity |]. split.
    + intros _. split.
      * intros [| q] y Hq; simpl in Hq.
        -- inversion Hq; subst y. apply FloatFacts.float_leb_refl. exact Hx.
        -- eapply Hall; eauto.
      * intros q y Hq. lia.
    + congruence.
  - rewrite Hr. simpl. split; [exact Hn |]. split.
    + intros Hm. destruct (Hmin Hm) as [Hlt [Hall Hfirst]]. split.
      * intros [| q] y Hq; simpl in Hq.
        -- inversion Hq; subst y. apply FloatFacts.float_ltb_leb. exact Hlt.
        -- eapply Hall; eauto.
      * intros [| q] y Hq' Hq; simpl in Hq.
        -- inversion Hq; subst y. exact Hlt.
        -- eapply Hfirst; eauto. lia.
    + intros Hm [| q] y Hq' Hq; simpl in Hq.
      * inversion Hq; subst y. exact Hx.
      * eapply Hnan; eauto. lia.
Qed.

Lemma min_nonempty (xs : list float) :
  xs <> [] -> exists m, Np.min xs = Ok m.
Proof. destruct xs; [congruence | simpl; eauto]. Qed.

Lemma argmin_nonempty (xs : list float) :
  xs <> [] -> exists r, Np.argmin xs = Ok r.
Proof. destruct xs; [congruence | simpl; eauto]. Qed.

Lemma set_item_ok {A : Type} (a : list A) (i : nat) (v : A) (a' : list A) :
  Np.set_item a i v = Ok a' ->
  (i < List.length a)%nat /\
  List.length a' = List.length a /\
  nth_error a' i = Some v /\
  forall p, p <> i -> nth_error a' p = nth_error a p.
Proof.
  revert i a'. induction a as [| x a IH]; intros [| i] a' H; simpl in H;
    try discriminate.
  - inversion H; subst a'. simpl. repeat split; try lia.
    intros [| p] Hp; [congruence | reflexivity].
  - inv_bind H. inversion H; subst a'. clear H.
    destruct (IH _ _ Hx) as [Hlt [Hlen [Hi Hp]]]. simpl.
    repeat split; try lia; auto.
    intros [| p] Hne; simpl; [reflexivity |]. apply Hp. congruence.
Qed.

Lemma set_item_in_range {A : Type} (a : list A) (i : nat) (v : A) :
  (i < List.length a)%nat -> exists a', Np.set_item a i v = Ok a'.
Proof.
  revert i. induction a as [| x a IH]; intros [| i] H; simpl in *;
    try lia; eauto.
  destruct (IH i) as [a' Ha']; [lia |]. rewrite Ha'. simpl. eauto.
Qed.

Lemma zip_with_nth_error {A B C : Type} (f : A -> B -> C)
    (xs : list A) (ys : list B) (p : nat) (x : A) (y : B) :
  nth_error xs p = Some x -> nth_error ys p = Some y ->
  nth_error (Np.zip_with f xs ys) p = Some (f x y).
Proof.
  revert ys p. induction xs as [| x0 xs IH]; intros [| y0 ys] [| p] Hx Hy;
    simpl in *; try discriminate.
  - inversion Hx; inversion Hy; reflexivity.
  - apply IH; assumption.
Qed.

Lemma zip_with_length {A B C : Type} (f : A -> B -> C)
    (xs : list A) (ys : list B) :
  List.length xs = List.length ys ->
  List.length (Np.zip_with f xs ys) = List.length xs.
Proof.
  revert ys. induction xs as [| x xs IH]; intros [| y ys] H; simpl in *;
    try discriminate; auto.
Qed.

End NpFacts.

(** ** [_match_examples] *)

Module MatchFacts.

Import Match.
Local Open Scope float_scope.

Lemma nth_of_nth_error {A : Type} (l : list A) (n : nat) (x d : A) :
  nth_error l n = Some x -> nth n l d = x.
Proof. intros H. apply nth_error_nth. exact H. Qed.

Lemma sorted_positions (l : list nat) :
  StronglySorted lt l ->
  forall p q x y,
    nth_error l p = Some x -> nth_error l q = Some y ->
    (p < q)%nat -> (x < y)%nat.
Proof.
  induction 1 as [| z l Hs IH Hall]; intros p q x y Hp Hq Hlt.
  - destruct p; discriminate.
  - destruct q as [| q]; [lia |]. simpl in Hq.
    destruct p as [| p]; simpl in Hp.
    + inversion Hp; subst z. rewrite Forall_forall in Hall.
      apply Hall. eapply nth_error_In; eauto.
    + eapply IH; eauto. lia.
Qed.

Lemma sorted_positions_inv (l : list nat) (p q x y : nat) :
  StronglySorted lt l ->
  nth_error l p = Some x -> nth_error l q = Some y ->
  (x < y)%nat -> (p < q)%nat.
Proof.
  intros Hs Hp Hq Hlt.
  destruct (Nat.lt_trichotomy p q) as [H | [H | H]]; [exact H | |].
  - subst q. rewrite Hp in Hq. inversion Hq. lia.
  - pose proof (sorted_positions l Hs q p y x Hq Hp H). lia.
Qed.

Lemma same_time_indices_spec (a : arrays) (t : Z) (j : nat) :
  In j (same_time_indices a t) <-> nth_error (ships_times a) j = Some t.
Proof.
  unfold same_time_indices. rewrite NpFacts.where_spec, nth_error_map.
  destruct (nth_error (ships_times a) j) as [s |]; simpl.
  - split; intros H; inversion H as [H'].
    + apply Z.eqb_eq in H'. congruence.
    + f_equal. apply Z.eqb_eq. reflexivity.
  - split; discriminate.
Qed.

Lemma same_time_indices_sorted (a : arrays) (t : Z) :
  StronglySorted lt (same_time_indices a t).
Proof. apply NpFacts.where_from_sorted. Qed.

(** The distances the loop computes are [distance_deg], candidate by
    candidate. *)
Lemma candidate_distances_ok (a : arrays) (i : nat) (js : list nat)
    (ds : list float) :
  candidate_distances a i js = Ok ds ->
  List.length ds = List.length js /\
  forall p j, nth_error js p = Some j ->
              nth_error ds p = Some (distance_deg a i j).
Proof.
  unfold candidate_distances. intros H.
  inv_bind H. rename x into lat_i, Hx into Hlat_i.
  inv_bind H. rename x into lats, Hx into Hlats.
  inv_bind H. rename x into pos_i, Hx into Hpos_i.
  inv_bind H. rename x into pos, Hx into Hpos.
  inv_bind H. rename x into neg_i, Hx into Hneg_i.
  inv_bind H. rename x into neg, Hx into Hneg.
  inversion H; subst ds; clear H.
  apply NpFacts.item_ok in Hlat_i, Hpos_i, Hneg_i.
  destruct (NpFacts.take_ok _ _ _ Hlats) as [Llats Nlats].
  destruct (NpFacts.take_ok _ _ _ Hpos) as [Lpos Npos].
  destruct (NpFacts.take_ok _ _ _ Hneg) as [Lneg Nneg].
  split.
  - unfold Np.minimum, distances_deg.
    rewrite !NpFacts.zip_with_length; try congruence.
    rewrite !NpFacts.zip_with_length; congruence.
  - intros p j Hp.
    destruct (Nlats p j Hp) as [E1 R1].
    destruct (Npos p j Hp) as [E2 R2].
    destruct (Nneg p j Hp) as [E3 R3].
    destruct (nth_error (ships_lats a) j) as [lat |] eqn:Flat;
      [| apply nth_error_None in Flat; lia].
    destruct (nth_error (ships_pos_lngs a) j) as [lp |] eqn:Fpos;
      [| apply nth_error_None in Fpos; lia].
    destruct (nth_error (ships_neg_lngs a) j) as [ln |] eqn:Fneg;
      [| apply nth_error_None in Fneg; lia].
    unfold Np.minimum, distances_deg, distance_deg, d_pos, d_neg.
    rewrite (nth_of_nth_error _ _ _ 0 Hlat_i), (nth_of_nth_error _ _ _ 0 Hpos_i),
      (nth_of_nth_error _ _ _ 0 Hneg_i), (nth_of_nth_error _ _ _ 0 Flat),
      (nth_of_nth_error _ _ _ 0 Fpos), (nth_of_nth_error _ _ _ 0 Fneg).
    apply (NpFacts.zip_with_nth_error F64.minimum).
    + apply (NpFacts.zip_with_nth_error (planar_distance lat_i pos_i));
        assumption.
    + apply (NpFacts.zip_with_nth_error (planar_distance lat_i neg_i));
        assumption.
Qed.

Lemma candidate_distances_total (a : arrays) (i : nat) (js : list nat) :
  lengths_agree a ->
  (i < List.length (cnn_times a))%nat ->
  (forall j, In j js -> (j < List.length (ships_times a))%nat) ->
  exists ds, candidate_distances a i js = Ok ds.
Proof.
  intros (L1 & L2 & L3 & L4 & L5 & L6) Hi Hjs. unfold candidate_distances.
  destruct (NpFacts.item_in_range (cnn_lats a) i) as [x1 E1]; [lia |].
  destruct (NpFacts.item_in_range (cnn_pos_lngs a) i) as [x2 E2]; [lia |].
  destruct (NpFacts.item_in_range (cnn_neg_lngs a) i) as [x3 E3]; [lia |].
  destruct (NpFacts.take_in_range (ships_lats a) js) as [y1 F1];
    [intros j Hj; rewrite L1; auto |].
  destruct (NpFacts.take_in_range (ships_pos_lngs a) js) as [y2 F2];
    [intros j Hj; rewrite L2; auto |].
  destruct (NpFacts.take_in_range (ships_neg_lngs a) js) as [y3 F3];
    [intros j Hj; rewrite L3; auto |].
  rewrite E1, F1, E2, F2, E3, F3. simpl. eauto.
Qed.

(** What one loop iteration knows when it reaches [numpy.argmin]. *)
Lemma find_match_inv (a : arrays) (i : nat) (m : option nat) :
  find_match a i = Ok m ->
  exists t,
    nth_error (cnn_times a) i = Some t /\
    ((m = None /\ same_time_indices a t = []) \/
     exists ds d k j,
       candidate_distances a i (same_time_indices a t) = Ok ds /\
       Np.min ds = Ok d /\ Np.argmin ds = Ok k /\
       nth_error (same_time_indices a t) k = Some j /\
       ((m = None /\ F64.gtb d MAX_DISTANCE_DEG = true) \/
        (m = Some j /\ F64.gtb d MAX_DISTANCE_DEG = false))).
Proof.
  unfold find_match. intros H.
  inv_bind H. rename x into t. apply NpFacts.item_ok in Hx.
  exists t. split; [exact Hx |].
  destruct (Nat.eqb _ 0) eqn:Hempty.
  - left. inversion H. apply Nat.eqb_eq in Hempty.
    split; [reflexivity |]. apply length_zero_iff_nil. exact Hempty.
  - right. apply Nat.eqb_neq in Hempty.
    inv_bind H. rename x into ds, Hx0 into Hds.
    inv_bind H. rename x into d, Hx0 into Hd.
    destruct (NpFacts.argmin_nonempty ds) as [k Hk].
    { intros ->. discriminate Hd. }
    destruct (NpFacts.argmin_min ds k d Hk Hd) as [Hnth _].
    destruct (candidate_distances_ok a i _ ds Hds) as [Hlen _].
    destruct (nth_error (same_time_indices a t) k) as [j |] eqn:Hj.
    2:{ apply nth_error_None in Hj.
        assert (k < List.length ds)%nat
          by (apply nth_error_Some; congruence).
        lia. }
    exists ds, d, k, j. repeat (split; [assumption |]).
    destruct (F64.gtb d MAX_DISTANCE_DEG) eqn:Hgt.
    + left. inversion H. split; reflexivity.
    + right. rewrite Hk in H. simpl in H. unfold Np.item in H.
      rewrite Hj in H. simpl in H. inversion H. split; reflexivity.
Qed.

Lemma candidate_position (a : arrays) (i j : nat) (t : Z) :
  nth_error (cnn_times a) i = Some t ->
  candidate a i j ->
  exists q, nth_error (same_time_indices a t) q = Some j.
Proof.
  intros Ht [t' [Hi Hj]]. rewrite Ht in Hi. inversion Hi; subst t'.
  apply In_nth_error. apply same_time_indices_spec. exact Hj.
Qed.

(** A successful iteration chose a candidate whose distance is not above
    the threshold.  When that distance is a number, no candidate is nearer
    and every candidate of smaller index is farther; when it is NaN, the
    candidate is the first one whose distance is NaN. *)
Lemma find_match_Some (a : arrays) (i j : nat) :
  find_match a i = Ok (Some j) ->
  candidate a i j /\
  F64.gtb (distance_deg a i j) MAX_DISTANCE_DEG = false /\
  (is_nan (distance_deg a i j) = false ->
   (forall j', candidate a i j' ->
               (distance_deg a i j <=? distance_deg a i j') = true) /\
   (forall j', (j' < j)%nat -> candidate a i j' ->
               (distance_deg a i j <? distance_deg a i j') = true)) /\
  (is_nan (distance_deg a i j) = true ->
   forall j', (j' < j)%nat -> candidate a i j' ->
              is_nan (distance_deg a i j') = false).
Proof.
  intros H. destruct (find_match_inv a i _ H) as [t [Ht [[Hm _] | Hrest]]];
    [discriminate |].
  destruct Hrest as (ds & d & k & j0 & Hds & Hd & Hk & Hj & Hcase).
  destruct Hcase as [[Hm _] | [Hm Hle]]; [discriminate |].
  inversion Hm; subst j0. clear Hm.
  destruct (NpFacts.argmin_min ds k d Hk Hd) as [Hnth [Hnum Hnan]].
  destruct (candidate_distances_ok a i _ ds Hds) as [Hlen Hdist].
  pose proof (Hdist k j Hj) as Hdj. rewrite Hnth in Hdj.
  inversion Hdj as [Hd_eq]. rewrite <- Hd_eq.
  assert (Hbefore : forall j', (j' < j)%nat -> candidate a i j' ->
            exists q, (q < k)%nat /\
                      nth_error ds q = Some (distance_deg a i j')).
  { intros j' Hlt Hc. destruct (candidate_position a i j' t Ht Hc) as [q Hq].
    exists q. split; [| apply Hdist; exact Hq].
    eapply sorted_positions_inv; eauto. apply same_time_indices_sorted. }
  split.
  { exists t. split; [exact Ht |].
    apply same_time_indices_spec. eapply nth_error_In; eauto. }
  split; [exact Hle |]. split.
  - intros Hd_num. destruct (Hnum Hd_num) as [Hall Hfirst]. split.
    + intros j' Hc. destruct (candidate_position a i j' t Ht Hc) as [q Hq].
      eapply Hall. apply Hdist. exact Hq.
    + intros j' Hlt Hc. destruct (Hbefore j' Hlt Hc) as [q [Hqk Hq]].
      eapply Hfirst; eauto.
  - intros Hd_nan j' Hlt Hc. destruct (Hbefore j' Hlt Hc) as [q [Hqk Hq]].
    eapply Hnan; eauto.
Qed.

(** An iteration that [continue]s had no candidate, or only candidates
    farther than the threshold. *)
Lemma find_match_None (a : arrays) (i : nat) :
  find_match a i = Ok None ->
  forall j, candidate a i j ->
            F64.gtb (distance_deg a i j) MAX_DISTANCE_DEG = true.
Proof.
  intros H j Hc.
  destruct (find_match_inv a i _ H) as [t [Ht Hcases]].
  destruct (candidate_position a i j t Ht Hc) as [q Hq].
  destruct Hcases as [[_ Hnil] | Hrest].
  - rewrite Hnil in Hq. destruct q; discriminate.
  - destruct Hrest as (ds & d & k & j0 & Hds & Hd & Hk & Hj & Hcase).
    destruct Hcase as [[_ Hgt] | [Hm _]]; [| discriminate].
    unfold F64.gtb in *.
    destruct (FloatFacts.float_ltb_not_nan _ _ Hgt) as [_ Hd_num].
    destruct (NpFacts.argmin_min ds k d Hk Hd) as [_ [Hnum _]].
    destruct (Hnum Hd_num) as [Hall _].
    destruct (candidate_distances_ok a i _ ds Hds) as [_ Hdist].
    eapply FloatFacts.float_ltb_leb_trans; [exact Hgt |].
    eapply Hall. apply Hdist. exact Hq.
Qed.

(** On arrays whose lengths agree no iteration raises. *)
Lemma find_match_total (a : arrays) (i : nat) :
  lengths_agree a -> (i < List.length (cnn_times a))%nat ->
  exists m, find_match a i = Ok m.
Proof.
  intros Hagree Hi. unfold find_match.
  destruct (NpFacts.item_in_range (cnn_times a) i Hi) as [t Ht].
  rewrite Ht. simpl.
  destruct (Nat.eqb _ 0) eqn:Hempty; [eauto |].
  apply Nat.eqb_neq in Hempty.
  destruct (candidate_distances_total a i (same_time_indices a t) Hagree Hi)
    as [ds Hds].
  { intros j Hj. apply same_time_indices_spec in Hj.
    apply nth_error_Some. congruence. }
  rewrite Hds. simpl.
  destruct (candidate_distances_ok a i _ ds Hds) as [Hlen _].
  assert (Hne : ds <> []) by (intros ->; simpl in Hlen; lia).
  destruct (NpFacts.min_nonempty ds Hne) as [d Hd].
  destruct (NpFacts.argmin_nonempty ds Hne) as [k Hk].
  rewrite Hd. simpl. destruct (F64.gtb d MAX_DISTANCE_DEG); [eauto |].
  rewrite Hk. simpl.
  destruct (NpFacts.argmin_min ds k d Hk Hd) as [Hnth _].
  destruct (NpFacts.item_in_range (same_time_indices a t) k) as [j Hj].
  { rewrite <- Hlen. apply nth_error_Some. congruence. }
  rewrite Hj. simpl. eauto.
Qed.

(** The loop: positions outside the visited range keep their value, a
    visited position holds the match found for it, if any. *)
Lemma for_each_ok (a : arrays) (m : nat) :
  forall (k : nat) (arr arr' : list Z),
    for_each a (seq k m) arr = Ok arr' ->
    List.length arr' = List.length arr /\
    (forall p, (p < k \/ k + m <= p)%nat ->
               nth_error arr' p = nth_error arr p) /\
    (forall p, (k <= p < k + m)%nat ->
       exists r, find_match a p = Ok r /\
         match r with
         | Some j => nth_error arr' p = Some (Z.of_nat j)
         | None => nth_error arr' p = nth_error arr p
         end).
Proof.
  induction m as [| m IH]; intros k arr arr' H; simpl in H.
  - inversion H; subst arr'. split; [reflexivity |].
    split; [reflexivity |]. intros p Hp. lia.
  - inv_bind H. rename x into next, Hx into Hbody.
    destruct (IH _ _ _ H) as [Hlen [Hout Hin]]. clear IH H.
    unfold loop_body in Hbody. inv_bind Hbody. rename x into r, Hx into Hr.
    assert (Hnext : List.length next = List.length arr /\
                    (forall p, p <> k -> nth_error next p = nth_error arr p) /\
                    match r with
                    | Some j => nth_error next k = Some (Z.of_nat j)
                    | None => nth_error next k = nth_error arr k
                    end).
    { destruct r as [j |].
      - destruct (NpFacts.set_item_ok _ _ _ _ Hbody) as (_ & L & E & O).
        auto.
      - inversion Hbody. auto. }
    destruct Hnext as [Lnext [Onext Knext]].
    split; [congruence |]. split.
    + intros p Hp. rewrite Hout by lia. apply Onext. lia.
    + intros p Hp. destruct (Nat.eq_dec p k) as [-> | Hne].
      * exists r. split; [exact Hr |]. rewrite Hout by lia.
        destruct r; exact Knext.
      * destruct (Hin p) as [rp [Hrp Hcase]]; [lia |].
        exists rp. split; [exact Hrp |].
        destruct rp; [exact Hcase |]. rewrite Hcase. apply Onext. exact Hne.
Qed.

Lemma for_each_total (a : arrays) (m : nat) :
  lengths_agree a ->
  forall (k : nat) (arr : list Z),
    (k + m <= List.length (cnn_times a))%nat ->
    List.length arr = List.length (cnn_times a) ->
    exists arr', for_each a (seq k m) arr = Ok arr'.
Proof.
  intros Hagree. induction m as [| m IH]; intros k arr Hk Hlen; simpl.
  - eauto.
  - destruct (find_match_total a k Hagree) as [r Hr]; [lia |].
    unfold loop_body. rewrite Hr. simpl. destruct r as [j |].
    + destruct (NpFacts.set_item_in_range arr k (Z.of_nat j)) as [next Hn];
        [lia |].
      rewrite Hn. simpl. apply IH; [lia |].
      destruct (NpFacts.set_item_ok _ _ _ _ Hn) as (_ & L & _). congruence.
    + simpl. apply IH; [lia | exact Hlen].
Qed.

Lemma nth_error_full {A : Type} (n p : nat) (v : A) :
  (p < n)%nat -> nth_error (Np.full n v) p = Some v.
Proof.
  intros H. unfold Np.full. rewrite nth_error_repeat; auto.
Qed.

(** What a successful run guarantees about its result. *)
Lemma match_examples_io_inv
    (conv_pos conv_neg : list float -> result (list float))
    (out : list string) (cnn : cnn_prediction_dict)
    (ships : ships_prediction_dict)
    (out' : list string) (ci : list nat) (si : list Z) :
  _match_examples_io conv_pos conv_neg out cnn ships = Ok (out', (ci, si)) ->
  exists a,
    bind_arrays conv_pos conv_neg cnn ships = Ok a /\
    out' = (out ++ [matched_message (List.length ci)
                      (List.length (cnn_times a))])%list /\
    StronglySorted lt ci /\
    List.length si = List.length ci /\
    (List.length ci <= List.length (cnn_times a))%nat /\
    (forall i, In i ci <-> exists j, find_match a i = Ok (Some j)) /\
    (forall k i, nth_error ci k = Some i ->
       exists j, find_match a i = Ok (Some j) /\
                 nth_error si k = Some (Z.of_nat j)) /\
    (forall i, (i < List.length (cnn_times a))%nat ->
       exists r, find_match a i = Ok r).
Proof.
  unfold _match_examples_io. intros H.
  inv_bind H. rename x into a, Hx into Ha. exists a. split; [exact Ha |].
  inv_bind H. rename x into arr, Hx into Hloop.
  inv_bind H. rename x into si', Hx into Htake.
  inversion H; subst out' ci si'. clear H.
  set (n := List.length (cnn_times a)) in *.
  set (ci := Np.where_ (map (fun v : Z => (v >=? 0)%Z) arr)) in *.
  destruct (for_each_ok a n 0 _ _ Hloop) as [Hlen [_ Hin]].
  unfold Np.full in Hlen. rewrite repeat_length in Hlen.
  destruct (NpFacts.take_ok _ _ _ Htake) as [Lsi Nsi].
  assert (Hmem : forall i, In i ci <->
                   exists j, find_match a i = Ok (Some j)).
  { intros i. unfold ci. rewrite NpFacts.where_spec, nth_error_map. split.
    - intros Hi. destruct (nth_error arr i) as [v |] eqn:Hv; [| discriminate].
      assert (Hi_n : (i < n)%nat)
        by (rewrite <- Hlen; apply nth_error_Some; congruence).
      destruct (Hin i) as [r [Hr Hcase]]; [lia |].
      destruct r as [j |]; [eauto |].
      rewrite nth_error_full in Hcase by exact Hi_n.
      rewrite Hv in Hcase. inversion Hcase; subst v. discriminate Hi.
    - intros [j Hj].
      assert (Hi_n : (i < n)%nat).
      { destruct (find_match_inv a i _ Hj) as [t [Ht _]].
        apply nth_error_Some. unfold n. congruence. }
      destruct (Hin i) as [r [Hr Hcase]]; [lia |].
      rewrite Hj in Hr. inversion Hr; subst r. rewrite Hcase. simpl.
      f_equal. apply Z.geb_le. lia. }
  split; [reflexivity |].
  split; [apply NpFacts.where_from_sorted |].
  split; [exact Lsi |].
  split.
  { unfold ci, Np.where_.
    pose proof (NpFacts.where_from_length
                  (map (fun v : Z => (v >=? 0)%Z) arr) 0) as Hle.
    rewrite length_map in Hle. lia. }
  split; [exact Hmem |].
  split.
  - intros k i Hk.
    destruct (proj1 (Hmem i) (nth_error_In _ _ Hk)) as [j Hj].
    exists j. split; [exact Hj |].
    destruct (Nsi k i Hk) as [Hsi Hrange]. rewrite Hsi.
    destruct (Hin i) as [r [Hr Hcase]]; [lia |].
    rewrite Hj in Hr. inversion Hr; subst r. exact Hcase.
  - intros i Hi. destruct (Hin i) as [r [Hr _]]; [fold n; lia | eauto].
Qed.

(** On well-formed input the function returns. *)
Lemma match_examples_io_total
    (conv_pos conv_neg : list float -> result (list float))
    (out : list string) (cnn : cnn_prediction_dict)
    (ships : ships_prediction_dict) (a : arrays) :
  bind_arrays conv_pos conv_neg cnn ships = Ok a ->
  lengths_agree a ->
  exists out' ci si,
    _match_examples_io conv_pos conv_neg out cnn ships = Ok (out', (ci, si)).
Proof.
  intros Ha Hagree. unfold _match_examples_io. rewrite Ha. simpl.
  destruct (for_each_total a (List.length (cnn_times a)) Hagree 0
              (Np.full (List.length (cnn_times a)) (-1)%Z)) as [arr Harr].
  { lia. }
  { unfold Np.full. apply repeat_length. }
  rewrite Harr. simpl.
  destruct (NpFacts.take_in_range arr
              (Np.where_ (map (fun v : Z => (v >=? 0)%Z) arr))) as [si Hsi].
  { intros i Hi. apply NpFacts.where_spec in Hi. rewrite nth_error_map in Hi.
    apply nth_error_Some. destruct (nth_error arr i); [congruence |].
    discriminate. }
  rewrite Hsi. simpl. eauto.
Qed.

Lemma match_examples_of_io
    (conv_pos conv_neg : list float -> result (list float))
    (cnn : cnn_prediction_dict) (ships : ships_prediction_dict)
    (r : list nat * list Z) :
  _match_examples conv_pos conv_neg cnn ships = Ok r <->
  exists out', _match_examples_io conv_pos conv_neg [] cnn ships
               = Ok (out', r).
Proof.
  unfold _match_examples, returned. split.
  - intros H. inv_bind H. destruct x as [out' r']. inversion H; subst r.
    exists out'. exact Hx.
  - intros [out' H]. rewrite H. reflexivity.
Qed.

End MatchFacts.

(** ** The models on concrete inputs

    Every operation of the models computes, floats included, so a run on
    concrete inputs is evaluated by the kernel. *)

Module MatchRuns.

Import Match Examples.
Local Open Scope float_scope.

Lemma bind_arrays_ex :
  bind_arrays LngConversion.convert_lng_positive_in_west
    LngConversion.convert_lng_negative_in_west cnn_ex ships_ex
  = Ok arrays_ex.
Proof. reflexivity. Qed.

Lemma bind_arrays_boundary :
  bind_arrays LngConversion.convert_lng_positive_in_west
    LngConversion.convert_lng_negative_in_west cnn_boundary ships_boundary
  = Ok arrays_boundary.
Proof. reflexivity. Qed.

Lemma bind_arrays_nan :
  bind_arrays LngConversion.convert_lng_positive_in_west
    LngConversion.convert_lng_negative_in_west cnn_boundary ships_nan
  = Ok arrays_nan.
Proof. reflexivity. Qed.

Lemma bind_arrays_near_tie :
  bind_arrays LngConversion.convert_lng_positive_in_west
    LngConversion.convert_lng_negative_in_west cnn_boundary ships_near_tie
  = Ok arrays_near_tie.
Proof. reflexivity. Qed.

(** Example 0 goes to SHIPS example 1 across the longitude wrap, example 1
    has its only candidate two degrees away, example 2 has none. *)
Lemma run_ex :
  _match_examples LngConversion.convert_lng_positive_in_west
    LngConversion.convert_lng_negative_in_west cnn_ex ships_ex
  = Ok ([0%nat], [1%Z]).
Proof. reflexivity. Qed.

Lemma run_io_ex (out : list string) :
  _match_examples_io LngConversion.convert_lng_positive_in_west
    LngConversion.convert_lng_negative_in_west out cnn_ex ships_ex
  = Ok ((out ++ ["Matched 1 of 3 CNN examples to a SHIPS example!"%string])
          %list,
        ([0%nat], [1%Z])).
Proof. reflexivity. Qed.

Lemma run_boundary :
  _match_examples LngConversion.convert_lng_positive_in_west
    LngConversion.convert_lng_negative_in_west cnn_boundary ships_boundary
  = Ok ([0%nat], [0%Z]).
Proof. reflexivity. Qed.

Lemma run_nan :
  _match_examples LngConversion.convert_lng_positive_in_west
    LngConversion.convert_lng_negative_in_west cnn_boundary ships_nan
  = Ok ([0%nat], [1%Z]).
Proof. reflexivity. Qed.

(** The sum [1 + 2 ** -60] rounds to 1: both candidates are at computed
    distance 1 and the first one is taken. *)
Lemma run_near_tie :
  _match_examples LngConversion.convert_lng_positive_in_west
    LngConversion.convert_lng_negative_in_west cnn_boundary ships_near_tie
  = Ok ([0%nat], [0%Z]) /\
  distance_deg arrays_near_tie 0 0 = 1 /\
  distance_deg arrays_near_tie 0 1 = 1.
Proof. repeat split; reflexivity. Qed.

Lemma distance_boundary_0 : distance_deg arrays_boundary 0 0 = 1.
Proof. reflexivity. Qed.

Lemma distance_boundary_1 : distance_deg arrays_boundary 0 1 = 1.
Proof. reflexivity. Qed.

End MatchRuns.

(** ** The models on small inputs *)

Module Sanity.

Import Examples.
Local Open Scope string_scope.

Example where_picks_true_positions :
  Np.where_ [true; false; true; true] = [0; 2; 3]%nat.
Proof. reflexivity. Qed.

Example take_gathers :
  Np.take [10; 20; 30]%Z [2; 0]%nat = Ok [30; 10]%Z.
Proof. reflexivity. Qed.

Example take_out_of_range :
  Np.take [10; 20; 30]%Z [1; 3]%nat = Raise IndexError.
Proof. reflexivity. Qed.

Example set_item_stores :
  Np.set_item [(-1); (-1); (-1)]%Z 1 7%Z = Ok [(-1); 7; (-1)]%Z.
Proof. reflexivity. Qed.

Example argmin_takes_first_minimum :
  Np.argmin [3; 1; 2; 1]%float = Ok 1%nat /\
  Np.min [3; 1; 2; 1]%float = Ok 1%float.
Proof. split; reflexivity. Qed.

(** A NaN is the minimum, and [numpy.argmin] stops at the first one. *)
Example argmin_takes_first_nan :
  Np.argmin [3; nan; 1; nan]%float = Ok 1%nat /\
  Np.min [3; nan; 1; nan]%float = Ok nan.
Proof. split; reflexivity. Qed.

Example minimum_propagates_nan :
  F64.minimum nan 1 = nan /\ F64.minimum 1 nan = nan.
Proof. split; reflexivity. Qed.

(** Python's [max] of a list keeps a NaN only in first place. *)
Example max_of_pair_and_nan :
  F64.max_of_pair nan 1 = nan /\ F64.max_of_pair 1 nan = 1%float.
Proof. split; reflexivity. Qed.

Example diff_of_three : Np.diff [1; 4; 9]%float = [3; 5]%float.
Proof. reflexivity. Qed.

(** [1e-6] and [3.6 / 1.852] as Python reads them. *)
Example tolerance_value :
  SatellitePlotting.TOLERANCE = (1 / 1000000)%float.
Proof. reflexivity. Qed.

Example int64_sum_wraps :
  Py.int64_array_add [Py.INT64_MAX; 0]%Z 3600
  = Ok [(Py.INT64_MIN + 3599); 3600]%Z /\
  Py.int64_array_add [0]%Z (2 ^ 63) = Raise OverflowError.
Proof. split; reflexivity. Qed.

Example split_on_underscore :
  SatelliteIo.split "_"%char "cira_satellite_2005AL01"
  = ["cira"; "satellite"; "2005AL01"].
Proof. reflexivity. Qed.

Example split_without_separator :
  SatelliteIo.split "."%char "abc" = ["abc"].
Proof. reflexivity. Qed.

Example drop_last_gz :
  SatelliteIo.drop_last 3 "a/cira_satellite_2005AL01.nc.gz"
  = "a/cira_satellite_2005AL01.nc".
Proof. reflexivity. Qed.

Example cyclone_id_of_zipped_file :
  SatelliteIo.file_name_to_cyclone_id parse_cyclone_id_ex
    "/some.dir/data/cira_satellite_2005AL01.nc.gz"
  = Ok "2005AL01".
Proof. reflexivity. Qed.

Example sorted_set_sorts_and_dedupes :
  SatelliteIo.sorted_set ["2005AL02"; "2004EP10"; "2005AL02"; "2005AL01"]
  = ["2004EP10"; "2005AL01"; "2005AL02"].
Proof. reflexivity. Qed.

(** The zipped file is preferred but only the unzipped one exists. *)
Example find_file_other_format :
  SatelliteIo.find_file isfile_ex parse_cyclone_id_ex "data" "2005AL01"
    true true true
  = Ok "data/cira_satellite_2005AL01.nc".
Proof. reflexivity. Qed.

Example find_file_other_format_forbidden :
  SatelliteIo.find_file isfile_ex parse_cyclone_id_ex "data" "2005AL01"
    true false false
  = Ok "data/cira_satellite_2005AL01.nc.gz".
Proof. reflexivity. Qed.

Example matched_message_text :
  Match.matched_message 1 3
  = "Matched 1 of 3 CNN examples to a SHIPS example!".
Proof. reflexivity. Qed.

End Sanity.

(** ** Theorems about [_match_examples] *)

Module MatchClaims.

Import Match Examples MatchFacts.
Local Open Scope float_scope.

Section Claims.

Variable conv_pos conv_neg : list float -> result (list float).

Lemma bind_arrays_times (cnn : cnn_prediction_dict)
    (ships : ships_prediction_dict) (a : arrays) :
  bind_arrays conv_pos conv_neg cnn ships = Ok a ->
  cnn_times a = cnn_init_times_unix_sec cnn /\
  ships_times a = ships_init_times_unix_sec ships.
Proof.
  unfold bind_arrays. intros H.
  inv_bind H. inv_bind H. inv_bind H. inv_bind H.
  inversion H. simpl. split; reflexivity.
Qed.

(** C1: a CNN example is paired with a SHIPS example only when their
    initialisation times are the same integer, and a CNN example whose time
    no SHIPS record carries is left out of the result. *)
Theorem match_only_on_equal_init_time (cnn : cnn_prediction_dict)
    (ships : ships_prediction_dict) (ci : list nat) (si : list Z) :
  _match_examples conv_pos conv_neg cnn ships = Ok (ci, si) ->
  (forall k i s, paired_at ci si k i s ->
     exists j t,
       s = Z.of_nat j /\
       nth_error (cnn_init_times_unix_sec cnn) i = Some t /\
       nth_error (ships_init_times_unix_sec ships) j = Some t) /\
  (forall i t,
     nth_error (cnn_init_times_unix_sec cnn) i = Some t ->
     ~ In t (ships_init_times_unix_sec ships) ->
     ~ In i ci).
Proof.
  intros H. apply match_examples_of_io in H. destruct H as [out' H].
  destruct (match_examples_io_inv _ _ _ _ _ _ _ _ H)
    as (a & Ha & _ & _ & _ & _ & Hmem & Hpair & _).
  destruct (bind_arrays_times _ _ _ Ha) as [Ec Es].
  split.
  - intros k i s [Hi Hs].
    destruct (Hpair k i Hi) as [j [Hj Hsj]].
    destruct (find_match_Some a i j Hj) as [[t [Ht1 Ht2]] _].
    exists j, t. rewrite <- Ec, <- Es. split; [congruence | auto].
  - intros i t Ht Hnot Hin.
    destruct (proj1 (Hmem i) Hin) as [j Hj].
    destruct (find_match_Some a i j Hj) as [[t' [Ht1 Ht2]] _].
    rewrite Ec in Ht1. rewrite Es in Ht2. rewrite Ht in Ht1.
    inversion Ht1; subst t'. apply Hnot. eapply nth_error_In; eauto.
Qed.

(** C2, as the code has it: the SHIPS example chosen for a CNN example is a
    same-time candidate, and its distance is min(d_pos, d_neg) as float64
    arithmetic computes it.  When that computed distance is a number, no
    candidate has a smaller one (so none has a NaN one) and every candidate
    of smaller index has a greater one: the chosen candidate is the first
    of the nearest.  When it is NaN, the chosen candidate is the first
    candidate whose computed distance is NaN, whatever the others are. *)
Theorem match_is_nearest_candidate (cnn : cnn_prediction_dict)
    (ships : ships_prediction_dict) (ci : list nat) (si : list Z) :
  _match_examples conv_pos conv_neg cnn ships = Ok (ci, si) ->
  exists a,
    bind_arrays conv_pos conv_neg cnn ships = Ok a /\
    forall k i s, paired_at ci si k i s ->
      exists j,
        s = Z.of_nat j /\ candidate a i j /\
        distance_deg a i j = F64.minimum (d_pos a i j) (d_neg a i j) /\
        (is_nan (distance_deg a i j) = false ->
         (forall j', candidate a i j' ->
                     (distance_deg a i j <=? distance_deg a i j') = true) /\
         (forall j', candidate a i j' ->
                     is_nan (distance_deg a i j') = false) /\
         (forall j', (j' < j)%nat -> candidate a i j' ->
                     (distance_deg a i j <? distance_deg a i j') = true)) /\
        (is_nan (distance_deg a i j) = true ->
         forall j', (j' < j)%nat -> candidate a i j' ->
                    is_nan (distance_deg a i j') = false).
Proof.
  intros H. apply match_examples_of_io in H. destruct H as [out' H].
  destruct (match_examples_io_inv _ _ _ _ _ _ _ _ H)
    as (a & Ha & _ & _ & _ & _ & _ & Hpair & _).
  exists a. split; [exact Ha |].
  intros k i s [Hi Hs]. destruct (Hpair k i Hi) as [j [Hj Hsj]].
  destruct (find_match_Some a i j Hj) as (Hc & _ & Hnum & Hnan).
  exists j. split; [congruence |]. split; [exact Hc |].
  split; [reflexivity |]. split; [| exact Hnan].
  intros Hd. destruct (Hnum Hd) as [Hmin Hfirst].
  split; [exact Hmin |]. split; [| exact Hfirst].
  intros j' Hc'.
  destruct (FloatFacts.float_leb_not_nan _ _ (Hmin j' Hc')) as [_ Hn].
  exact Hn.
Qed.

(** C3, as the code has it: a CNN example is matched exactly when the
    computed distance of one of its same-time candidates is not greater
    than one degree, that is at most one degree or NaN.  The pair it gets
    is not farther than one degree, an example all of whose candidates are
    farther than one degree is left out, and a nearest candidate at exactly
    one degree does produce a match. *)
Theorem match_iff_candidate_within_max_distance (cnn : cnn_prediction_dict)
    (ships : ships_prediction_dict) (ci : list nat) (si : list Z) :
  _match_examples conv_pos conv_neg cnn ships = Ok (ci, si) ->
  exists a,
    bind_arrays conv_pos conv_neg cnn ships = Ok a /\
    (forall k i s, paired_at ci si k i s ->
       exists j, s = Z.of_nat j /\ candidate a i j /\
                 F64.gtb (distance_deg a i j) 1 = false) /\
    (forall i,
       In i ci <->
       exists j, candidate a i j /\ F64.gtb (distance_deg a i j) 1 = false) /\
    (forall i, (forall j, candidate a i j ->
                          F64.gtb (distance_deg a i j) 1 = true) ->
               ~ In i ci) /\
    (forall i j, candidate a i j -> (distance_deg a i j <=? 1) = true ->
                 In i ci) /\
    (forall i j, candidate a i j -> distance_deg a i j = 1 -> In i ci) /\
    (forall i j, candidate a i j -> is_nan (distance_deg a i j) = true ->
                 In i ci).
Proof.
  intros H. apply match_examples_of_io in H. destruct H as [out' H].
  destruct (match_examples_io_inv _ _ _ _ _ _ _ _ H)
    as (a & Ha & _ & _ & _ & _ & Hmem & Hpair & Htot).
  exists a. split; [exact Ha |].
  assert (Hchosen : forall i, In i ci ->
            exists j, candidate a i j /\
                      F64.gtb (distance_deg a i j) 1 = false).
  { intros i Hin. destruct (proj1 (Hmem i) Hin) as [j Hj].
    destruct (find_match_Some a i j Hj) as (Hc & Hle & _).
    exists j. split; [exact Hc | exact Hle]. }
  assert (Hwithin : forall i j, candidate a i j ->
            F64.gtb (distance_deg a i j) 1 = false -> In i ci).
  { intros i j Hc Hd. apply Hmem.
    destruct (Htot i) as [r Hr].
    { destruct Hc as [t [Ht _]]. apply nth_error_Some. congruence. }
    destruct r as [j0 |]; [eauto |].
    pose proof (find_match_None a i Hr j Hc) as Hgt.
    unfold MAX_DISTANCE_DEG in Hgt. congruence. }
  split; [| split; [| split; [| split; [| split]]]].
  - intros k i s [Hi Hs]. destruct (Hpair k i Hi) as [j [Hj Hsj]].
    destruct (find_match_Some a i j Hj) as (Hc & Hle & _).
    exists j. split; [congruence |]. split; [exact Hc | exact Hle].
  - intros i. split; [apply Hchosen |].
    intros [j [Hc Hd]]. exact (Hwithin i j Hc Hd).
  - intros i Hfar Hin. destruct (Hchosen i Hin) as [j [Hc Hd]].
    rewrite (Hfar j Hc) in Hd. discriminate.
  - intros i j Hc Hd. apply (Hwithin i j Hc).
    apply FloatFacts.float_leb_not_ltb. exact Hd.
  - intros i j Hc Hd. apply (Hwithin i j Hc). rewrite Hd. reflexivity.
  - intros i j Hc Hd. apply (Hwithin i j Hc). unfold F64.gtb.
    destruct (1 <? distance_deg a i j) eqn:E; [| reflexivity].
    destruct (FloatFacts.float_ltb_not_nan _ _ E) as [_ Hn]. congruence.
Qed.

Lemma sorted_NoDup (l : list nat) : StronglySorted lt l -> NoDup l.
Proof.
  induction 1 as [| x l Hs IH Hall]; constructor; [| exact IH].
  intros Hin. rewrite Forall_forall in Hall. specialize (Hall x Hin). lia.
Qed.

(** C8: on columns whose lengths agree the function returns, and what it
    returns is two arrays of one length, at most the number of CNN examples;
    [cnn_indices] strictly increasing, hence without duplicates;
    [ships_indices] made of valid SHIPS positions; and position by position
    the pair the loop found. *)
Theorem match_examples_output_invariants (cnn : cnn_prediction_dict)
    (ships : ships_prediction_dict) (a : arrays) :
  bind_arrays conv_pos conv_neg cnn ships = Ok a ->
  (lengths_agree a ->
   exists ci si, _match_examples conv_pos conv_neg cnn ships = Ok (ci, si)) /\
  (forall ci si,
     _match_examples conv_pos conv_neg cnn ships = Ok (ci, si) ->
     List.length ci = List.length si /\
     (List.length ci <= List.length (cnn_init_times_unix_sec cnn))%nat /\
     StronglySorted lt ci /\
     NoDup ci /\
     Forall (fun i => (i < List.length (cnn_init_times_unix_sec cnn))%nat)
       ci /\
     Forall (fun s => (0 <= s <
                       Z.of_nat (List.length
                                   (ships_init_times_unix_sec ships)))%Z)
       si /\
     (forall k, (k < List.length ci)%nat ->
        exists i j, paired_at ci si k i (Z.of_nat j) /\
                    find_match a i = Ok (Some j))).
Proof.
  intros Ha. split.
  - intros Hagree.
    destruct (match_examples_io_total conv_pos conv_neg [] cnn ships a
                Ha Hagree) as (out' & ci & si & H).
    exists ci, si. apply match_examples_of_io. eauto.
  - intros ci si H. apply match_examples_of_io in H. destruct H as [out' H].
    destruct (match_examples_io_inv _ _ _ _ _ _ _ _ H)
      as (a' & Ha' & _ & Hsorted & Hlen & Hle & Hmem & Hpair & _).
    rewrite Ha in Ha'. inversion Ha'; subst a'. clear Ha'.
    destruct (bind_arrays_times _ _ _ Ha) as [Ec Es].
    rewrite <- Ec, <- Es.
    split; [congruence |]. split; [exact Hle |].
    split; [exact Hsorted |]. split; [apply sorted_NoDup; exact Hsorted |].
    split; [| split].
    + apply Forall_forall. intros i Hi.
      destruct (proj1 (Hmem i) Hi) as [j Hj].
      destruct (find_match_Some a i j Hj) as [[t [Ht _]] _].
      apply nth_error_Some. congruence.
    + apply Forall_forall. intros s Hs.
      destruct (In_nth_error _ _ Hs) as [k Hk].
      destruct (nth_error ci k) as [i |] eqn:Hi.
      2:{ apply nth_error_None in Hi.
          assert (k < List.length si)%nat
            by (apply nth_error_Some; congruence).
          lia. }
      destruct (Hpair k i Hi) as [j [Hj Hsj]].
      destruct (find_match_Some a i j Hj) as [[t [_ Ht]] _].
      assert (j < List.length (ships_times a))%nat
        by (apply nth_error_Some; congruence).
      rewrite Hsj in Hk. inversion Hk. lia.
    + intros k Hk.
      destruct (nth_error ci k) as [i |] eqn:Hi;
        [| apply nth_error_None in Hi; lia].
      destruct (Hpair k i Hi) as [j [Hj Hsj]].
      exists i, j. split; [split; assumption | exact Hj].
Qed.

End Claims.

Import LngConversion.

Lemma match_only_on_equal_init_time_witness :
  _match_examples convert_lng_positive_in_west
    convert_lng_negative_in_west cnn_ex ships_ex = Ok ([0%nat], [1%Z]) /\
  forall k i s, paired_at [0%nat] [1%Z] k i s ->
    exists j t,
      s = Z.of_nat j /\
      nth_error [10; 20; 30]%Z i = Some t /\
      nth_error [10; 10; 20; 40]%Z j = Some t.
Proof.
  split; [exact MatchRuns.run_ex |].
  exact (proj1 (match_only_on_equal_init_time convert_lng_positive_in_west
    convert_lng_negative_in_west
                  cnn_ex ships_ex [0%nat] [1%Z] MatchRuns.run_ex)).
Defined.

(** C2 as stated fails: the second candidate has a NaN latitude, so its
    computed distance is NaN; [numpy.min] is then NaN, which is not above
    the threshold, and [numpy.argmin] points at the NaN.  The CNN example
    is paired with that candidate although the first candidate lies at
    distance zero. *)
Lemma match_prefers_nan_candidate :
  _match_examples convert_lng_positive_in_west
    convert_lng_negative_in_west cnn_boundary ships_nan
  = Ok ([0%nat], [1%Z]) /\
  bind_arrays convert_lng_positive_in_west
    convert_lng_negative_in_west cnn_boundary ships_nan
  = Ok arrays_nan /\
  candidate arrays_nan 0 0 /\
  candidate arrays_nan 0 1 /\
  distance_deg arrays_nan 0 0 = 0 /\
  is_nan (distance_deg arrays_nan 0 1) = true /\
  (distance_deg arrays_nan 0 1 <=? distance_deg arrays_nan 0 0) = false.
Proof.
  split; [exact MatchRuns.run_nan |].
  split; [exact MatchRuns.bind_arrays_nan |].
  split; [exists 5%Z; split; reflexivity |].
  split; [exists 5%Z; split; reflexivity |].
  repeat split; reflexivity.
Qed.

Lemma match_is_nearest_candidate_witness :
  _match_examples convert_lng_positive_in_west
    convert_lng_negative_in_west cnn_ex ships_ex = Ok ([0%nat], [1%Z]) /\
  exists a,
    bind_arrays convert_lng_positive_in_west
    convert_lng_negative_in_west cnn_ex ships_ex = Ok a /\
    forall k i s, paired_at [0%nat] [1%Z] k i s ->
      exists j,
        s = Z.of_nat j /\ candidate a i j /\
        distance_deg a i j = F64.minimum (d_pos a i j) (d_neg a i j) /\
        (is_nan (distance_deg a i j) = false ->
         (forall j', candidate a i j' ->
                     (distance_deg a i j <=? distance_deg a i j') = true) /\
         (forall j', candidate a i j' ->
                     is_nan (distance_deg a i j') = false) /\
         (forall j', (j' < j)%nat -> candidate a i j' ->
                     (distance_deg a i j <? distance_deg a i j') = true)) /\
        (is_nan (distance_deg a i j) = true ->
         forall j', (j' < j)%nat -> candidate a i j' ->
                    is_nan (distance_deg a i j') = false).
Proof.
  split; [exact MatchRuns.run_ex |].
  exact (match_is_nearest_candidate convert_lng_positive_in_west
    convert_lng_negative_in_west
           cnn_ex ships_ex [0%nat] [1%Z] MatchRuns.run_ex).
Defined.

(** C3 as stated fails: here every candidate of CNN example 0 lies exactly
    one degree away, none nearer, and the example is matched all the same. *)
Lemma match_at_exactly_max_distance :
  bind_arrays convert_lng_positive_in_west
    convert_lng_negative_in_west cnn_boundary ships_boundary
  = Ok arrays_boundary /\
  candidate arrays_boundary 0 0 /\
  (forall j, candidate arrays_boundary 0 j ->
             distance_deg arrays_boundary 0 j = 1 /\
             (distance_deg arrays_boundary 0 j <? 1) = false) /\
  _match_examples convert_lng_positive_in_west
    convert_lng_negative_in_west cnn_boundary ships_boundary
  = Ok ([0%nat], [0%Z]).
Proof.
  split; [exact MatchRuns.bind_arrays_boundary |].
  split; [exists 5%Z; split; reflexivity |].
  split; [| exact MatchRuns.run_boundary].
  intros j [t [_ Hj]].
  destruct j as [| [| j]].
  - rewrite MatchRuns.distance_boundary_0. split; reflexivity.
  - rewrite MatchRuns.distance_boundary_1. split; reflexivity.
  - simpl in Hj. destruct j; discriminate.
Qed.

Lemma match_iff_candidate_within_max_distance_witness :
  _match_examples convert_lng_positive_in_west
    convert_lng_negative_in_west cnn_boundary ships_boundary
  = Ok ([0%nat], [0%Z]) /\
  exists a,
    bind_arrays convert_lng_positive_in_west
    convert_lng_negative_in_west cnn_boundary ships_boundary = Ok a /\
    (forall k i s, paired_at [0%nat] [0%Z] k i s ->
       exists j, s = Z.of_nat j /\ candidate a i j /\
                 F64.gtb (distance_deg a i j) 1 = false) /\
    (forall i,
       In i [0%nat] <->
       exists j, candidate a i j /\ F64.gtb (distance_deg a i j) 1 = false) /\
    (forall i, (forall j, candidate a i j ->
                          F64.gtb (distance_deg a i j) 1 = true) ->
               ~ In i [0%nat]) /\
    (forall i j, candidate a i j -> (distance_deg a i j <=? 1) = true ->
                 In i [0%nat]) /\
    (forall i j, candidate a i j -> distance_deg a i j = 1 -> In i [0%nat]) /\
    (forall i j, candidate a i j -> is_nan (distance_deg a i j) = true ->
                 In i [0%nat]).
Proof.
  split; [exact MatchRuns.run_boundary |].
  exact (match_iff_candidate_within_max_distance convert_lng_positive_in_west
    convert_lng_negative_in_west
           cnn_boundary ships_boundary [0%nat] [0%Z] MatchRuns.run_boundary).
Defined.

Lemma lengths_agree_ex : lengths_agree arrays_ex.
Proof. repeat split. Qed.

Lemma match_examples_output_invariants_witness :
  bind_arrays convert_lng_positive_in_west
    convert_lng_negative_in_west cnn_ex ships_ex = Ok arrays_ex /\
  lengths_agree arrays_ex /\
  (exists ci si,
     _match_examples convert_lng_positive_in_west
    convert_lng_negative_in_west cnn_ex ships_ex = Ok (ci, si)) /\
  (forall ci si,
     _match_examples convert_lng_positive_in_west
    convert_lng_negative_in_west cnn_ex ships_ex = Ok (ci, si) ->
     List.length ci = List.length si /\
     (List.length ci <= 3)%nat /\
     StronglySorted lt ci /\
     NoDup ci /\
     Forall (fun i => (i < 3)%nat) ci /\
     Forall (fun s => (0 <= s < 4)%Z) si /\
     (forall k, (k < List.length ci)%nat ->
        exists i j, paired_at ci si k i (Z.of_nat j) /\
                    find_match arrays_ex i = Ok (Some j))).
Proof.
  split; [exact MatchRuns.bind_arrays_ex |].
  split; [exact lengths_agree_ex |].
  pose proof (match_examples_output_invariants convert_lng_positive_in_west
    convert_lng_negative_in_west
                cnn_ex ships_ex arrays_ex MatchRuns.bind_arrays_ex) as H.
  split; [exact (proj1 H lengths_agree_ex) | exact (proj2 H)].
Defined.

End MatchClaims.

(** ** Strings *)

Module StringFacts.

Local Open Scope string_scope.

Lemma length_append (s t : string) :
  String.length (s ++ t) = String.length s + String.length t.
Proof. induction s as [| c s IH]; simpl; [reflexivity | rewrite IH; reflexivity]. Qed.

Lemma append_assoc (s t u : string) : (s ++ t) ++ u = s ++ (t ++ u).
Proof. induction s as [| c s IH]; simpl; [reflexivity | rewrite IH; reflexivity]. Qed.

Lemma append_empty_r (s : string) : s ++ "" = s.
Proof. induction s as [| c s IH]; simpl; [reflexivity | rewrite IH; reflexivity]. Qed.

Lemma substring_prefix (s t : string) :
  substring 0 (String.length s) (s ++ t) = s.
Proof.
  induction s as [| c s IH]; simpl.
  - destruct t; reflexivity.
  - rewrite IH. reflexivity.
Qed.

(** [(s + t)[:-len(t)] == s] *)
Lemma drop_last_append (s t : string) :
  SatelliteIo.drop_last (String.length t) (s ++ t) = s.
Proof.
  unfold SatelliteIo.drop_last. rewrite length_append.
  replace (String.length s + String.length t - String.length t)
    with (String.length s) by lia.
  apply substring_prefix.
Qed.

Lemma insert_unique_In (x y : string) (l : list string) :
  In x (SatelliteIo.insert_unique y l) <-> x = y \/ In x l.
Proof.
  induction l as [| z l IH]; simpl.
  - intuition.
  - destruct (String.eqb_spec y z) as [-> | Hne].
    + simpl. intuition.
    + destruct (String.ltb y z); simpl; [intuition |].
      rewrite IH. intuition.
Qed.

Lemma sorted_set_In (x : string) (l : list string) :
  In x (SatelliteIo.sorted_set l) <-> In x l.
Proof.
  unfold SatelliteIo.sorted_set. induction l as [| y l IH]; simpl.
  - tauto.
  - rewrite insert_unique_In, IH. intuition.
Qed.

Lemma ltb_flip (x y : string) :
  String.ltb x y = false -> x <> y -> String.ltb y x = true.
Proof.
  unfold String.ltb. intros Hlt Hne. rewrite (String.compare_antisym y x).
  destruct (String.compare x y) eqn:E; simpl; try reflexivity.
  - apply String.compare_eq_iff in E. contradiction.
  - discriminate.
Qed.

Lemma insert_unique_sorted (x : string) (l : list string) :
  Sorted (fun a b => String.ltb a b = true) l ->
  Sorted (fun a b => String.ltb a b = true) (SatelliteIo.insert_unique x l).
Proof.
  induction 1 as [| y l Hs IH Hhd]; simpl.
  - constructor; constructor.
  - destruct (String.eqb_spec x y) as [-> | Hne].
    + constructor; assumption.
    + destruct (String.ltb x y) eqn:Hlt.
      * constructor; [constructor; assumption | constructor; exact Hlt].
      * constructor; [exact IH |].
        destruct l as [| z l]; simpl.
        -- constructor. apply ltb_flip; assumption.
        -- inversion Hhd; subst.
           destruct (String.eqb x z); [constructor; assumption |].
           destruct (String.ltb x z); constructor;
             [apply ltb_flip; assumption | assumption].
Qed.

(** [list(set(l))] then [sort()]: the model returns the elements of [l] in
    strictly increasing order. *)
Lemma sorted_set_sorted (l : list string) :
  Sorted (fun a b => String.ltb a b = true) (SatelliteIo.sorted_set l).
Proof.
  unfold SatelliteIo.sorted_set. induction l as [| x l IH]; simpl.
  - constructor.
  - apply insert_unique_sorted. exact IH.
Qed.

End StringFacts.

(** ** Theorems about [satellite_io.py] *)

Module SatelliteIoClaims.

Import SatelliteIo Examples StringFacts.
Local Open Scope string_scope.

Section Claims.

Variable isfile : string -> bool.
Variable glob : string -> list string.
Variable cyclone_id_parts : Type.
Variable parse_cyclone_id : string -> result cyclone_id_parts.

(** The zipped name is the unzipped name followed by [".gz"]. *)
Lemma preferred_zipped (directory_name cyclone_id_string : string) :
  preferred_file_name directory_name cyclone_id_string true =
  preferred_file_name directory_name cyclone_id_string false
    ++ GZIP_FILE_EXTENSION.
Proof.
  unfold preferred_file_name. rewrite !append_assoc. reflexivity.
Qed.

(** After the first miss [find_file] turns to the name in the other
    format. *)
Lemma other_format (directory_name cyclone_id_string : string)
    (prefer_zipped : bool) :
  (if prefer_zipped
   then drop_last (String.length GZIP_FILE_EXTENSION)
          (preferred_file_name directory_name cyclone_id_string prefer_zipped)
   else preferred_file_name directory_name cyclone_id_string prefer_zipped
          ++ GZIP_FILE_EXTENSION) =
  preferred_file_name directory_name cyclone_id_string (negb prefer_zipped).
Proof.
  destruct prefer_zipped; simpl negb.
  - rewrite preferred_zipped. apply drop_last_append.
  - symmetry. apply preferred_zipped.
Qed.

(** C5, as the code has it: [find_file] parses the cyclone ID before it
    looks at any file.  For an ID that [parse_cyclone_id] rejects it raises
    the parser's error, whatever files exist and whatever the flags.  For
    an ID the parser accepts it raises exactly when neither the preferred
    file nor, with [allow_other_format], the file in the other format
    exists and [raise_error_if_missing] is true; what it raises is a
    ValueError; and with [raise_error_if_missing] false and no file it
    returns the path it expected, which is the last one it tried. *)
Theorem find_file_raises_iff_missing
    (directory_name cyclone_id_string : string)
    (prefer_zipped allow_other_format raise_error_if_missing : bool) :
  let run :=
    find_file isfile parse_cyclone_id directory_name cyclone_id_string
      prefer_zipped allow_other_format raise_error_if_missing in
  let preferred :=
    preferred_file_name directory_name cyclone_id_string prefer_zipped in
  let other :=
    preferred_file_name directory_name cyclone_id_string
      (negb prefer_zipped) in
  let expected := if allow_other_format then other else preferred in
  let no_file_exists :=
    isfile preferred = false /\
    (allow_other_format = true -> isfile other = false) in
  (forall e, parse_cyclone_id cyclone_id_string = Raise e ->
             run = Raise e) /\
  (forall parts, parse_cyclone_id cyclone_id_string = Ok parts ->
     ((exists msg, run = Raise (ValueError msg)) <->
      no_file_exists /\ raise_error_if_missing = true) /\
     (forall e, run = Raise e -> exists msg, e = ValueError msg) /\
     (no_file_exists -> raise_error_if_missing = false ->
      run = Ok expected)).
Proof.
  intros run preferred other expected no_file_exists.
  split.
  { intros e Hparse. unfold run, find_file. rewrite Hparse. reflexivity. }
  intros parts Hparse.
  assert (Hrun : run =
            if isfile preferred then Ok preferred
            else if isfile expected || negb raise_error_if_missing
                 then Ok expected
                 else Raise (ValueError
                        ("Cannot find file.  Expected at: " ++ dquote
                           ++ expected ++ dquote))).
  { unfold run, find_file. rewrite Hparse. simpl. fold preferred.
    destruct (isfile preferred); [reflexivity |].
    unfold expected, other, preferred.
    destruct allow_other_format; [rewrite other_format |]; reflexivity. }
  rewrite Hrun. clear Hrun. unfold no_file_exists, expected.
  destruct (isfile preferred) eqn:Hp.
  { split; [| split].
    - split; [intros [msg H]; discriminate | intros [[H _] _]; discriminate].
    - intros e H; discriminate.
    - intros [H _]; discriminate. }
  destruct allow_other_format; simpl.
  - destruct (isfile other) eqn:Ho; simpl.
    + split; [| split].
      * split; [intros [msg H]; discriminate |].
        intros [[_ H] _]. specialize (H eq_refl). discriminate.
      * intros e H; discriminate.
      * intros [_ H]. specialize (H eq_refl). discriminate.
    + destruct raise_error_if_missing; simpl.
      * split; [| split].
        -- split; [intros _; auto | intros _; eauto].
        -- intros e H. inversion H. eauto.
        -- intros _ H; discriminate.
      * split; [| split].
        -- split; [intros [msg H]; discriminate | intros [_ H]; discriminate].
        -- intros e H; discriminate.
        -- reflexivity.
  - rewrite Hp. simpl. destruct raise_error_if_missing; simpl.
    + split; [| split].
      * split; [intros _ | intros _; eauto].
        split; [split; [reflexivity | discriminate] | reflexivity].
      * intros e H. inversion H. eauto.
      * intros _ H; discriminate.
    + split; [| split].
      * split; [intros [msg H]; discriminate | intros [_ H]; discriminate].
      * intros e H; discriminate.
      * reflexivity.
Qed.

Lemma collect_cyclone_ids_In (files : list string) (id : string) :
  In id (collect_cyclone_ids parse_cyclone_id files) <->
  exists f, In f files /\ file_name_to_cyclone_id parse_cyclone_id f = Ok id.
Proof.
  induction files as [| f files IH]; simpl.
  - split; [tauto | intros [f [[] _]]].
  - destruct (file_name_to_cyclone_id parse_cyclone_id f) as [id' | e] eqn:Hf.
    + simpl. rewrite IH. split.
      * intros [-> | [g [Hg Hid]]]; [exists f; auto | exists g; auto].
      * intros [g [[-> | Hg] Hid]].
        -- left. congruence.
        -- right. exists g. auto.
    + rewrite IH. split.
      * intros [g [Hg Hid]]. exists g. auto.
      * intros [g [[-> | Hg] Hid]]; [congruence | exists g; auto].
Qed.

(** C7, as the code has it: a globbed file whose cyclone ID does not parse
    is skipped, never an error; the IDs returned are exactly those that
    parse; and [find_cyclones] raises, a ValueError, exactly when no ID
    parsed and [raise_error_if_all_missing] is true. *)
Theorem find_cyclones_skips_unparsable_names (directory_name : string)
    (raise_error_if_all_missing : bool) :
  let run :=
    find_cyclones glob parse_cyclone_id directory_name
      raise_error_if_all_missing in
  let files := globbed_file_names glob directory_name in
  let parses (id : string) :=
    exists f, In f files /\
              file_name_to_cyclone_id parse_cyclone_id f = Ok id in
  ((exists e, run = Raise e) <->
   raise_error_if_all_missing = true /\ forall id, ~ parses id) /\
  (forall e, run = Raise e -> exists msg, e = ValueError msg) /\
  (forall ids, run = Ok ids -> forall id, In id ids <-> parses id).
Proof.
  intros run files parses.
  set (ids := sorted_set (collect_cyclone_ids parse_cyclone_id files)).
  assert (Hids : forall id, In id ids <-> parses id).
  { intros id. unfold ids. rewrite sorted_set_In.
    apply collect_cyclone_ids_In. }
  assert (Hrun : run =
            if raise_error_if_all_missing && Nat.eqb (List.length ids) 0
            then Raise (ValueError
                   ("Could not find any cyclone IDs from files with pattern: "
                      ++ dquote
                      ++ ((directory_name ++ "/cira_satellite_"
                             ++ CYCLONE_ID_REGEX ++ ".nc")
                            ++ GZIP_FILE_EXTENSION)
                      ++ dquote))
            else Ok ids) by reflexivity.
  rewrite Hrun. clear Hrun.
  assert (Hempty : Nat.eqb (List.length ids) 0 = true <->
                   forall id, ~ parses id).
  { rewrite Nat.eqb_eq, length_zero_iff_nil. split.
    - intros Hnil id Hp. apply Hids in Hp. rewrite Hnil in Hp. exact Hp.
    - intros Hnone. destruct ids as [| id rest] eqn:E; [reflexivity |].
      exfalso. apply (Hnone id). apply Hids. left. reflexivity. }
  destruct raise_error_if_all_missing; simpl.
  - destruct (Nat.eqb (List.length ids) 0) eqn:Hz.
    + split; [| split].
      * split; [intros _ | intros _; eauto].
        split; [reflexivity | apply Hempty; reflexivity].
      * intros e H. inversion H. eauto.
      * intros r H. discriminate.
    + split; [| split].
      * split; [intros [e H]; discriminate |].
        intros [_ Hnone]. apply Hempty in Hnone. discriminate.
      * intros e H. discriminate.
      * intros r H. inversion H; subst r. exact Hids.
  - split; [| split].
    + split; [intros [e H]; discriminate | intros [H _]; discriminate].
    + intros e H. discriminate.
    + intros r H. inversion H; subst r. exact Hids.
Qed.

End Claims.

Lemma find_file_raises_iff_missing_witness :
  parse_cyclone_id_ex "2005AL02" = Ok (2005%Z, "AL", 1%Z) /\
  ((exists msg,
       find_file isfile_ex parse_cyclone_id_ex "data" "2005AL02"
         true true true = Raise (ValueError msg)) <->
   (isfile_ex "data/cira_satellite_2005AL02.nc.gz" = false /\
    (true = true -> isfile_ex "data/cira_satellite_2005AL02.nc" = false)) /\
   true = true).
Proof.
  split; [reflexivity |].
  exact (proj1 (proj2 (find_file_raises_iff_missing isfile_ex _
                         parse_cyclone_id_ex
                         "data" "2005AL02" true true true)
                  (2005%Z, "AL", 1%Z) eq_refl)).
Defined.

(** C5 as stated fails: the parser rejects the ID 2005AL00.  The file of
    that cyclone exists and [find_file] raises a ValueError all the same;
    and in a directory without any file, asked not to raise when the file
    is missing, it raises instead of returning the expected path. *)
Lemma find_file_rejects_unparsable_id :
  isfile_ex "data/cira_satellite_2005AL00.nc" = true /\
  find_file isfile_ex parse_cyclone_id_ex "data" "2005AL00"
    false true true
  = Raise (ValueError "cyclone number must be positive") /\
  isfile_ex "elsewhere/cira_satellite_2005AL00.nc" = false /\
  isfile_ex "elsewhere/cira_satellite_2005AL00.nc.gz" = false /\
  find_file isfile_ex parse_cyclone_id_ex "elsewhere" "2005AL00"
    false true false
  = Raise (ValueError "cyclone number must be positive").
Proof. repeat split; reflexivity. Qed.

(** C7 as stated fails: the first globbed file has a cyclone ID the parser
    rejects, and [find_cyclones], asked to raise when nothing is found,
    skips it and returns the other ID. *)
Lemma find_cyclones_swallows_parse_error :
  In "data/cira_satellite_2005AL00.nc"
    (globbed_file_names glob_ex "data") /\
  file_name_to_cyclone_id parse_cyclone_id_ex
    "data/cira_satellite_2005AL00.nc"
  = Raise (ValueError "cyclone number must be positive") /\
  find_cyclones glob_ex parse_cyclone_id_ex "data" true = Ok ["2005AL01"] /\
  find_cyclones glob_ex parse_cyclone_id_ex "data" false = Ok ["2005AL01"].
Proof.
  split; [left; reflexivity |].
  split; [reflexivity |].
  split; reflexivity.
Qed.

End SatelliteIoClaims.

(** ** Theorems about [satellite_plotting.py] *)

Module SatellitePlottingClaims.

Import SatellitePlotting ErrorChecking Examples.
Local Open Scope float_scope.

(** The interior edges: [(p[:-1] + p[1:]) / 2]. *)
Lemma midpoints_cons (x y : float) (rest : list float) :
  Np.zip_with (fun p q => (p + q) / 2)
    (removelast (x :: y :: rest)) (tl (x :: y :: rest)) =
  (x + y) / 2 ::
  Np.zip_with (fun p q => (p + q) / 2)
    (removelast (y :: rest)) (tl (y :: rest)).
Proof. reflexivity. Qed.

Lemma midpoints_length (p : list float) :
  List.length (Np.zip_with (fun p q => (p + q) / 2) (removelast p) (tl p)) =
  (List.length p - 1)%nat.
Proof.
  induction p as [| x [| y rest] IH]; try reflexivity.
  rewrite midpoints_cons. simpl List.length in *. rewrite IH. lia.
Qed.

Lemma midpoints_nth (p : list float) :
  forall k, (S k < List.length p)%nat ->
    nth k (Np.zip_with (fun p q => (p + q) / 2) (removelast p) (tl p)) 0 =
    (nth k p 0 + nth (S k) p 0) / 2.
Proof.
  induction p as [| x [| y rest] IH]; intros k Hk; simpl in Hk; try lia.
  rewrite midpoints_cons. destruct k as [| k]; [reflexivity |].
  change (nth (S k) (x :: y :: rest) 0) with (nth k (y :: rest) 0).
  change (nth (S (S k)) (x :: y :: rest) 0) with (nth (S k) (y :: rest) 0).
  simpl nth at 1. apply IH. simpl. lia.
Qed.

Lemma last_default (l : list float) (d d' : float) :
  l <> [] -> last l d = last l d'.
Proof.
  induction l as [| x [| y rest] IH]; intros H; [congruence | reflexivity |].
  change (last (y :: rest) d = last (y :: rest) d').
  apply IH. discriminate.
Qed.

Lemma last_nth (rest : list float) :
  forall x, last rest x = nth (List.length rest) (x :: rest) 0.
Proof.
  induction rest as [| y rest IH]; intros x; [reflexivity |].
  destruct rest as [| z rest]; [reflexivity |].
  change (last (z :: rest) x = nth (List.length (z :: rest)) (y :: z :: rest) 0).
  rewrite <- IH. apply last_default. discriminate.
Qed.

Lemma last_item_nth (p : list float) :
  p <> [] -> last_item p = Ok (nth (List.length p - 1) p 0).
Proof.
  destruct p as [| x rest]; [congruence |]. intros _. unfold last_item.
  f_equal.
  replace (List.length (x :: rest) - 1)%nat with (List.length rest)
    by (simpl; lia).
  apply last_nth.
Qed.

Lemma last_two_nth (p : list float) :
  (2 <= List.length p)%nat ->
  last_two p = [nth (List.length p - 2) p 0; nth (List.length p - 1) p 0].
Proof.
  unfold last_two. induction p as [| x [| y [| z rest]] IH]; simpl List.length;
    intros H; try lia.
  - reflexivity.
  - replace (S (S (S (List.length rest))) - 2)%nat
      with (S (S (S (List.length rest)) - 2))%nat by lia.
    replace (S (S (S (List.length rest))) - 1)%nat
      with (S (S (S (List.length rest)) - 1))%nat by lia.
    change (skipn (S (S (S (List.length rest)) - 2)) (x :: y :: z :: rest))
      with (skipn (S (S (List.length rest)) - 2) (y :: z :: rest)).
    simpl List.length in IH. rewrite IH by lia.
    reflexivity.
Qed.

(** The value of [_grid_points_to_edges] on two or more points. *)
Lemma grid_points_to_edges_value (p : list float) :
  (2 <= List.length p)%nat ->
  _grid_points_to_edges p =
  Ok ([nth 0 p 0 - (nth 1 p 0 - nth 0 p 0) / 2]
      ++ Np.zip_with (fun p q => (p + q) / 2) (removelast p) (tl p)
      ++ [nth (List.length p - 1) p 0
          + (nth (List.length p - 1) p 0 - nth (List.length p - 2) p 0) / 2]).
Proof.
  intros H. unfold _grid_points_to_edges.
  rewrite last_item_nth by (intros ->; simpl in H; lia).
  rewrite last_two_nth by exact H.
  destruct p as [| x [| y rest]]; simpl in H; try lia.
  reflexivity.
Qed.

(** C9: for [P >= 2] grid points [_grid_points_to_edges] returns [P + 1]
    coordinates: the first is [p[0] - (p[1] - p[0]) / 2], the interior ones
    are the midpoints [(p[k-1] + p[k]) / 2] of consecutive points, the last
    is [p[P-1] + (p[P-1] - p[P-2]) / 2], each computed in binary64.  For a
    single grid point the result is the empty array. *)
Theorem grid_points_to_edges_spec (p : list float) :
  (forall x, _grid_points_to_edges [x] = Ok []) /\
  ((2 <= List.length p)%nat ->
   exists edges,
     _grid_points_to_edges p = Ok edges /\
     List.length edges = S (List.length p) /\
     nth 0 edges 0 = nth 0 p 0 - (nth 1 p 0 - nth 0 p 0) / 2 /\
     (forall k, (1 <= k < List.length p)%nat ->
                nth k edges 0 = (nth (k - 1) p 0 + nth k p 0) / 2) /\
     nth (List.length p) edges 0 =
     nth (List.length p - 1) p 0
     + (nth (List.length p - 1) p 0 - nth (List.length p - 2) p 0) / 2).
Proof.
  split; [reflexivity |].
  intros HP.
  set (P := List.length p) in *.
  set (mids := Np.zip_with (fun p q => (p + q) / 2) (removelast p) (tl p)).
  set (first := nth 0 p 0 - (nth 1 p 0 - nth 0 p 0) / 2).
  set (lst := nth (P - 1) p 0 + (nth (P - 1) p 0 - nth (P - 2) p 0) / 2).
  assert (Lmids : List.length mids = (P - 1)%nat)
    by apply midpoints_length.
  exists (first :: mids ++ [lst]).
  split; [apply grid_points_to_edges_value; exact HP |].
  split; [simpl; rewrite length_app; simpl; lia |].
  split; [reflexivity |]. split.
  - intros k Hk. destruct k as [| k]; [lia |].
    change (nth (S k) (first :: mids ++ [lst]) 0)
      with (nth k (mids ++ [lst]) 0).
    rewrite app_nth1 by lia.
    replace (S k - 1)%nat with k by lia.
    apply midpoints_nth. fold P. lia.
  - destruct P as [| P']; [lia |].
    change (nth (S P') (first :: mids ++ [lst]) 0)
      with (nth P' (mids ++ [lst]) 0).
    rewrite app_nth2 by lia.
    replace (P' - List.length mids)%nat with 0%nat by lia. reflexivity.
Qed.

(** Where [assert_is_greater_numpy_array(numpy.diff(x), 0.)] passes, [x]
    is strictly increasing. *)
Lemma diff_positive (l : list float) :
  assert_is_greater_numpy_array (Np.diff l) 0 false = Ok tt ->
  strictly_increasing l.
Proof.
  unfold assert_is_greater_numpy_array.
  destruct (forallb _ (Np.diff l)) eqn:H; [intros _ | discriminate].
  induction l as [| x [| y rest] IH].
  - intros k Hk; simpl in Hk; lia.
  - intros k Hk; simpl in Hk; lia.
  - change (Np.diff (x :: y :: rest))
      with ((y - x) :: Np.diff (y :: rest)) in H.
    simpl forallb in H. apply andb_true_iff in H. destruct H as [Hxy Hrest].
    intros [| k] Hk.
    + simpl. apply FloatFacts.float_sub_positive. exact Hxy.
    + apply (IH Hrest k). simpl in *. lia.
Qed.


(** Python's [max([a, b])] on two numbers: not below [b], and not below [a]
    either; with a NaN among them [<=] can fail, [<] the other way round
    cannot hold. *)
Lemma max_of_pair_not_below (a b : float) :
  (F64.max_of_pair a b <? a) = false /\ (F64.max_of_pair a b <? b) = false.
Proof.
  unfold F64.max_of_pair. destruct (a <? b) eqn:H.
  - split; [apply FloatFacts.float_ltb_antisym; exact H
           | apply FloatFacts.float_ltb_irrefl].
  - split; [apply FloatFacts.float_ltb_irrefl | exact H].
Qed.

Lemma max_of_pair_is_nan (a b : float) :
  is_nan a = false -> is_nan b = false ->
  is_nan (F64.max_of_pair a b) = false.
Proof. unfold F64.max_of_pair. destruct (a <? b); auto. Qed.

Lemma max_of_pair_geq (a b : float) :
  is_nan a = false -> is_nan b = false ->
  (a <=? F64.max_of_pair a b) = true /\ (b <=? F64.max_of_pair a b) = true.
Proof.
  intros Ha Hb. unfold F64.max_of_pair. destruct (a <? b) eqn:H.
  - split; [apply FloatFacts.float_ltb_leb; exact H
           | apply FloatFacts.float_leb_refl; exact Hb].
  - split; [apply FloatFacts.float_leb_refl; exact Ha
           | apply FloatFacts.float_not_ltb_leb; assumption].
Qed.

Lemma tolerance_finite :
  Prim2SF TOLERANCE = S754_finite false 4722366482869645 (-72).
Proof. reflexivity. Qed.

Lemma add_tolerance_not_nan (x : float) :
  is_nan x = false -> is_nan (x + TOLERANCE) = false.
Proof.
  intros H. eapply FloatFacts.float_add_not_nan; [exact H |].
  exact tolerance_finite.
Qed.

(** The bounds [max([min, TOLERANCE])] and
    [max([max, that + TOLERANCE])]. *)
Lemma contour_bounds_spec (min_value max_value : float) :
  let r := contour_bounds min_value max_value in
  (fst r <? TOLERANCE) = false /\
  (snd r <? fst r + TOLERANCE) = false /\
  (is_nan min_value = false -> (TOLERANCE <=? fst r) = true) /\
  (is_nan min_value = false -> is_nan max_value = false ->
   (fst r + TOLERANCE <=? snd r) = true) /\
  (is_nan max_value = false ->
   (fst r <? fst r + TOLERANCE) = true -> (fst r <? snd r) = true).
Proof.
  unfold contour_bounds. simpl fst. simpl snd.
  set (lo := F64.max_of_pair min_value TOLERANCE).
  split; [apply max_of_pair_not_below |].
  split; [apply max_of_pair_not_below |].
  split; [| split].
  - intros Hmin. apply max_of_pair_geq; [exact Hmin | reflexivity].
  - intros Hmin Hmax. apply max_of_pair_geq; [exact Hmax |].
    apply add_tolerance_not_nan. apply max_of_pair_is_nan;
      [exact Hmin | reflexivity].
  - intros Hmax Hlt.
    eapply FloatFacts.float_ltb_leb_trans; [exact Hlt |].
    apply max_of_pair_geq; [exact Hmax |].
    destruct (FloatFacts.float_ltb_not_nan _ _ Hlt) as [_ H]. exact H.
Qed.

Section Claims.

Variable convert_lng_negative_in_west : ndarray -> result ndarray.
Variable draw_contours :
  ndarray -> ndarray -> ndarray -> float -> float -> Z -> result unit.




(** C10: whatever minimum and maximum the caller passes, the bounds
    [plot_saliency] and [plot_class_activation] return are
    [contour_bounds] of them.  The returned minimum is never below
    [TOLERANCE] and the returned maximum never below the binary64 sum of
    the returned minimum and [TOLERANCE]; when the inputs are not NaN the
    minimum is at least [TOLERANCE] and the maximum at least that sum.  The
    minimum is below the maximum whenever it is below that sum, that is,
    whenever adding [TOLERANCE] to it is not lost in rounding. *)
Theorem contour_bounds_returned (data_matrix lat lon : ndarray)
    (min_value max_value : float) (num_contours : Z) (r : float * float) :
  plot_saliency draw_contours data_matrix lat lon min_value max_value
    num_contours = Ok r \/
  plot_class_activation draw_contours data_matrix lat lon min_value max_value
    num_contours = Ok r ->
  r = contour_bounds min_value max_value /\
  (fst r <? TOLERANCE) = false /\
  (snd r <? fst r + TOLERANCE) = false /\
  (is_nan min_value = false -> (TOLERANCE <=? fst r) = true) /\
  (is_nan min_value = false -> is_nan max_value = false ->
   (fst r + TOLERANCE <=? snd r) = true) /\
  (is_nan max_value = false ->
   (fst r <? fst r + TOLERANCE) = true -> (fst r <? snd r) = true).
Proof.
  intros H.
  assert (Hr : r = contour_bounds min_value max_value).
  { destruct H as [H | H];
      [unfold plot_saliency in H | unfold plot_class_activation in H];
      inv_bind H; inv_bind H; inv_bind H; inversion H; reflexivity. }
  split; [exact Hr |]. subst r.
  exact (contour_bounds_spec min_value max_value).
Qed.

End Claims.

Lemma grid_increasing : strictly_increasing [10; 11; 13].
Proof.
  intros [| [| k]] Hk; simpl in *; try reflexivity. lia.
Qed.

Lemma plot_grid_run :
  plot_2d_grid_regular LngConversion.convert_array_negative_in_west
    grid_matrix grid_latitudes grid_longitudes None
  = Ok ([19.5; 20.5; 21.5], [9.5; 10.5; 11.5]).
Proof. reflexivity. Qed.

Lemma plot_saliency_run :
  plot_saliency draw_nothing grid_matrix grid_latitudes grid_longitudes
    (-1) (-2) 5
  = Ok (0x1.0c6f7a0b5ed8dp-20, 0x1.0c6f7a0b5ed8dp-19).
Proof. reflexivity. Qed.

Lemma grid_points_to_edges_spec_witness :
  (2 <= List.length [10; 11; 13]%float)%nat /\
  exists edges,
    _grid_points_to_edges [10; 11; 13] = Ok edges /\
    List.length edges = 4%nat /\
    nth 0 edges 0 = 10 - (11 - 10) / 2 /\
    (forall k, (1 <= k < 3)%nat ->
       nth k edges 0 = (nth (k - 1) [10; 11; 13] 0 + nth k [10; 11; 13] 0) / 2)
    /\
    nth 3 edges 0 = 13 + (13 - 11) / 2.
Proof.
  split; [simpl; lia |].
  exact (proj2 (grid_points_to_edges_spec [10; 11; 13]) ltac:(simpl; lia)).
Defined.

(** Two neighbouring binary64 numbers just above 1: the input increases
    strictly, the last two of the three edges are equal. *)
Lemma grid_edges_not_strictly_increasing :
  (2 <= List.length
          [0x1.0000000000001p+0; 0x1.0000000000002p+0]%float)%nat /\
  strictly_increasing [0x1.0000000000001p+0; 0x1.0000000000002p+0] /\
  _grid_points_to_edges [0x1.0000000000001p+0; 0x1.0000000000002p+0]
  = Ok [1; 0x1.0000000000002p+0; 0x1.0000000000002p+0] /\
  ~ strictly_increasing [1; 0x1.0000000000002p+0; 0x1.0000000000002p+0].
Proof.
  split; [simpl; lia |]. split; [| split; [reflexivity |]].
  - intros [| k] Hk; simpl in *; [reflexivity | lia].
  - intros H. specialize (H 1%nat ltac:(simpl; lia)). simpl in H.
    discriminate H.
Qed.

(** Near the top of the binary64 range the midpoint overflows: the edges
    are not even in non-decreasing order. *)
Lemma grid_edges_overflow :
  strictly_increasing [0x1p+1023; 0x1.8p+1023] /\
  _grid_points_to_edges [0x1p+1023; 0x1.8p+1023]
  = Ok [0x1.8p+1022; infinity; 0x1.cp+1023] /\
  (0x1.cp+1023 <? infinity) = true.
Proof.
  split; [| split; reflexivity].
  intros [| k] Hk; simpl in *; [reflexivity | lia].
Qed.


Lemma contour_bounds_returned_witness :
  (plot_saliency draw_nothing grid_matrix grid_latitudes grid_longitudes
     (-1) (-2) 5 = Ok (0x1.0c6f7a0b5ed8dp-20, 0x1.0c6f7a0b5ed8dp-19) \/
   plot_class_activation draw_nothing grid_matrix grid_latitudes
     grid_longitudes (-1) (-2) 5
   = Ok (0x1.0c6f7a0b5ed8dp-20, 0x1.0c6f7a0b5ed8dp-19)) /\
  (0x1.0c6f7a0b5ed8dp-20, 0x1.0c6f7a0b5ed8dp-19) = contour_bounds (-1) (-2) /\
  (0x1.0c6f7a0b5ed8dp-20 <? TOLERANCE) = false /\
  (0x1.0c6f7a0b5ed8dp-19 <? 0x1.0c6f7a0b5ed8dp-20 + TOLERANCE) = false /\
  (is_nan (-1) = false -> (TOLERANCE <=? 0x1.0c6f7a0b5ed8dp-20) = true) /\
  (is_nan (-1) = false -> is_nan (-2) = false ->
   (0x1.0c6f7a0b5ed8dp-20 + TOLERANCE <=? 0x1.0c6f7a0b5ed8dp-19) = true) /\
  (is_nan (-2) = false ->
   (0x1.0c6f7a0b5ed8dp-20 <? 0x1.0c6f7a0b5ed8dp-20 + TOLERANCE) = true ->
   (0x1.0c6f7a0b5ed8dp-20 <? 0x1.0c6f7a0b5ed8dp-19) = true).
Proof.
  split; [left; exact plot_saliency_run |].
  exact (contour_bounds_returned draw_nothing
           grid_matrix grid_latitudes grid_longitudes (-1) (-2) 5
           (0x1.0c6f7a0b5ed8dp-20, 0x1.0c6f7a0b5ed8dp-19)
           (or_introl plot_saliency_run)).
Defined.

(** From [2 ** 34] on, adding [TOLERANCE] to the minimum is lost in
    rounding: with a maximum below the minimum both functions return the
    minimum twice. *)
Lemma contour_bounds_collapse :
  plot_saliency draw_nothing grid_matrix grid_latitudes grid_longitudes
    0x1p+34 0 5 = Ok (0x1p+34, 0x1p+34) /\
  plot_class_activation draw_nothing grid_matrix grid_latitudes
    grid_longitudes 0x1p+34 0 5 = Ok (0x1p+34, 0x1p+34) /\
  0x1p+34 + TOLERANCE = 0x1p+34 /\
  (0x1p+34 <? 0x1p+34) = false.
Proof. repeat split. Qed.

End SatellitePlottingClaims.

(** ** More about [satellite_io.py] *)

Module SatelliteIoExtras.

Import SatelliteIo StringFacts.
Local Open Scope string_scope.

Lemma split_nonempty (sep : ascii) (s : string) : split sep s <> [].
Proof.
  destruct s as [| c s]; simpl; [discriminate |].
  destruct (Ascii.eqb c sep); [discriminate |].
  destruct (split sep s); discriminate.
Qed.

Lemma split_no_sep (sep : ascii) (s : string) :
  Py.no_char sep s = true -> split sep s = [s].
Proof.
  induction s as [| c s IH]; simpl; [reflexivity |].
  intros H. apply andb_true_iff in H. destruct H as [Hc Hs].
  apply negb_true_iff in Hc. rewrite Hc, (IH Hs). reflexivity.
Qed.

(** [(s + sep + t).split(sep) == s.split(sep) + t.split(sep)] *)
Lemma split_app_sep (sep : ascii) (s t : string) :
  split sep (s ++ String sep t) = (split sep s ++ split sep t)%list.
Proof.
  induction s as [| c s IH]; simpl.
  - rewrite Ascii.eqb_refl. reflexivity.
  - destruct (Ascii.eqb c sep); rewrite IH; [reflexivity |].
    destruct (split sep s) as [| h tl] eqn:E.
    + exfalso. exact (split_nonempty sep s E).
    + reflexivity.
Qed.

Lemma no_char_append (c : ascii) (s t : string) :
  Py.no_char c (s ++ t) = Py.no_char c s && Py.no_char c t.
Proof.
  induction s as [| c' s IH]; simpl; [reflexivity |].
  rewrite IH, andb_assoc. reflexivity.
Qed.

Lemma last_app_nonempty {A : Type} (l1 l2 : list A) (d : A) :
  l2 <> [] -> last (l1 ++ l2) d = last l2 d.
Proof.
  intros H. induction l1 as [| x l1 IH]; [reflexivity |].
  simpl app. destruct (l1 ++ l2)%list eqn:E.
  - destruct l1; simpl in E; [contradiction | discriminate].
  - rewrite <- IH. reflexivity.
Qed.

(** The name [find_file] builds gives the cyclone ID back. *)
Lemma cyclone_id_of_preferred_name (directory_name cyclone_id_string : string)
    (prefer_zipped : bool) :
  Py.no_char "/" cyclone_id_string = true ->
  Py.no_char "." cyclone_id_string = true ->
  Py.no_char "_" cyclone_id_string = true ->
  last (split "_"%char
          (hd EmptyString
             (split "."%char
                (path_tail
                   (preferred_file_name directory_name cyclone_id_string
                      prefer_zipped)))))
    EmptyString
  = cyclone_id_string.
Proof.
  intros Hslash Hdot Hunder.
  set (ext := if prefer_zipped then GZIP_FILE_EXTENSION else "").
  set (stem := "cira_satellite" ++ String "_" cyclone_id_string).
  assert (Hname :
            preferred_file_name directory_name cyclone_id_string prefer_zipped
            = directory_name ++ String "/" (stem ++ String "." ("nc" ++ ext))).
  { unfold preferred_file_name, stem. fold ext. reflexivity. }
  rewrite Hname. unfold path_tail.
  rewrite split_app_sep.
  rewrite last_app_nonempty by apply split_nonempty.
  assert (Hext : Py.no_char "/" ext = true)
    by (unfold ext; destruct prefer_zipped; reflexivity).
  rewrite (split_no_sep "/" (stem ++ String "." ("nc" ++ ext))).
  2:{ unfold stem. rewrite !no_char_append. simpl.
      rewrite Hslash, Hext. reflexivity. }
  cbn [last]. rewrite (split_app_sep "." stem).
  rewrite (split_no_sep "." stem).
  2:{ unfold stem. rewrite no_char_append. simpl. exact Hdot. }
  cbn [hd app]. unfold stem. rewrite (split_app_sep "_" "cira_satellite").
  rewrite last_app_nonempty by apply split_nonempty.
  rewrite (split_no_sep "_" cyclone_id_string) by exact Hunder. reflexivity.
Qed.

(** Strings in the order Python sorts them. *)
Lemma ltb_lt (x y : string) :
  String.ltb x y = true <-> String_as_OT.lt x y.
Proof.
  unfold String.ltb, String_as_OT.lt.
  change (String_as_OT.compare x y) with (String.compare x y).
  destruct (String.compare x y); split; congruence.
Qed.

Lemma ltb_trans (x y z : string) :
  String.ltb x y = true -> String.ltb y z = true -> String.ltb x z = true.
Proof.
  rewrite !ltb_lt. apply String_as_OT.lt_strorder.
Qed.

Lemma ltb_irrefl (x : string) : String.ltb x x = false.
Proof.
  destruct (String.ltb x x) eqn:E; [| reflexivity].
  apply ltb_lt in E. exfalso.
  exact (RelationClasses.StrictOrder_Irreflexive
           (R := String_as_OT.lt) x E).
Qed.

Lemma sorted_set_strongly_sorted (l : list string) :
  StronglySorted (fun a b => String.ltb a b = true) (sorted_set l).
Proof.
  apply Sorted_StronglySorted.
  - intros x y z. apply ltb_trans.
  - apply sorted_set_sorted.
Qed.

(** Two strictly sorted lists with the same elements are the same list. *)
Lemma strongly_sorted_unique (l1 l2 : list string) :
  StronglySorted (fun a b => String.ltb a b = true) l1 ->
  StronglySorted (fun a b => String.ltb a b = true) l2 ->
  (forall x, In x l1 <-> In x l2) ->
  l1 = l2.
Proof.
  intros H1. revert l2.
  induction H1 as [| x l1 Hs1 IH Hall1]; intros l2 H2 Hmem.
  - destruct l2 as [| y l2]; [reflexivity |].
    exfalso. apply (Hmem y). left. reflexivity.
  - destruct H2 as [| y l2 Hs2 Hall2].
    + exfalso. apply (Hmem x). left. reflexivity.
    + rewrite Forall_forall in Hall1, Hall2.
      assert (Hxy : x = y).
      { destruct (proj1 (Hmem x) (or_introl eq_refl)) as [E | Hx];
          [congruence |].
        destruct (proj2 (Hmem y) (or_introl eq_refl)) as [E | Hy];
          [congruence |].
        pose proof (ltb_trans _ _ _ (Hall1 y Hy) (Hall2 x Hx)) as Hxx.
        rewrite ltb_irrefl in Hxx. discriminate. }
      subst y. f_equal. apply IH; [exact Hs2 |].
      intros z. split; intros Hz.
      * destruct (proj1 (Hmem z) (or_intror Hz)) as [E | Hz2]; [| exact Hz2].
        subst z. pose proof (Hall1 x Hz) as Hxx.
        rewrite ltb_irrefl in Hxx. discriminate.
      * destruct (proj2 (Hmem z) (or_intror Hz)) as [E | Hz1]; [| exact Hz1].
        subst z. pose proof (Hall2 x Hz) as Hxx.
        rewrite ltb_irrefl in Hxx. discriminate.
Qed.

Lemma strongly_sorted_NoDup (l : list string) :
  StronglySorted (fun a b => String.ltb a b = true) l -> NoDup l.
Proof.
  induction 1 as [| x l Hs IH Hall]; constructor; [| exact IH].
  intros Hin. rewrite Forall_forall in Hall.
  pose proof (Hall x Hin) as Hxx. rewrite ltb_irrefl in Hxx. discriminate.
Qed.

Section Extras.

Variable isfile : string -> bool.
Variable glob : string -> list string.
Variable cyclone_id_parts : Type.
Variable parse_cyclone_id : string -> result cyclone_id_parts.

(** How a successful [find_file] comes about. *)
Lemma find_file_ok (directory_name cyclone_id_string : string)
    (prefer_zipped allow_other_format raise_error_if_missing : bool)
    (path : string) :
  find_file isfile parse_cyclone_id directory_name cyclone_id_string
    prefer_zipped allow_other_format raise_error_if_missing = Ok path ->
  let preferred :=
    preferred_file_name directory_name cyclone_id_string prefer_zipped in
  let other :=
    preferred_file_name directory_name cyclone_id_string
      (negb prefer_zipped) in
  (exists parts, parse_cyclone_id cyclone_id_string = Ok parts) /\
  ((isfile preferred = true /\ path = preferred) \/
   (isfile preferred = false /\ allow_other_format = true /\ path = other /\
    (isfile other = true \/ raise_error_if_missing = false)) \/
   (isfile preferred = false /\ allow_other_format = false /\
    path = preferred /\ raise_error_if_missing = false)).
Proof.
  intros H preferred other. unfold find_file in H.
  destruct (parse_cyclone_id cyclone_id_string) as [parts | e] eqn:Hparse;
    [| discriminate].
  split; [eauto |]. simpl in H. fold preferred in H.
  destruct (isfile preferred) eqn:Hp.
  { left. inversion H. auto. }
  right. destruct allow_other_format.
  - left. unfold preferred in H.
    rewrite SatelliteIoClaims.other_format in H. fold other in H.
    destruct (isfile other) eqn:Ho; simpl in H.
    + inversion H. auto 6.
    + destruct raise_error_if_missing; simpl in H; [discriminate |].
      inversion H. auto 6.
  - right. rewrite Hp in H. simpl in H.
    destruct raise_error_if_missing; simpl in H; [discriminate |].
    inversion H. auto.
Qed.

(** X1: the path [find_file] returns is the preferred name, or the name in
    the other format only when that is allowed and the preferred file is
    missing; an existing preferred file always wins; and under
    [raise_error_if_missing] the returned path is an existing file. *)
Theorem find_file_returns_existing_preferred_first
    (directory_name cyclone_id_string : string)
    (prefer_zipped allow_other_format raise_error_if_missing : bool)
    (path : string) :
  find_file isfile parse_cyclone_id directory_name cyclone_id_string
    prefer_zipped allow_other_format raise_error_if_missing = Ok path ->
  let preferred :=
    preferred_file_name directory_name cyclone_id_string prefer_zipped in
  let other :=
    preferred_file_name directory_name cyclone_id_string
      (negb prefer_zipped) in
  (path = preferred \/ path = other) /\
  (path <> preferred ->
   allow_other_format = true /\ isfile preferred = false) /\
  (isfile preferred = true -> path = preferred) /\
  (raise_error_if_missing = true -> isfile path = true).
Proof.
  intros H preferred other.
  destruct (find_file_ok _ _ _ _ _ _ H) as [_ Hcases].
  fold preferred other in Hcases.
  destruct Hcases as [[Hp ->] | [(Hp & Ha & -> & Ho) | (Hp & Ha & -> & Hr)]].
  - repeat split; auto. congruence.
  - repeat split; auto.
    + intros Hex. congruence.
    + intros Hr. destruct Ho as [Ho | Ho]; congruence.
  - repeat split; auto; congruence.
Qed.

(** X2: whatever path [find_file] returns, [file_name_to_cyclone_id] reads
    the cyclone ID back from it, for an ID without slash, dot or
    underscore. *)
Theorem find_file_then_file_name_to_cyclone_id
    (directory_name cyclone_id_string : string)
    (prefer_zipped allow_other_format raise_error_if_missing : bool)
    (path : string) :
  Py.no_char "/" cyclone_id_string = true ->
  Py.no_char "." cyclone_id_string = true ->
  Py.no_char "_" cyclone_id_string = true ->
  find_file isfile parse_cyclone_id directory_name cyclone_id_string
    prefer_zipped allow_other_format raise_error_if_missing = Ok path ->
  file_name_to_cyclone_id parse_cyclone_id path = Ok cyclone_id_string.
Proof.
  intros Hslash Hdot Hunder H.
  destruct (find_file_ok _ _ _ _ _ _ H) as [[parts Hparse] Hcases].
  assert (Hpath : exists z, path =
            preferred_file_name directory_name cyclone_id_string z).
  { destruct Hcases as [[_ ->] | [(_ & _ & -> & _) | (_ & _ & -> & _)]];
      eauto. }
  destruct Hpath as [z ->]. unfold file_name_to_cyclone_id.
  rewrite cyclone_id_of_preferred_name by assumption.
  rewrite Hparse. reflexivity.
Qed.

(** What a successful [find_cyclones] returns. *)
Lemma find_cyclones_ok (directory_name : string)
    (raise_error_if_all_missing : bool) (ids : list string) :
  find_cyclones glob parse_cyclone_id directory_name
    raise_error_if_all_missing = Ok ids ->
  ids = sorted_set
          (collect_cyclone_ids parse_cyclone_id
             (globbed_file_names glob directory_name)).
Proof.
  unfold find_cyclones, globbed_file_names. intros H.
  destruct (raise_error_if_all_missing && _); [discriminate |].
  inversion H. reflexivity.
Qed.

(** X3: the cyclone IDs [find_cyclones] returns are in strictly increasing
    order, hence without duplicates, and each one is an ID that
    [parse_cyclone_id] accepts. *)
Theorem find_cyclones_sorted_distinct_valid (directory_name : string)
    (raise_error_if_all_missing : bool) (ids : list string) :
  find_cyclones glob parse_cyclone_id directory_name
    raise_error_if_all_missing = Ok ids ->
  StronglySorted (fun a b => String.ltb a b = true) ids /\
  NoDup ids /\
  forall id, In id ids -> exists parts, parse_cyclone_id id = Ok parts.
Proof.
  intros H. apply find_cyclones_ok in H. subst ids.
  split; [apply sorted_set_strongly_sorted |].
  split; [apply strongly_sorted_NoDup, sorted_set_strongly_sorted |].
  intros id Hid. apply (proj1 (sorted_set_In _ _)) in Hid.
  apply (proj1 (SatelliteIoClaims.collect_cyclone_ids_In
                  (fun _ => true) glob _ parse_cyclone_id _ _)) in Hid.
  destruct Hid as [f [_ Hf]]. unfold file_name_to_cyclone_id in Hf.
  destruct (parse_cyclone_id _) as [parts | e] eqn:Hp; [| discriminate].
  simpl in Hf. inversion Hf; subst id. eauto.
Qed.

End Extras.

(** X4: [find_cyclones] depends on the set of files the two globs return,
    not on their order or multiplicity: two file-system views that list
    the same files give the same answer. *)
Theorem find_cyclones_ignores_glob_order
    (glob1 glob2 : string -> list string) (cyclone_id_parts : Type)
    (parse_cyclone_id : string -> result cyclone_id_parts)
    (directory_name : string) (raise_error_if_all_missing : bool) :
  (forall f, In f (globbed_file_names glob1 directory_name) <->
             In f (globbed_file_names glob2 directory_name)) ->
  find_cyclones glob1 parse_cyclone_id directory_name
    raise_error_if_all_missing =
  find_cyclones glob2 parse_cyclone_id directory_name
    raise_error_if_all_missing.
Proof.
  intros Hfiles.
  assert (Hids :
    sorted_set (collect_cyclone_ids parse_cyclone_id
                  (globbed_file_names glob1 directory_name)) =
    sorted_set (collect_cyclone_ids parse_cyclone_id
                  (globbed_file_names glob2 directory_name))).
  { apply strongly_sorted_unique; try apply sorted_set_strongly_sorted.
    intros id. rewrite !sorted_set_In.
    rewrite !(SatelliteIoClaims.collect_cyclone_ids_In
                (fun _ => true) glob1 _ parse_cyclone_id).
    split; intros [f [Hf Hid]]; exists f; split; auto; apply Hfiles; auto. }
  unfold find_cyclones. unfold globbed_file_names in Hids.
  rewrite Hids. reflexivity.
Qed.

(** The zipped file of cyclone 2005AL01 is preferred but missing: the
    unzipped one, which exists, is returned. *)
Lemma find_file_returns_existing_preferred_first_witness :
  find_file Examples.isfile_ex Examples.parse_cyclone_id_ex
    "data" "2005AL01" true true true
  = Ok "data/cira_satellite_2005AL01.nc" /\
  ("data/cira_satellite_2005AL01.nc"
   = preferred_file_name "data" "2005AL01" true \/
   "data/cira_satellite_2005AL01.nc"
   = preferred_file_name "data" "2005AL01" (negb true)) /\
  ("data/cira_satellite_2005AL01.nc"
   <> preferred_file_name "data" "2005AL01" true ->
   true = true /\
   Examples.isfile_ex (preferred_file_name "data" "2005AL01" true) = false) /\
  (Examples.isfile_ex (preferred_file_name "data" "2005AL01" true) = true ->
   "data/cira_satellite_2005AL01.nc"
   = preferred_file_name "data" "2005AL01" true) /\
  (true = true ->
   Examples.isfile_ex "data/cira_satellite_2005AL01.nc" = true).
Proof.
  split; [reflexivity |].
  exact (find_file_returns_existing_preferred_first
           Examples.isfile_ex _ Examples.parse_cyclone_id_ex
           "data" "2005AL01" true true true
           "data/cira_satellite_2005AL01.nc" eq_refl).
Defined.

Lemma find_file_then_file_name_to_cyclone_id_witness :
  Py.no_char "/" "2005AL01" = true /\
  Py.no_char "." "2005AL01" = true /\
  Py.no_char "_" "2005AL01" = true /\
  find_file Examples.isfile_ex Examples.parse_cyclone_id_ex
    "data" "2005AL01" true true true
  = Ok "data/cira_satellite_2005AL01.nc" /\
  file_name_to_cyclone_id Examples.parse_cyclone_id_ex
    "data/cira_satellite_2005AL01.nc"
  = Ok "2005AL01".
Proof.
  split; [reflexivity |]. split; [reflexivity |]. split; [reflexivity |].
  split; [reflexivity |].
  exact (find_file_then_file_name_to_cyclone_id
           Examples.isfile_ex _ Examples.parse_cyclone_id_ex
           "data" "2005AL01" true true true
           "data/cira_satellite_2005AL01.nc"
           eq_refl eq_refl eq_refl eq_refl).
Defined.

(** Four files of three cyclones, listed out of order. *)
Lemma find_cyclones_sorted_distinct_valid_witness :
  find_cyclones MoreExamples.glob_unsorted Examples.parse_cyclone_id_ex
    "data" true
  = Ok ["2005AL01"; "2005AL02"; "2005AL03"] /\
  StronglySorted (fun a b => String.ltb a b = true)
    ["2005AL01"; "2005AL02"; "2005AL03"] /\
  NoDup ["2005AL01"; "2005AL02"; "2005AL03"] /\
  forall id, In id ["2005AL01"; "2005AL02"; "2005AL03"] ->
             exists parts, Examples.parse_cyclone_id_ex id = Ok parts.
Proof.
  split; [reflexivity |].
  exact (find_cyclones_sorted_distinct_valid
           MoreExamples.glob_unsorted _ Examples.parse_cyclone_id_ex
           "data" true ["2005AL01"; "2005AL02"; "2005AL03"] eq_refl).
Defined.

Lemma same_files_listed (f : string) :
  In f (globbed_file_names MoreExamples.glob_unsorted "data") <->
  In f (globbed_file_names MoreExamples.glob_reordered "data").
Proof.
  change (globbed_file_names MoreExamples.glob_unsorted "data")
    with ["data/cira_satellite_2005AL03.nc";
          "data/cira_satellite_2005AL01.nc";
          "data/cira_satellite_2005AL01.nc.gz";
          "data/cira_satellite_2005AL02.nc.gz"].
  change (globbed_file_names MoreExamples.glob_reordered "data")
    with ["data/cira_satellite_2005AL01.nc";
          "data/cira_satellite_2005AL03.nc";
          "data/cira_satellite_2005AL01.nc";
          "data/cira_satellite_2005AL02.nc.gz";
          "data/cira_satellite_2005AL01.nc.gz"].
  simpl. tauto.
Qed.

Lemma find_cyclones_ignores_glob_order_witness :
  (forall f,
     In f (globbed_file_names MoreExamples.glob_unsorted "data") <->
     In f (globbed_file_names MoreExamples.glob_reordered "data")) /\
  find_cyclones MoreExamples.glob_unsorted Examples.parse_cyclone_id_ex
    "data" true
  = find_cyclones MoreExamples.glob_reordered Examples.parse_cyclone_id_ex
      "data" true.
Proof.
  split; [exact same_files_listed |].
  exact (find_cyclones_ignores_glob_order
           MoreExamples.glob_unsorted MoreExamples.glob_reordered _
           Examples.parse_cyclone_id_ex "data" true same_files_listed).
Defined.

End SatelliteIoExtras.

(** ** More about [_match_examples] *)

Module MatchExtras.

Import Match MatchFacts.
Local Open Scope float_scope.

Lemma bind_raise {A B : Type} (m : result A) (k : A -> result B) (e : exn) :
  bind m k = Raise e ->
  m = Raise e \/ exists a, m = Ok a /\ k a = Raise e.
Proof.
  destruct m as [a | e']; simpl; intros H; [eauto |].
  left. inversion H. reflexivity.
Qed.

Lemma item_raise {A : Type} (a : list A) (i : nat) (e : exn) :
  Np.item a i = Raise e -> e = IndexError.
Proof.
  unfold Np.item. destruct (nth_error a i); intros H; inversion H.
  reflexivity.
Qed.

Lemma take_raise {A : Type} (a : list A) (js : list nat) (e : exn) :
  Np.take a js = Raise e -> e = IndexError.
Proof.
  induction js as [| j js IH]; simpl; intros H; [discriminate |].
  apply bind_raise in H. destruct H as [H | [x [_ H]]].
  - eapply item_raise; eauto.
  - apply bind_raise in H. destruct H as [H | [xs [_ H]]];
      [auto | discriminate].
Qed.

Lemma set_item_raise {A : Type} (a : list A) (i : nat) (v : A) (e : exn) :
  Np.set_item a i v = Raise e -> e = IndexError.
Proof.
  revert i. induction a as [| x a IH]; intros [| i] H; simpl in H;
    try (inversion H; reflexivity).
  apply bind_raise in H. destruct H as [H | [a' [_ H]]];
    [eauto | discriminate].
Qed.

Lemma candidate_distances_raise (a : arrays) (i : nat) (js : list nat)
    (e : exn) :
  candidate_distances a i js = Raise e -> e = IndexError.
Proof.
  unfold candidate_distances. intros H.
  repeat (apply bind_raise in H;
          destruct H as [H | [? [_ H]]];
          [first [eapply item_raise; eassumption
                 | eapply take_raise; eassumption] |]).
  discriminate.
Qed.

(** An iteration can fail only on an index: [numpy.min] and
    [numpy.argmin] never see an empty array. *)
Lemma find_match_raise (a : arrays) (i : nat) (e : exn) :
  find_match a i = Raise e -> e = IndexError.
Proof.
  unfold find_match. intros H.
  apply bind_raise in H. destruct H as [H | [t [_ H]]];
    [eapply item_raise; eauto |].
  destruct (Nat.eqb _ 0) eqn:Hempty; [discriminate |].
  apply Nat.eqb_neq in Hempty.
  apply bind_raise in H. destruct H as [H | [ds [Hds H]]];
    [eapply candidate_distances_raise; eauto |].
  destruct (candidate_distances_ok a i _ ds Hds) as [Hlen _].
  assert (Hne : ds <> []) by (intros ->; simpl in Hlen; lia).
  destruct (NpFacts.min_nonempty ds Hne) as [d Hd].
  destruct (NpFacts.argmin_nonempty ds Hne) as [k Hk].
  rewrite Hd in H. simpl in H.
  destruct (F64.gtb d MAX_DISTANCE_DEG); [discriminate |].
  rewrite Hk in H. simpl in H.
  apply bind_raise in H. destruct H as [H | [j [_ H]]];
    [eapply item_raise; eauto | discriminate].
Qed.

Lemma for_each_raise (a : arrays) (range : list nat) :
  forall (arr : list Z) (e : exn),
    for_each a range arr = Raise e -> e = IndexError.
Proof.
  induction range as [| i range IH]; intros arr e H; simpl in H;
    [discriminate |].
  apply bind_raise in H. destruct H as [H | [next [_ H]]]; [| eauto].
  unfold loop_body in H.
  apply bind_raise in H. destruct H as [H | [m [_ H]]];
    [eapply find_match_raise; eauto |].
  destruct m as [j |]; [eapply set_item_raise; eauto | discriminate].
Qed.

(** The distance of a position to itself is zero, or NaN when a
    coordinate is infinite or NaN; neither is above the threshold. *)
Lemma self_distance (lat lng : float) :
  planar_distance lat lng lat lng = 0 \/
  planar_distance lat lng lat lng = nan.
Proof.
  unfold planar_distance.
  destruct (FloatFacts.float_sub_self lat) as [-> | ->],
           (FloatFacts.float_sub_self lng) as [-> | ->];
    [left | right | right | right]; reflexivity.
Qed.

Lemma self_distance_close (lat lng_pos lng_neg : float) :
  F64.gtb (F64.minimum (planar_distance lat lng_pos lat lng_pos)
                       (planar_distance lat lng_neg lat lng_neg))
    MAX_DISTANCE_DEG = false.
Proof.
  destruct (self_distance lat lng_pos) as [-> | ->],
           (self_distance lat lng_neg) as [-> | ->]; reflexivity.
Qed.

Section Extras.

Variable conv_pos conv_neg : list float -> result (list float).

(** X5: once the longitude conversions have succeeded, the only exception
    [_match_examples] can raise is IndexError, and only on columns whose
    lengths disagree; the ValueError of [numpy.min] on an empty array is
    out of reach. *)
Theorem match_examples_raises_only_index_error (cnn : cnn_prediction_dict)
    (ships : ships_prediction_dict) (a : arrays) (e : exn) :
  bind_arrays conv_pos conv_neg cnn ships = Ok a ->
  _match_examples conv_pos conv_neg cnn ships = Raise e ->
  e = IndexError /\ ~ lengths_agree a.
Proof.
  intros Ha H. split.
  - unfold _match_examples, returned, _match_examples_io in H.
    rewrite Ha in H. simpl in H.
    apply bind_raise in H. destruct H as [H | [r [_ H]]]; [| discriminate].
    apply bind_raise in H. destruct H as [H | [arr [_ H]]];
      [eapply for_each_raise; eauto |].
    apply bind_raise in H. destruct H as [H | [si [_ H]]];
      [eapply take_raise; eauto | discriminate].
  - intros Hagree.
    destruct (match_examples_io_total conv_pos conv_neg [] cnn ships a
                Ha Hagree) as (out' & ci & si & Hrun).
    unfold _match_examples, returned in H. rewrite Hrun in H. discriminate.
Qed.

Lemma no_members_nil {A : Type} (l : list A) :
  (forall x, ~ In x l) -> l = [].
Proof.
  destruct l as [| x l]; [reflexivity |]. intros H.
  exfalso. apply (H x). left. reflexivity.
Qed.

Lemma for_each_no_match (a : arrays) (range : list nat) (arr : list Z) :
  (forall i, In i range -> find_match a i = Ok None) ->
  for_each a range arr = Ok arr.
Proof.
  induction range as [| i range IH]; intros H; simpl; [reflexivity |].
  unfold loop_body. rewrite (H i) by (left; reflexivity). simpl.
  apply IH. intros j Hj. apply H. right. exact Hj.
Qed.

Lemma where_nothing_matched (n k : nat) :
  Np.where_from k (map (fun v : Z => (v >=? 0)%Z) (Np.full n (-1)%Z)) = [].
Proof.
  revert k. induction n as [| n IH]; intros k; simpl; [reflexivity |].
  apply IH.
Qed.

(** X6: when no SHIPS init time equals any CNN init time, nothing is
    matched: the result is two empty arrays, and no exception is raised
    even if the latitude and longitude columns are ragged.  Empty CNN or
    SHIPS data are the extreme cases. *)
Theorem match_examples_disjoint_times (cnn : cnn_prediction_dict)
    (ships : ships_prediction_dict) (a : arrays) :
  bind_arrays conv_pos conv_neg cnn ships = Ok a ->
  (forall t, In t (cnn_init_times_unix_sec cnn) ->
             ~ In t (ships_init_times_unix_sec ships)) ->
  _match_examples conv_pos conv_neg cnn ships = Ok ([], []).
Proof.
  intros Ha Hdisjoint.
  destruct (MatchClaims.bind_arrays_times conv_pos conv_neg _ _ _ Ha)
    as [Ec Es].
  assert (Hnone : forall i, In i (seq 0 (List.length (cnn_times a))) ->
                            find_match a i = Ok None).
  { intros i Hi. apply in_seq in Hi. unfold find_match.
    destruct (NpFacts.item_in_range (cnn_times a) i) as [t Ht]; [lia |].
    rewrite Ht. simpl.
    assert (Hjs : same_time_indices a t = []).
    { apply no_members_nil. intros j Hj.
      apply same_time_indices_spec in Hj.
      apply (Hdisjoint t).
      - rewrite <- Ec. apply NpFacts.item_ok in Ht.
        eapply nth_error_In; eauto.
      - rewrite <- Es. eapply nth_error_In; eauto. }
    rewrite Hjs. reflexivity. }
  unfold _match_examples, returned, _match_examples_io.
  rewrite Ha. simpl.
  rewrite (for_each_no_match a _ _ Hnone). simpl.
  unfold Np.where_. rewrite where_nothing_matched. reflexivity.
Qed.

(** A strictly increasing list of naturals holding exactly the numbers
    from [k] to [k + n - 1] is that range. *)
Lemma sorted_range (n : nat) :
  forall (k : nat) (l : list nat),
    StronglySorted lt l ->
    (forall i, In i l <-> (k <= i < k + n)%nat) ->
    l = seq k n.
Proof.
  induction n as [| n IH]; intros k l Hs Hmem.
  - apply no_members_nil. intros i Hi. apply Hmem in Hi. lia.
  - destruct Hs as [| x l Hs Hall].
    + exfalso. apply (proj2 (Hmem k)). lia.
    + rewrite Forall_forall in Hall.
      assert (Hx : x = k).
      { pose proof (proj1 (Hmem x) (or_introl eq_refl)) as Hxk.
        destruct (proj2 (Hmem k) ltac:(lia)) as [E | Hk]; [exact E |].
        pose proof (Hall k Hk). lia. }
      subst x. simpl. f_equal. apply IH; [exact Hs |].
      intros i. split.
      * intros Hi. pose proof (Hall i Hi).
        pose proof (proj1 (Hmem i) (or_intror Hi)). lia.
      * intros Hi. destruct (proj2 (Hmem i) ltac:(lia)) as [E | Hin];
          [lia | exact Hin].
Qed.

Lemma bind_arrays_columns (cnn : cnn_prediction_dict)
    (ships : ships_prediction_dict) (a : arrays) :
  bind_arrays conv_pos conv_neg cnn ships = Ok a ->
  ships_lats a = init_latitudes_deg_n ships /\
  cnn_lats a = storm_latitudes_deg_n cnn /\
  conv_pos (init_longitudes_deg_e ships) = Ok (ships_pos_lngs a) /\
  conv_neg (init_longitudes_deg_e ships) = Ok (ships_neg_lngs a) /\
  conv_pos (storm_longitudes_deg_e cnn) = Ok (cnn_pos_lngs a) /\
  conv_neg (storm_longitudes_deg_e cnn) = Ok (cnn_neg_lngs a).
Proof.
  unfold bind_arrays. intros H.
  inv_bind_as H sp Hsp. inv_bind_as H sn Hsn.
  inv_bind_as H cp Hcp. inv_bind_as H cn Hcn.
  inversion H. simpl. auto 10.
Qed.

(** X7: matching a dataset against itself, with pairwise distinct init
    times, pairs every example with itself: [cnn_indices] is
    [0, ..., n - 1] and [ships_indices] holds the same numbers. *)
Theorem match_examples_self (cnn : cnn_prediction_dict)
    (ships : ships_prediction_dict) (a : arrays) :
  ships_init_times_unix_sec ships = cnn_init_times_unix_sec cnn ->
  init_latitudes_deg_n ships = storm_latitudes_deg_n cnn ->
  init_longitudes_deg_e ships = storm_longitudes_deg_e cnn ->
  NoDup (cnn_init_times_unix_sec cnn) ->
  bind_arrays conv_pos conv_neg cnn ships = Ok a ->
  lengths_agree a ->
  exists si,
    _match_examples conv_pos conv_neg cnn ships
    = Ok (seq 0 (List.length (cnn_init_times_unix_sec cnn)), si) /\
    List.length si = List.length (cnn_init_times_unix_sec cnn) /\
    forall k, (k < List.length (cnn_init_times_unix_sec cnn))%nat ->
              nth_error si k = Some (Z.of_nat k).
Proof.
  intros Etimes Elats Elngs Hnodup Ha Hagree.
  destruct (MatchClaims.bind_arrays_times conv_pos conv_neg _ _ _ Ha)
    as [Ec Es].
  destruct (bind_arrays_columns _ _ _ Ha)
    as (Hsl & Hcl & Hsp & Hsn & Hcp & Hcn).
  rewrite Elngs in Hsp, Hsn. rewrite Hcp in Hsp. rewrite Hcn in Hsn.
  inversion Hsp as [Epos]. inversion Hsn as [Eneg]. clear Hsp Hsn.
  assert (Elat : ships_lats a = cnn_lats a) by congruence.
  assert (Etime : ships_times a = cnn_times a) by congruence.
  assert (Hclose : forall i,
            F64.gtb (distance_deg a i i) MAX_DISTANCE_DEG = false).
  { intros i. unfold distance_deg, d_pos, d_neg.
    rewrite Elat, <- Epos, <- Eneg. apply self_distance_close. }
  assert (Hself : forall i j, candidate a i j -> j = i).
  { intros i j [t [Hi Hj]]. rewrite Etime in Hj.
    rewrite Ec in Hi, Hj.
    apply (proj1 (NoDup_nth_error (cnn_init_times_unix_sec cnn)) Hnodup).
    - apply nth_error_Some. congruence.
    - congruence. }
  destruct (match_examples_io_total conv_pos conv_neg [] cnn ships a
              Ha Hagree) as (out' & ci & si & Hrun).
  destruct (match_examples_io_inv _ _ _ _ _ _ _ _ Hrun)
    as (a' & Ha' & _ & Hsorted & Hlen & _ & Hmem & Hpair & Htot).
  rewrite Ha in Ha'. inversion Ha'; subst a'. clear Ha'.
  assert (Hfound : forall i, (i < List.length (cnn_times a))%nat ->
                             find_match a i = Ok (Some i)).
  { intros i Hi. destruct (Htot i Hi) as [r Hr].
    assert (Hcand : candidate a i i).
    { destruct (nth_error (cnn_times a) i) as [t |] eqn:Ht;
        [| apply nth_error_None in Ht; lia].
      exists t. rewrite Etime. auto. }
    destruct r as [j |].
    - destruct (find_match_Some a i j Hr) as [Hc _].
      rewrite (Hself i j Hc) in Hr. exact Hr.
    - pose proof (find_match_None a i Hr i Hcand) as Hgt.
      rewrite Hclose in Hgt. discriminate. }
  assert (Hci : ci = seq 0 (List.length (cnn_times a))).
  { apply sorted_range; [exact Hsorted |].
    intros i. rewrite Hmem. split.
    - intros [j Hj]. destruct (find_match_inv a i _ Hj) as [t [Ht _]].
      assert (i < List.length (cnn_times a))%nat
        by (apply nth_error_Some; congruence).
      lia.
    - intros Hi. exists i. apply Hfound. lia. }
  rewrite <- Ec. exists si. split.
  - apply match_examples_of_io. exists out'. rewrite <- Hci. exact Hrun.
  - split; [rewrite Hlen, Hci; apply length_seq |].
    intros k Hk.
    assert (Hk' : nth_error ci k = Some k).
    { rewrite Hci. rewrite nth_error_seq.
      destruct (Nat.ltb_spec k (List.length (cnn_times a)));
        [reflexivity | lia]. }
    destruct (Hpair k k Hk') as [j [Hj Hs]].
    rewrite (Hfound k Hk) in Hj. inversion Hj; subst j. exact Hs.
Qed.

End Extras.

Lemma bind_arrays_ragged :
  bind_arrays LngConversion.convert_lng_positive_in_west
    LngConversion.convert_lng_negative_in_west
    MoreExamples.cnn_ragged MoreExamples.ships_single
  = Ok MoreExamples.arrays_ragged.
Proof. reflexivity. Qed.

Lemma run_ragged :
  _match_examples LngConversion.convert_lng_positive_in_west
    LngConversion.convert_lng_negative_in_west
    MoreExamples.cnn_ragged MoreExamples.ships_single
  = Raise IndexError.
Proof.
  unfold _match_examples, returned, _match_examples_io.
  rewrite bind_arrays_ragged. reflexivity.
Qed.

Lemma bind_arrays_disjoint :
  bind_arrays LngConversion.convert_lng_positive_in_west
    LngConversion.convert_lng_negative_in_west
    Examples.cnn_ex MoreExamples.ships_disjoint
  = Ok MoreExamples.arrays_disjoint.
Proof. reflexivity. Qed.

Lemma disjoint_times (t : Z) :
  In t (cnn_init_times_unix_sec Examples.cnn_ex) ->
  ~ In t (ships_init_times_unix_sec MoreExamples.ships_disjoint).
Proof. simpl. intros H1 H2. lia. Qed.

Lemma bind_arrays_self :
  bind_arrays LngConversion.convert_lng_positive_in_west
    LngConversion.convert_lng_negative_in_west
    Examples.cnn_ex MoreExamples.ships_self
  = Ok MoreExamples.arrays_self.
Proof. reflexivity. Qed.

Lemma distinct_times : NoDup (cnn_init_times_unix_sec Examples.cnn_ex).
Proof.
  simpl. repeat constructor; simpl; lia.
Qed.

Lemma lengths_agree_self : lengths_agree MoreExamples.arrays_self.
Proof. unfold lengths_agree. simpl. auto 10. Qed.

(** The latitude column of the CNN data is empty: the loop fails at
    [cnn_latitudes_deg_n[0]]. *)
Lemma match_examples_raises_only_index_error_witness :
  bind_arrays LngConversion.convert_lng_positive_in_west
    LngConversion.convert_lng_negative_in_west
    MoreExamples.cnn_ragged MoreExamples.ships_single
  = Ok MoreExamples.arrays_ragged /\
  _match_examples LngConversion.convert_lng_positive_in_west
    LngConversion.convert_lng_negative_in_west
    MoreExamples.cnn_ragged MoreExamples.ships_single
  = Raise IndexError /\
  IndexError = IndexError /\ ~ lengths_agree MoreExamples.arrays_ragged.
Proof.
  split; [exact bind_arrays_ragged |]. split; [exact run_ragged |].
  exact (match_examples_raises_only_index_error
           LngConversion.convert_lng_positive_in_west
           LngConversion.convert_lng_negative_in_west
           MoreExamples.cnn_ragged MoreExamples.ships_single
           MoreExamples.arrays_ragged IndexError
           bind_arrays_ragged run_ragged).
Defined.

Lemma match_examples_disjoint_times_witness :
  bind_arrays LngConversion.convert_lng_positive_in_west
    LngConversion.convert_lng_negative_in_west
    Examples.cnn_ex MoreExamples.ships_disjoint
  = Ok MoreExamples.arrays_disjoint /\
  (forall t, In t (cnn_init_times_unix_sec Examples.cnn_ex) ->
             ~ In t (ships_init_times_unix_sec MoreExamples.ships_disjoint))
  /\
  _match_examples LngConversion.convert_lng_positive_in_west
    LngConversion.convert_lng_negative_in_west
    Examples.cnn_ex MoreExamples.ships_disjoint
  = Ok ([], []).
Proof.
  split; [exact bind_arrays_disjoint |]. split; [exact disjoint_times |].
  exact (match_examples_disjoint_times
           LngConversion.convert_lng_positive_in_west
           LngConversion.convert_lng_negative_in_west
           Examples.cnn_ex MoreExamples.ships_disjoint
           MoreExamples.arrays_disjoint
           bind_arrays_disjoint disjoint_times).
Defined.

Lemma match_examples_self_witness :
  NoDup (cnn_init_times_unix_sec Examples.cnn_ex) /\
  bind_arrays LngConversion.convert_lng_positive_in_west
    LngConversion.convert_lng_negative_in_west
    Examples.cnn_ex MoreExamples.ships_self
  = Ok MoreExamples.arrays_self /\
  lengths_agree MoreExamples.arrays_self /\
  exists si,
    _match_examples LngConversion.convert_lng_positive_in_west
      LngConversion.convert_lng_negative_in_west
      Examples.cnn_ex MoreExamples.ships_self
    = Ok (seq 0 (List.length (cnn_init_times_unix_sec Examples.cnn_ex)), si)
    /\
    List.length si = List.length (cnn_init_times_unix_sec Examples.cnn_ex) /\
    forall k,
      (k < List.length (cnn_init_times_unix_sec Examples.cnn_ex))%nat ->
      nth_error si k = Some (Z.of_nat k).
Proof.
  split; [exact distinct_times |]. split; [exact bind_arrays_self |].
  split; [exact lengths_agree_self |].
  exact (match_examples_self
           LngConversion.convert_lng_positive_in_west
           LngConversion.convert_lng_negative_in_west
           Examples.cnn_ex MoreExamples.ships_self MoreExamples.arrays_self
           eq_refl eq_refl eq_refl
           distinct_times bind_arrays_self lengths_agree_self).
Defined.

End MatchExtras.

(** ** Python idioms *)

Module PyFacts.

Lemma for_list_ok {A B : Type} (f : A -> result B) (xs : list A)
    (ys : list B) :
  Py.for_list f xs = Ok ys ->
  List.length ys = List.length xs /\
  forall k x, nth_error xs k = Some x ->
              exists y, f x = Ok y /\ nth_error ys k = Some y.
Proof.
  revert ys. induction xs as [| x xs IH]; simpl; intros ys H.
  - inversion H. split; [reflexivity |]. intros [| k] x Hk; discriminate.
  - inv_bind_as H y Hy. inv_bind_as H ys' Hys. inversion H; subst ys.
    destruct (IH _ Hys) as [Hlen Hnth]. split; [simpl; lia |].
    intros [| k] x' Hk; simpl in Hk.
    + inversion Hk; subst x'. exists y. auto.
    + apply Hnth. exact Hk.
Qed.

Lemma for_list_raise {A B : Type} (f : A -> result B) (xs : list A)
    (e : exn) :
  Py.for_list f xs = Raise e -> exists x, In x xs /\ f x = Raise e.
Proof.
  induction xs as [| x xs IH]; simpl; intros H; [discriminate |].
  destruct (f x) as [y | e'] eqn:Hx; simpl in H.
  - destruct (Py.for_list f xs) as [ys | e''] eqn:Hxs; simpl in H;
      [discriminate |].
    inversion H; subst e''. destruct (IH eq_refl) as [x' [Hin Hf]].
    exists x'. auto.
  - inversion H; subst e'. exists x. auto.
Qed.

Lemma for_list_total {A B : Type} (f : A -> result B) (xs : list A) :
  (forall x, In x xs -> exists y, f x = Ok y) ->
  exists ys, Py.for_list f xs = Ok ys.
Proof.
  induction xs as [| x xs IH]; simpl; intros H; [eauto |].
  destruct (H x (or_introl eq_refl)) as [y Hy].
  destruct IH as [ys Hys]; [intros x' Hx'; apply H; auto |].
  rewrite Hy, Hys. simpl. eauto.
Qed.

Lemma indices_of_spec (times : list Z) (t : Z) (j : nat) :
  In j (Py.indices_of times t) <-> nth_error times j = Some t.
Proof.
  unfold Py.indices_of. rewrite NpFacts.where_spec, nth_error_map.
  destruct (nth_error times j) as [s |]; simpl.
  - split; intros H; inversion H as [H'].
    + apply Z.eqb_eq in H'. congruence.
    + f_equal. apply Z.eqb_eq. reflexivity.
  - split; discriminate.
Qed.

(** The head of [numpy.where(times == t)[0]] is the first position of
    [t]. *)
Lemma indices_of_head (times : list Z) (t : Z) (p : nat) (rest : list nat) :
  Py.indices_of times t = p :: rest ->
  nth_error times p = Some t /\
  forall q, (q < p)%nat -> nth_error times q <> Some t.
Proof.
  intros H. split.
  - apply indices_of_spec. rewrite H. left. reflexivity.
  - intros q Hq Hqt. apply indices_of_spec in Hqt. rewrite H in Hqt.
    pose proof (NpFacts.where_from_sorted
                  (map (fun s => Z.eqb s t) times) 0) as Hs.
    fold (Np.where_ (map (fun s => Z.eqb s t) times)) in Hs.
    fold (Py.indices_of times t) in Hs. rewrite H in Hs.
    inversion Hs as [| ? ? _ Hall]; subst. rewrite Forall_forall in Hall.
    destruct Hqt as [E | Hin]; [lia |]. specialize (Hall q Hin). lia.
Qed.

Lemma indices_of_nil (times : list Z) (t : Z) :
  Py.indices_of times t = [] <-> ~ In t times.
Proof.
  split.
  - intros H Hin. destruct (In_nth_error _ _ Hin) as [j Hj].
    apply indices_of_spec in Hj. rewrite H in Hj. exact Hj.
  - intros Hnot. destruct (Py.indices_of times t) as [| j rest] eqn:E;
      [reflexivity |].
    exfalso. apply Hnot. destruct (indices_of_head _ _ _ _ E) as [Hj _].
    eapply nth_error_In; eauto.
Qed.

Lemma first_index_of_ok (times : list Z) (t : Z) (p : nat) :
  Py.first_index_of times t = Ok p <->
  nth_error times p = Some t /\
  forall q, (q < p)%nat -> nth_error times q <> Some t.
Proof.
  unfold Py.first_index_of, Np.item. split.
  - destruct (Py.indices_of times t) as [| j rest] eqn:E; simpl;
      [discriminate |].
    intros H. inversion H; subst j. eapply indices_of_head; eauto.
  - intros [Hp Hfirst].
    destruct (Py.indices_of times t) as [| j rest] eqn:E; simpl.
    + exfalso. apply (proj1 (indices_of_nil times t) E).
      eapply nth_error_In; eauto.
    + destruct (indices_of_head _ _ _ _ E) as [Hj Hjfirst].
      f_equal. destruct (Nat.lt_trichotomy j p) as [Hlt | [Heq | Hgt]];
        [| exact Heq |].
      * exfalso. exact (Hfirst j Hlt Hj).
      * exfalso. exact (Hjfirst p Hgt Hp).
Qed.

Lemma first_index_of_raise (times : list Z) (t : Z) (e : exn) :
  Py.first_index_of times t = Raise e <-> e = IndexError /\ ~ In t times.
Proof.
  unfold Py.first_index_of, Np.item. split.
  - destruct (Py.indices_of times t) as [| j rest] eqn:E; simpl;
      [| discriminate].
    intros H. inversion H. split; [reflexivity |].
    apply indices_of_nil. exact E.
  - intros [-> Hnot]. apply indices_of_nil in Hnot. rewrite Hnot.
    reflexivity.
Qed.

Lemma contains_In (times : list Z) (t : Z) :
  Py.contains times t = true <-> In t times.
Proof.
  unfold Py.contains. rewrite existsb_exists. split.
  - intros [s [Hs Heq]]. apply Z.eqb_eq in Heq. subst s. exact Hs.
  - intros H. exists t. split; [exact H | apply Z.eqb_refl].
Qed.

Lemma item_signed_raise {A : Type} (a : list A) (i : Z) (e : exn) :
  Py.item_signed a i = Raise e -> e = IndexError.
Proof.
  unfold Py.item_signed, Np.item.
  repeat match goal with
         | |- context [if ?c then _ else _] => destruct c
         | |- context [nth_error ?l ?n] => destruct (nth_error l n)
         end; intros H; inversion H; reflexivity.
Qed.

Lemma take_signed_ok {A : Type} (a : list A) (js : list Z) (xs : list A) :
  Py.take_signed a js = Ok xs ->
  List.length xs = List.length js /\
  forall k j, nth_error js k = Some j ->
    exists x, nth_error xs k = Some x /\ Py.item_signed a j = Ok x.
Proof.
  revert xs. induction js as [| j js IH]; simpl; intros xs H.
  - inversion H. split; [reflexivity |]. intros [| k] j Hk; discriminate.
  - inv_bind_as H x Hx. inv_bind_as H xs' Hxs. inversion H; subst xs.
    destruct (IH _ Hxs) as [Hlen Hnth]. split; [simpl; lia |].
    intros [| k] j' Hk; simpl in Hk.
    + inversion Hk; subst j'. exists x. auto.
    + apply Hnth. exact Hk.
Qed.

Lemma take_signed_total {A : Type} (a : list A) (js : list Z) :
  (forall j, In j js -> exists x, Py.item_signed a j = Ok x) ->
  exists xs, Py.take_signed a js = Ok xs.
Proof.
  induction js as [| j js IH]; simpl; intros H; [eauto |].
  destruct (H j (or_introl eq_refl)) as [x Hx].
  destruct IH as [xs Hxs]; [intros j' Hj'; apply H; auto |].
  rewrite Hx, Hxs. simpl. eauto.
Qed.

(** Either every wanted time is present or one of them is missing. *)
Lemma all_present_or_missing (wanted times : list Z) :
  (forall t, In t wanted -> In t times) \/
  (exists t, In t wanted /\ ~ In t times).
Proof.
  induction wanted as [| t wanted IH].
  - left. intros t [].
  - destruct (in_dec Z.eq_dec t times) as [Hin | Hout].
    + destruct IH as [Hall | [t' [Hw Hm]]].
      * left. intros t' [-> | Ht']; auto.
      * right. exists t'. split; [right |]; assumption.
    + right. exists t. split; [left; reflexivity | exact Hout].
Qed.

(** [a + n] on an [int64] array succeeds exactly for an [n] within
    [int64], and wraps every sum. *)
Lemma int64_array_add_ok (a : list Z) (n : Z) (r : list Z) :
  Py.int64_array_add a n = Ok r ->
  Py.in_int64 n = true /\ r = map (fun t => Py.wrap_int64 (t + n)) a.
Proof.
  unfold Py.int64_array_add. destruct (Py.in_int64 n); intros H;
    inversion H. auto.
Qed.

(** Within [int64] nothing wraps. *)
Lemma wrap_int64_id (z : Z) : Py.in_int64 z = true -> Py.wrap_int64 z = z.
Proof.
  unfold Py.in_int64, Py.wrap_int64, Py.INT64_MIN, Py.INT64_MAX.
  intros H. apply andb_true_iff in H. destruct H as [H1 H2].
  apply Z.leb_le in H1, H2.
  rewrite Z.mod_small by lia. lia.
Qed.

End PyFacts.

(** ** More about [match_cnn_predictions_to_ships.py] *)

Module MatchRunExtras.

Import Match MatchRun MatchFacts PyFacts.
Local Open Scope float_scope.

Lemma lead_time_index_of_cnn (cnn_leads ships_leads : list Z) (l : Z) :
  In l cnn_leads ->
  lead_time_index cnn_leads ships_leads l =
  (k <- Py.first_index_of ships_leads l ;; Ok (Z.of_nat k)).
Proof.
  intros H. unfold lead_time_index.
  rewrite (proj2 (contains_In cnn_leads l) H). reflexivity.
Qed.

(** X8: the lead-time lookup of [_run] never produces its placeholder -1:
    it returns, for each CNN lead time, the first position of that lead
    time among the SHIPS lead times, and it raises IndexError exactly when
    some CNN lead time is missing from the SHIPS lead times. *)
Theorem lead_time_indices_first_positions
    (cnn_lead_times_hours ships_lead_times_hours : list Z) :
  (forall indices,
     lead_time_indices cnn_lead_times_hours ships_lead_times_hours
     = Ok indices ->
     List.length indices = List.length cnn_lead_times_hours /\
     ~ In (-1)%Z indices /\
     forall k l, nth_error cnn_lead_times_hours k = Some l ->
       exists p,
         nth_error indices k = Some (Z.of_nat p) /\
         nth_error ships_lead_times_hours p = Some l /\
         forall q, (q < p)%nat ->
                   nth_error ships_lead_times_hours q <> Some l) /\
  ((exists e,
       lead_time_indices cnn_lead_times_hours ships_lead_times_hours
       = Raise e) <->
   exists l, In l cnn_lead_times_hours /\
             ~ In l ships_lead_times_hours) /\
  (forall e,
     lead_time_indices cnn_lead_times_hours ships_lead_times_hours
     = Raise e -> e = IndexError).
Proof.
  unfold lead_time_indices.
  assert (Hpos : forall indices,
    Py.for_list (lead_time_index cnn_lead_times_hours ships_lead_times_hours)
      cnn_lead_times_hours = Ok indices ->
    List.length indices = List.length cnn_lead_times_hours /\
    forall k l, nth_error cnn_lead_times_hours k = Some l ->
      exists p,
        nth_error indices k = Some (Z.of_nat p) /\
        nth_error ships_lead_times_hours p = Some l /\
        forall q, (q < p)%nat ->
                  nth_error ships_lead_times_hours q <> Some l).
  { intros indices H. destruct (for_list_ok _ _ _ H) as [Hlen Hnth].
    split; [exact Hlen |]. intros k l Hk.
    destruct (Hnth k l Hk) as [y [Hy Hyk]].
    rewrite lead_time_index_of_cnn in Hy by (eapply nth_error_In; eauto).
    inv_bind_as Hy p Hp. inversion Hy; subst y.
    apply first_index_of_ok in Hp. exists p. tauto. }
  split; [| split].
  - intros indices H. destruct (Hpos indices H) as [Hlen Hnth].
    split; [exact Hlen |]. split; [| exact Hnth].
    intros Hin. destruct (In_nth_error _ _ Hin) as [k Hk].
    destruct (nth_error cnn_lead_times_hours k) as [l |] eqn:Hl.
    + destruct (Hnth k l Hl) as [p [Hp _]]. rewrite Hp in Hk.
      inversion Hk. lia.
    + apply nth_error_None in Hl.
      assert (k < List.length indices)%nat
        by (apply nth_error_Some; congruence).
      lia.
  - split.
    + intros [e H]. destruct (for_list_raise _ _ _ H) as [l [Hl Hf]].
      rewrite lead_time_index_of_cnn in Hf by exact Hl.
      exists l. split; [exact Hl |].
      destruct (Py.first_index_of ships_lead_times_hours l) as [p | e']
        eqn:Hp; simpl in Hf; [discriminate |].
      apply first_index_of_raise in Hp. tauto.
    + intros [l [Hl Hnot]].
      destruct (Py.for_list _ cnn_lead_times_hours) as [indices | e] eqn:H;
        [| eauto].
      exfalso. destruct (In_nth_error _ _ Hl) as [k Hk].
      destruct (Hpos indices eq_refl) as [_ Hnth].
      destruct (Hnth k l Hk) as [p [_ [Hp _]]].
      apply Hnot. eapply nth_error_In; eauto.
  - intros e H. destruct (for_list_raise _ _ _ H) as [l [Hl Hf]].
    rewrite lead_time_index_of_cnn in Hf by exact Hl.
    destruct (Py.first_index_of ships_lead_times_hours l) as [p | e']
      eqn:Hp; simpl in Hf; [discriminate |].
    inversion Hf; subst e'. apply first_index_of_raise in Hp. tauto.
Qed.

Lemma item_signed_nat {A : Type} (a : list A) (j : nat) :
  Py.item_signed a (Z.of_nat j) = Np.item a j.
Proof.
  unfold Py.item_signed.
  destruct (Z.leb_spec 0 (Z.of_nat j)); [| lia].
  rewrite Nat2Z.id. reflexivity.
Qed.

Lemma take_signed_eq {A : Type} (a : list A) (js : list Z) :
  forall xs : list A,
    List.length js = List.length xs ->
    (forall k j, nth_error js k = Some j ->
       exists x, Py.item_signed a j = Ok x /\ nth_error xs k = Some x) ->
    Py.take_signed a js = Ok xs.
Proof.
  induction js as [| j js IH]; intros [| x xs] Hlen H; simpl in Hlen;
    try discriminate; [reflexivity |].
  simpl. destruct (H 0%nat j eq_refl) as [x' [Hx' Hx]].
  simpl in Hx. inversion Hx; subst x'. rewrite Hx'. simpl.
  rewrite (IH xs); [reflexivity | lia |].
  intros k j' Hk. apply (H (S k) j' Hk).
Qed.

Section Extras.

Variable conv_pos conv_neg : list float -> result (list float).

(** X9: the rows [_run] selects for the output file line up.  With
    columns of agreeing lengths and SHIPS probability rows of at least two
    entries, both selections succeed, every selected column has one entry
    per matched pair, and the init times taken from the CNN dictionary at
    [cnn_indices] are the SHIPS init times at [ships_indices]. *)
Theorem matched_rows_line_up (cnn : cnn_prediction_dict)
    (ships : ships_prediction_dict) (ci : list nat) (si : list Z)
    (use_ri_consensus : bool) :
  _match_examples conv_pos conv_neg cnn ships = Ok (ci, si) ->
  List.length (cyclone_id_strings cnn)
  = List.length (cnn_init_times_unix_sec cnn) ->
  List.length (storm_latitudes_deg_n cnn)
  = List.length (cnn_init_times_unix_sec cnn) ->
  List.length (storm_longitudes_deg_e cnn)
  = List.length (cnn_init_times_unix_sec cnn) ->
  List.length (ri_probabilities ships)
  = List.length (ships_init_times_unix_sec ships) ->
  Forall (fun row => (2 <= List.length row)%nat) (ri_probabilities ships) ->
  exists ids times lats lngs probs,
    select_cnn_rows cnn ci = Ok (ids, times, lats, lngs) /\
    select_ri_probabilities ships si use_ri_consensus = Ok probs /\
    List.length ids = List.length ci /\
    List.length times = List.length ci /\
    List.length lats = List.length ci /\
    List.length lngs = List.length ci /\
    List.length probs = List.length ci /\
    Py.take_signed (ships_init_times_unix_sec ships) si = Ok times.
Proof.
  intros H Lids Llats Llngs Lrows Hrows.
  apply match_examples_of_io in H. destruct H as [out' H].
  destruct (match_examples_io_inv _ _ _ _ _ _ _ _ H)
    as (a & Ha & _ & _ & Hlen & _ & Hmem & Hpair & _).
  destruct (MatchClaims.bind_arrays_times conv_pos conv_neg _ _ _ Ha)
    as [Ec Es].
  assert (Hrange : forall i, In i ci ->
            (i < List.length (cnn_init_times_unix_sec cnn))%nat).
  { intros i Hi. destruct (proj1 (Hmem i) Hi) as [j Hj].
    destruct (find_match_Some a i j Hj) as [[t [Ht _]] _].
    rewrite <- Ec. apply nth_error_Some. congruence. }
  destruct (NpFacts.take_in_range (cyclone_id_strings cnn) ci) as [ids Hids];
    [intros i Hi; rewrite Lids; auto |].
  destruct (NpFacts.take_in_range (cnn_init_times_unix_sec cnn) ci)
    as [times Htimes]; [auto |].
  destruct (NpFacts.take_in_range (storm_latitudes_deg_n cnn) ci)
    as [lats Hlats]; [intros i Hi; rewrite Llats; auto |].
  destruct (NpFacts.take_in_range (storm_longitudes_deg_e cnn) ci)
    as [lngs Hlngs]; [intros i Hi; rewrite Llngs; auto |].
  assert (Hsi : forall k s, nth_error si k = Some s ->
            exists i j t,
              nth_error ci k = Some i /\ s = Z.of_nat j /\
              nth_error (cnn_init_times_unix_sec cnn) i = Some t /\
              nth_error (ships_init_times_unix_sec ships) j = Some t).
  { intros k s Hk.
    destruct (nth_error ci k) as [i |] eqn:Hi.
    2:{ apply nth_error_None in Hi.
        assert (k < List.length si)%nat
          by (apply nth_error_Some; congruence).
        lia. }
    destruct (Hpair k i Hi) as [j [Hj Hsj]].
    destruct (find_match_Some a i j Hj) as [[t [Ht1 Ht2]] _].
    exists i, j, t. rewrite <- Ec, <- Es.
    repeat split; auto. congruence. }
  destruct (for_list_total
              (fun s =>
                 row <- Py.item_signed (ri_probabilities ships) s ;;
                 Np.item row (if use_ri_consensus then 1 else 0)%nat) si)
    as [probs Hprobs].
  { intros s Hs. destruct (In_nth_error _ _ Hs) as [k Hk].
    destruct (Hsi k s Hk) as (i & j & t & _ & -> & _ & Hj).
    rewrite item_signed_nat.
    destruct (NpFacts.item_in_range (ri_probabilities ships) j)
      as [row Hrow].
    { rewrite Lrows. apply nth_error_Some. congruence. }
    rewrite Hrow. simpl. apply NpFacts.item_in_range.
    rewrite Forall_forall in Hrows.
    apply NpFacts.item_ok in Hrow. apply nth_error_In in Hrow.
    specialize (Hrows row Hrow). destruct use_ri_consensus; lia. }
  exists ids, times, lats, lngs, probs.
  destruct (NpFacts.take_ok _ _ _ Hids) as [L1 _].
  destruct (NpFacts.take_ok _ _ _ Htimes) as [L2 Ntimes].
  destruct (NpFacts.take_ok _ _ _ Hlats) as [L3 _].
  destruct (NpFacts.take_ok _ _ _ Hlngs) as [L4 _].
  destruct (for_list_ok _ _ _ Hprobs) as [L5 _].
  split.
  { unfold select_cnn_rows. rewrite Hids, Htimes, Hlats, Hlngs.
    reflexivity. }
  split; [exact Hprobs |].
  repeat (split; [congruence |]).
  apply take_signed_eq; [congruence |].
  intros k s Hk. destruct (Hsi k s Hk) as (i & j & t & Hi & -> & Hti & Htj).
  exists t. rewrite item_signed_nat. split.
  - apply NpFacts.item_ok. exact Htj.
  - destruct (Ntimes k i Hi) as [E _]. congruence.
Qed.

End Extras.

Lemma rows_of_two :
  Forall (fun row : list float => (2 <= List.length row)%nat)
    (ri_probabilities Examples.ships_ex).
Proof. simpl. repeat constructor. Qed.

Lemma matched_rows_line_up_witness :
  _match_examples LngConversion.convert_lng_positive_in_west
    LngConversion.convert_lng_negative_in_west
    Examples.cnn_ex Examples.ships_ex
  = Ok ([0%nat], [1%Z]) /\
  Forall (fun row : list float => (2 <= List.length row)%nat)
    (ri_probabilities Examples.ships_ex) /\
  exists ids times lats lngs probs,
    select_cnn_rows Examples.cnn_ex [0%nat] = Ok (ids, times, lats, lngs) /\
    select_ri_probabilities Examples.ships_ex [1%Z] true = Ok probs /\
    List.length ids = List.length [0%nat] /\
    List.length times = List.length [0%nat] /\
    List.length lats = List.length [0%nat] /\
    List.length lngs = List.length [0%nat] /\
    List.length probs = List.length [0%nat] /\
    Py.take_signed (ships_init_times_unix_sec Examples.ships_ex) [1%Z]
    = Ok times.
Proof.
  split; [exact MatchRuns.run_ex |]. split; [exact rows_of_two |].
  exact (matched_rows_line_up
           LngConversion.convert_lng_positive_in_west
           LngConversion.convert_lng_negative_in_west
           Examples.cnn_ex Examples.ships_ex [0%nat] [1%Z] true
           MatchRuns.run_ex eq_refl eq_refl eq_refl eq_refl rows_of_two).
Defined.

End MatchRunExtras.

(** ** More about [plot_predictors.py] *)

Module PlotPredictorsExtras.

Import PlotPredictors PyFacts.
Local Open Scope R_scope.

(** [floor(sqrt(n))] is the integer square root. *)
Lemma floor_sqrt (n : nat) :
  Py.floor (sqrt (INR n)) = Z.of_nat (Nat.sqrt n).
Proof.
  unfold Py.floor. symmetry. apply Int_part_spec.
  rewrite <- INR_IZR_INZ.
  pose proof (Nat.sqrt_spec n (Nat.le_0_l n)) as [Hlo Hhi].
  assert (H1 : INR (Nat.sqrt n) <= sqrt (INR n)).
  { rewrite <- (sqrt_square (INR (Nat.sqrt n))) at 1 by apply pos_INR.
    apply sqrt_le_1_alt. rewrite <- mult_INR. apply le_INR. exact Hlo. }
  assert (H2 : sqrt (INR n) < INR (S (Nat.sqrt n))).
  { rewrite <- (sqrt_square (INR (S (Nat.sqrt n)))) by apply pos_INR.
    apply sqrt_lt_1_alt. split; [apply pos_INR |].
    rewrite <- mult_INR. apply lt_INR. exact Hhi. }
  rewrite S_INR in H2. lra.
Qed.

(** [ceil(n / r)] is the rounded-up quotient. *)
Lemma ceil_quotient (n r : nat) :
  (1 <= r)%nat ->
  Py.ceil (INR n / IZR (Z.of_nat r)) = Z.of_nat ((n + r - 1) / r).
Proof.
  intros Hr. unfold Py.ceil.
  set (q := ((n + r - 1) / r)%nat).
  assert (Hq : (n <= q * r /\ q * r < n + r)%nat).
  { pose proof (Nat.div_mod (n + r - 1) r ltac:(lia)) as Hdm.
    pose proof (Nat.mod_upper_bound (n + r - 1) r ltac:(lia)) as Hm.
    fold q in Hdm. nia. }
  destruct Hq as [Hlo Hhi].
  apply le_INR in Hlo. apply lt_INR in Hhi.
  rewrite mult_INR in Hlo, Hhi. rewrite plus_INR in Hhi.
  assert (Hrpos : 0 < INR r) by (apply lt_0_INR; lia).
  rewrite <- INR_IZR_INZ.
  assert (Hx : INR n / INR r * INR r = INR n) by (field; lra).
  assert (Hx1 : INR n / INR r <= INR q).
  { apply Rmult_le_reg_r with (INR r); [exact Hrpos |]. rewrite Hx. lra. }
  assert (Hx2 : INR q < INR n / INR r + 1).
  { apply Rmult_lt_reg_r with (INR r); [exact Hrpos |].
    rewrite Rmult_plus_distr_r, Hx. lra. }
  replace (Int_part (- (INR n / INR r))) with (- Z.of_nat q)%Z; [lia |].
  apply Int_part_spec. rewrite opp_IZR, <- INR_IZR_INZ. lra.
Qed.

(** X12: [_concat_panels] lays [n >= 1] panels out in [floor(sqrt(n))]
    rows and as many columns as it takes: the grid holds every panel, no
    column is left empty, and it has at least as many columns as rows and
    at most two more.  With no panel at all the division by zero rows
    raises. *)
Theorem panel_grid_holds_all_panels (num_panels : nat) :
  panel_grid 0 = None /\
  ((1 <= num_panels)%nat ->
   exists rows columns : nat,
     panel_grid num_panels = Some (Z.of_nat rows, Z.of_nat columns) /\
     rows = Nat.sqrt num_panels /\
     columns = ((num_panels + rows - 1) / rows)%nat /\
     (1 <= rows <= columns)%nat /\
     (columns <= rows + 2)%nat /\
     (num_panels <= rows * columns)%nat /\
     (rows * (columns - 1) < num_panels)%nat).
Proof.
  split.
  - unfold panel_grid. rewrite floor_sqrt. reflexivity.
  - intros Hn. set (rows := Nat.sqrt num_panels).
    set (columns := ((num_panels + rows - 1) / rows)%nat).
    pose proof (Nat.sqrt_spec num_panels (Nat.le_0_l _)) as [Hlo Hhi].
    fold rows in Hlo, Hhi.
    assert (Hrows : (1 <= rows)%nat).
    { destruct rows; [simpl in Hhi; lia | lia]. }
    assert (Hcol : (num_panels <= columns * rows /\
                    columns * rows < num_panels + rows)%nat).
    { pose proof (Nat.div_mod (num_panels + rows - 1) rows ltac:(lia))
        as Hdm.
      pose proof (Nat.mod_upper_bound (num_panels + rows - 1) rows
                    ltac:(lia)) as Hm.
      fold columns in Hdm. nia. }
    exists rows, columns. split.
    + unfold panel_grid. rewrite floor_sqrt. fold rows.
      destruct (Z.eqb_spec (Z.of_nat rows) 0); [lia |].
      rewrite ceil_quotient by exact Hrows. reflexivity.
    + split; [reflexivity |]. split; [reflexivity |].
      repeat split; nia.
Qed.

Lemma take_signed_raise {A : Type} (a : list A) (js : list Z) (e : exn) :
  Py.take_signed a js = Raise e -> e = IndexError.
Proof.
  induction js as [| j js IH]; simpl; intros H; [discriminate |].
  apply MatchExtras.bind_raise in H. destruct H as [H | [x [_ H]]].
  - eapply item_signed_raise; eauto.
  - apply MatchExtras.bind_raise in H. destruct H as [H | [xs [_ H]]];
      [auto | discriminate].
Qed.

Lemma first_index_of_present (times : list Z) (t : Z) :
  In t times -> exists p, Py.first_index_of times t = Ok p.
Proof.
  intros H. destruct (Py.first_index_of times t) as [p | e] eqn:E;
    [eauto |].
  apply first_index_of_raise in E. tauto.
Qed.

Section Extras.

Variable round_to_int : float -> Z.

Lemma get_intensities_inv (xt : example_table) (init_times : list Z)
    (lead_time_hours : Z) (current future : list Z) :
  _get_intensities round_to_int xt init_times lead_time_hours
  = Ok (current, future) ->
  List.length current = List.length init_times /\
  List.length future = List.length init_times /\
  forall k t, nth_error init_times k = Some t ->
    (exists p v,
        Py.first_index_of (ships_valid_times_unix_sec xt) t = Ok p /\
        nth_error (storm_intensities_m_s01 xt) p = Some v /\
        nth_error current k
        = Some (round_to_int (METRES_PER_SECOND_TO_KT * v)%float)) /\
    (~ In (Py.wrap_int64 (t + HOURS_TO_SECONDS * lead_time_hours))
          (ships_valid_times_unix_sec xt) ->
     nth_error future k = Some (round_to_int 0%float)) /\
    (forall p,
       Py.first_index_of (ships_valid_times_unix_sec xt)
         (Py.wrap_int64 (t + HOURS_TO_SECONDS * lead_time_hours)) = Ok p ->
       exists v,
         nth_error (storm_intensities_m_s01 xt) p = Some v /\
         nth_error future k
         = Some (round_to_int (METRES_PER_SECOND_TO_KT * v)%float)).
Proof.
  unfold _get_intensities. intros H.
  inv_bind_as H gi Hgi. inv_bind_as H vals Hvals.
  inv_bind_as H fut Hfut. apply int64_array_add_ok in Hfut.
  destruct Hfut as [_ ->].
  inv_bind_as H vals2 Hvals2. inversion H; subst current future; clear H.
  destruct (for_list_ok _ _ _ Hgi) as [Lgi Ngi].
  destruct (NpFacts.take_ok _ _ _ Hvals) as [Lv Nv].
  destruct (take_signed_ok _ _ _ Hvals2) as [Lv2 Nv2].
  rewrite !length_map in Lv2.
  split; [rewrite length_map; congruence |].
  split.
  { rewrite length_map, NpFacts.zip_with_length;
      rewrite !length_map; [reflexivity | congruence]. }
  intros k t Hk.
  assert (Hidx : nth_error
            (map (fun idcs : list nat =>
                    match idcs with
                    | [] => (-1)%Z
                    | i :: _ => Z.of_nat i
                    end)
               (map (fun t0 => Py.indices_of (ships_valid_times_unix_sec xt) t0)
                  (map (fun t0 =>
                          Py.wrap_int64
                            (t0 + HOURS_TO_SECONDS * lead_time_hours))
                     init_times))) k
          = Some (future_index (ships_valid_times_unix_sec xt)
                    (Py.wrap_int64
                       (t + HOURS_TO_SECONDS * lead_time_hours)))).
  { unfold future_index.
    apply (map_nth_error
             (fun idcs : list nat =>
                match idcs with
                | [] => (-1)%Z
                | i :: _ => Z.of_nat i
                end)).
    apply (map_nth_error
             (fun t0 => Py.indices_of (ships_valid_times_unix_sec xt) t0)).
    apply (map_nth_error
             (fun t0 =>
                Py.wrap_int64 (t0 + HOURS_TO_SECONDS * lead_time_hours))).
    exact Hk. }
  destruct (Nv2 k _ Hidx) as [v2 [Hv2 Hitem]].
  pose proof (NpFacts.zip_with_nth_error
                (fun (i : Z) (v : float) =>
                   if (i =? -1)%Z then 0%float
                   else (METRES_PER_SECOND_TO_KT * v)%float)
                _ _ k _ _ Hidx Hv2) as Hzip.
  apply (map_nth_error round_to_int) in Hzip.
  split; [| split].
  - destruct (Ngi k t Hk) as [p [Hp Hpk]].
    destruct (Nv k p Hpk) as [Hvk Hrange].
    destruct (nth_error (storm_intensities_m_s01 xt) p) as [v |] eqn:Hv;
      [| apply nth_error_None in Hv; lia].
    exists p, v. split; [exact Hp |]. split; [exact Hv |].
    apply (map_nth_error
             (fun v0 => round_to_int (METRES_PER_SECOND_TO_KT * v0)%float)).
    exact Hvk.
  - intros Hmissing. refine (eq_trans Hzip _). unfold future_index.
    rewrite (proj2 (indices_of_nil _ _) Hmissing). reflexivity.
  - intros p Hp. unfold Py.first_index_of, Np.item in Hp.
    unfold future_index in Hzip, Hitem.
    destruct (Py.indices_of (ships_valid_times_unix_sec xt)
                (Py.wrap_int64 (t + HOURS_TO_SECONDS * lead_time_hours)))
      as [| i rest]; simpl in Hp; [discriminate |].
    inversion Hp; subst i.
    rewrite MatchRunExtras.item_signed_nat in Hitem. apply NpFacts.item_ok in Hitem.
    exists v2. split; [exact Hitem |]. refine (eq_trans Hzip _).
    destruct (Z.eqb_spec (Z.of_nat p) (-1)); [lia | reflexivity].
Qed.

Lemma get_intensities_total (xt : example_table) (init_times : list Z)
    (lead_time_hours : Z) :
  List.length (storm_intensities_m_s01 xt)
  = List.length (ships_valid_times_unix_sec xt) ->
  Py.in_int64 (HOURS_TO_SECONDS * lead_time_hours) = true ->
  (forall t, In t init_times -> In t (ships_valid_times_unix_sec xt)) ->
  exists current future,
    _get_intensities round_to_int xt init_times lead_time_hours
    = Ok (current, future).
Proof.
  intros Hlen Hlead Hall. unfold _get_intensities.
  destruct (for_list_total
              (Py.first_index_of (ships_valid_times_unix_sec xt)) init_times)
    as [gi Hgi].
  { intros t Ht. apply first_index_of_present. auto. }
  rewrite Hgi. cbn [bind].
  destruct (for_list_ok _ _ _ Hgi) as [Lgi Ngi].
  destruct (NpFacts.take_in_range (storm_intensities_m_s01 xt) gi)
    as [vals Hvals].
  { intros p Hp. destruct (In_nth_error _ _ Hp) as [k Hk].
    destruct (nth_error init_times k) as [t |] eqn:Ht.
    2:{ apply nth_error_None in Ht.
        assert (k < List.length gi)%nat
          by (apply nth_error_Some; congruence).
        lia. }
    destruct (Ngi k t Ht) as [p' [Hp' Hk']].
    rewrite Hk in Hk'. inversion Hk'; subst p'.
    apply first_index_of_ok in Hp'. destruct Hp' as [Hp' _].
    rewrite Hlen. apply nth_error_Some. congruence. }
  rewrite Hvals. cbn [bind].
  unfold Py.int64_array_add. rewrite Hlead. cbn [bind].
  match goal with
  | |- context [Py.take_signed ?a ?js] =>
      destruct (take_signed_total a js) as [vals2 Hvals2]
  end.
  { intros idx Hidx.
    apply in_map_iff in Hidx. destruct Hidx as [idcs [<- Hidcs]].
    apply in_map_iff in Hidcs. destruct Hidcs as [t' [<- Ht']].
    apply in_map_iff in Ht'. destruct Ht' as [t [<- Ht]].
    destruct (Py.indices_of (ships_valid_times_unix_sec xt)
                (Py.wrap_int64 (t + HOURS_TO_SECONDS * lead_time_hours)))
      as [| i rest] eqn:E.
    - assert (Hne : (1 <= List.length (storm_intensities_m_s01 xt))%nat).
      { rewrite Hlen. specialize (Hall t Ht).
        destruct (ships_valid_times_unix_sec xt); [destruct Hall |].
        simpl. lia. }
      unfold Py.item_signed.
      destruct (Z.leb_spec 0 (-1)); [lia |].
      destruct (Z.leb_spec (- -1)
                  (Z.of_nat (List.length (storm_intensities_m_s01 xt))));
        [| lia].
      apply NpFacts.item_in_range. lia.
    - rewrite MatchRunExtras.item_signed_nat. apply NpFacts.item_in_range.
      destruct (indices_of_head _ _ _ _ E) as [Hi _].
      rewrite Hlen. apply nth_error_Some. congruence. }
  rewrite Hvals2. cbn [bind]. eauto.
Qed.

(** X10: on a table with one intensity per valid time, and with a lead
    time whose seconds fit [int64], [_get_intensities] returns exactly when
    every init time is among the table's valid times, and otherwise raises
    IndexError.  It returns one current and one future intensity per init
    time: the current one is the rounded intensity, in knots, at the first
    row with that time; the future one is that of the first row at init
    time plus lead time, the sum taken in [int64] with wrap-around, or the
    rounding of zero when the table has no such row. *)
Theorem get_intensities_by_time (xt : example_table) (init_times : list Z)
    (lead_time_hours : Z) :
  List.length (storm_intensities_m_s01 xt)
  = List.length (ships_valid_times_unix_sec xt) ->
  Py.in_int64 (HOURS_TO_SECONDS * lead_time_hours) = true ->
  ((forall t, In t init_times -> In t (ships_valid_times_unix_sec xt)) ->
   exists current future,
     _get_intensities round_to_int xt init_times lead_time_hours
     = Ok (current, future)) /\
  (forall e,
     _get_intensities round_to_int xt init_times lead_time_hours = Raise e ->
     e = IndexError /\
     exists t, In t init_times /\ ~ In t (ships_valid_times_unix_sec xt)) /\
  (forall current future,
     _get_intensities round_to_int xt init_times lead_time_hours
     = Ok (current, future) ->
     List.length current = List.length init_times /\
     List.length future = List.length init_times /\
     forall k t, nth_error init_times k = Some t ->
       (exists p v,
           Py.first_index_of (ships_valid_times_unix_sec xt) t = Ok p /\
           nth_error (storm_intensities_m_s01 xt) p = Some v /\
           nth_error current k
           = Some (round_to_int (METRES_PER_SECOND_TO_KT * v)%float)) /\
       (~ In (Py.wrap_int64 (t + HOURS_TO_SECONDS * lead_time_hours))
             (ships_valid_times_unix_sec xt) ->
        nth_error future k = Some (round_to_int 0%float)) /\
       (forall p,
          Py.first_index_of (ships_valid_times_unix_sec xt)
            (Py.wrap_int64 (t + HOURS_TO_SECONDS * lead_time_hours))
          = Ok p ->
          exists v,
            nth_error (storm_intensities_m_s01 xt) p = Some v /\
            nth_error future k
            = Some (round_to_int (METRES_PER_SECOND_TO_KT * v)%float))).
Proof.
  intros Hlen Hlead. split; [| split].
  - apply get_intensities_total; assumption.
  - intros e H. split.
    + unfold _get_intensities in H.
      apply MatchExtras.bind_raise in H. destruct H as [H | [gi [_ H]]].
      { destruct (for_list_raise _ _ _ H) as [t [_ Ht]].
        apply first_index_of_raise in Ht. tauto. }
      apply MatchExtras.bind_raise in H. destruct H as [H | [vals [_ H]]];
        [eapply MatchExtras.take_raise; eauto |].
      unfold Py.int64_array_add in H. rewrite Hlead in H. cbn [bind] in H.
      apply MatchExtras.bind_raise in H. destruct H as [H | [vals2 [_ H]]];
        [eapply take_signed_raise; eauto | discriminate].
    + destruct (all_present_or_missing init_times
                  (ships_valid_times_unix_sec xt)) as [Hall | Hmiss];
        [| exact Hmiss].
      destruct (get_intensities_total xt init_times lead_time_hours
                  Hlen Hlead Hall) as (c & f & Hok).
      rewrite Hok in H. discriminate.
  - apply get_intensities_inv.
Qed.

End Extras.

Lemma cyclone_rows_spec (d : prediction_table) (cid : string) (g : nat) :
  In g (Np.where_ (map (fun c => String.eqb c cid) (table_cyclone_ids d)))
  <-> nth_error (table_cyclone_ids d) g = Some cid.
Proof.
  rewrite NpFacts.where_spec, nth_error_map.
  destruct (nth_error (table_cyclone_ids d) g) as [c |]; simpl.
  - split; intros H; inversion H as [H'].
    + apply String.eqb_eq in H'. congruence.
    + f_equal. apply String.eqb_eq. reflexivity.
  - split; discriminate.
Qed.

(** The init times of the cyclone's rows, in row order. *)
Lemma cyclone_times (d : prediction_table) (cid : string) :
  List.length (table_init_times_unix_sec d)
  = List.length (table_cyclone_ids d) ->
  exists these_times,
    Np.take (table_init_times_unix_sec d)
      (Np.where_ (map (fun c => String.eqb c cid) (table_cyclone_ids d)))
    = Ok these_times /\
    forall t, In t these_times <-> exists g, is_row_of d cid t g.
Proof.
  intros Hlen.
  set (rows := Np.where_ (map (fun c => String.eqb c cid)
                            (table_cyclone_ids d))).
  destruct (NpFacts.take_in_range (table_init_times_unix_sec d) rows)
    as [these Hthese].
  { intros g Hg. apply cyclone_rows_spec in Hg. rewrite Hlen.
    apply nth_error_Some. congruence. }
  exists these. split; [exact Hthese |].
  destruct (NpFacts.take_ok _ _ _ Hthese) as [L N].
  intros t. split.
  - intros Ht. destruct (In_nth_error _ _ Ht) as [p Hp].
    destruct (nth_error rows p) as [g |] eqn:Hg.
    2:{ apply nth_error_None in Hg.
        assert (p < List.length these)%nat
          by (apply nth_error_Some; congruence).
        lia. }
    exists g. split.
    + apply cyclone_rows_spec. eapply nth_error_In; eauto.
    + destruct (N p g Hg) as [E _]. congruence.
  - intros [g [Hid Ht]]. apply cyclone_rows_spec in Hid.
    destruct (In_nth_error _ _ Hid) as [p Hp].
    destruct (N p g Hp) as [E _]. rewrite Ht in E.
    eapply nth_error_In; eauto.
Qed.

Lemma get_predictions_and_targets_inv (d : prediction_table) (cid : string)
    (init_times : list Z) (probs : list (list float)) (targets : list Z) :
  _get_predictions_and_targets d cid init_times = Ok (probs, targets) ->
  List.length probs = List.length init_times /\
  List.length targets = List.length init_times /\
  forall k t, nth_error init_times k = Some t ->
    exists g,
      is_row_of d cid t g /\
      (forall g', (g' < g)%nat -> ~ is_row_of d cid t g') /\
      nth_error targets k = nth_error (table_target_classes d) g /\
      nth_error probs k = nth_error (table_probability_matrix d) g.
Proof.
  unfold _get_predictions_and_targets. intros H.
  set (rows := Np.where_ (map (fun c => String.eqb c cid)
                            (table_cyclone_ids d))) in *.
  inv_bind_as H these Hthese. inv_bind_as H subs Hsubs.
  inv_bind_as H gi Hgi. inv_bind_as H tc Htc. inv_bind_as H pm Hpm.
  inversion H; subst probs targets; clear H.
  destruct (NpFacts.take_ok _ _ _ Hthese) as [Lthese Nthese].
  destruct (for_list_ok _ _ _ Hsubs) as [Lsubs Nsubs].
  destruct (NpFacts.take_ok _ _ _ Hgi) as [Lgi Ngi].
  destruct (NpFacts.take_ok _ _ _ Htc) as [Ltc Ntc].
  destruct (NpFacts.take_ok _ _ _ Hpm) as [Lpm Npm].
  split; [congruence |]. split; [congruence |].
  intros k t Hk.
  destruct (Nsubs k t Hk) as [p [Hp Hpk]].
  apply first_index_of_ok in Hp. destruct Hp as [Hpt Hfirst].
  destruct (Ngi k p Hpk) as [Egi Hprange].
  destruct (nth_error rows p) as [g |] eqn:Hg;
    [| apply nth_error_None in Hg; lia].
  destruct (Nthese p g Hg) as [Ethese _].
  exists g. split; [| split; [| split]].
  - split.
    + apply cyclone_rows_spec. eapply nth_error_In; eauto.
    + congruence.
  - intros g' Hlt [Hid' Ht'].
    apply cyclone_rows_spec in Hid'.
    destruct (In_nth_error _ _ Hid') as [p' Hp'].
    assert (Hpp : (p' < p)%nat).
    { eapply MatchFacts.sorted_positions_inv; eauto.
      apply NpFacts.where_from_sorted. }
    apply (Hfirst p' Hpp).
    destruct (Nthese p' g' Hp') as [E _]. congruence.
  - destruct (Ntc k g Egi) as [E _]. exact E.
  - destruct (Npm k g Egi) as [E _]. exact E.
Qed.

Lemma get_predictions_and_targets_total (d : prediction_table)
    (cid : string) (init_times : list Z) :
  List.length (table_init_times_unix_sec d)
  = List.length (table_cyclone_ids d) ->
  List.length (table_target_classes d)
  = List.length (table_cyclone_ids d) ->
  List.length (table_probability_matrix d)
  = List.length (table_cyclone_ids d) ->
  (forall t, In t init_times -> exists g, is_row_of d cid t g) ->
  exists probs targets,
    _get_predictions_and_targets d cid init_times = Ok (probs, targets).
Proof.
  intros Ltimes Ltargets Lprobs Hall.
  unfold _get_predictions_and_targets.
  set (rows := Np.where_ (map (fun c => String.eqb c cid)
                            (table_cyclone_ids d))).
  destruct (cyclone_times d cid Ltimes) as [these [Hthese Hmem]].
  fold rows in Hthese. rewrite Hthese. cbn [bind].
  destruct (NpFacts.take_ok _ _ _ Hthese) as [Lthese _].
  destruct (for_list_total (Py.first_index_of these) init_times)
    as [subs Hsubs].
  { intros t Ht. apply first_index_of_present. apply Hmem. auto. }
  rewrite Hsubs. cbn [bind].
  destruct (for_list_ok _ _ _ Hsubs) as [Lsubs Nsubs].
  destruct (NpFacts.take_in_range rows subs) as [gi Hgi].
  { intros p Hp. destruct (In_nth_error _ _ Hp) as [k Hk].
    destruct (nth_error init_times k) as [t |] eqn:Ht.
    2:{ apply nth_error_None in Ht.
        assert (k < List.length subs)%nat
          by (apply nth_error_Some; congruence).
        lia. }
    destruct (Nsubs k t Ht) as [p' [Hp' Hk']].
    rewrite Hk in Hk'. inversion Hk'; subst p'.
    apply first_index_of_ok in Hp'. destruct Hp' as [Hp' _].
    rewrite <- Lthese. apply nth_error_Some. congruence. }
  rewrite Hgi. cbn [bind].
  destruct (NpFacts.take_ok _ _ _ Hgi) as [Lgi Ngi].
  assert (Hrange : forall g, In g gi ->
            (g < List.length (table_cyclone_ids d))%nat).
  { intros g Hg. destruct (In_nth_error _ _ Hg) as [k Hk].
    destruct (nth_error subs k) as [p |] eqn:Hp.
    2:{ apply nth_error_None in Hp.
        assert (k < List.length gi)%nat
          by (apply nth_error_Some; congruence).
        lia. }
    destruct (Ngi k p Hp) as [E _]. rewrite Hk in E. symmetry in E.
    apply nth_error_In in E. apply cyclone_rows_spec in E.
    apply nth_error_Some. congruence. }
  destruct (NpFacts.take_in_range (table_target_classes d) gi) as [tc Htc];
    [intros g Hg; rewrite Ltargets; auto |].
  destruct (NpFacts.take_in_range (table_probability_matrix d) gi)
    as [pm Hpm]; [intros g Hg; rewrite Lprobs; auto |].
  rewrite Htc, Hpm. cbn [bind]. eauto.
Qed.

(** X11: on a table whose four columns have one length,
    [_get_predictions_and_targets] returns exactly when every wanted init
    time has a row of the wanted cyclone, and otherwise raises IndexError.
    Entry [k] of what it returns is the target class and the probability
    row of the first table row that has the cyclone's ID and init
    time [k]. *)
Theorem get_predictions_and_targets_by_cyclone_and_time
    (d : prediction_table) (cid : string) (init_times : list Z) :
  List.length (table_init_times_unix_sec d)
  = List.length (table_cyclone_ids d) ->
  List.length (table_target_classes d)
  = List.length (table_cyclone_ids d) ->
  List.length (table_probability_matrix d)
  = List.length (table_cyclone_ids d) ->
  ((forall t, In t init_times -> exists g, is_row_of d cid t g) ->
   exists probs targets,
     _get_predictions_and_targets d cid init_times = Ok (probs, targets)) /\
  (forall e,
     _get_predictions_and_targets d cid init_times = Raise e ->
     e = IndexError /\
     exists t, In t init_times /\ forall g, ~ is_row_of d cid t g) /\
  (forall probs targets,
     _get_predictions_and_targets d cid init_times = Ok (probs, targets) ->
     List.length probs = List.length init_times /\
     List.length targets = List.length init_times /\
     forall k t, nth_error init_times k = Some t ->
       exists g,
         is_row_of d cid t g /\
         (forall g', (g' < g)%nat -> ~ is_row_of d cid t g') /\
         nth_error targets k = nth_error (table_target_classes d) g /\
         nth_error probs k = nth_error (table_probability_matrix d) g).
Proof.
  intros Ltimes Ltargets Lprobs. split; [| split].
  - apply get_predictions_and_targets_total; assumption.
  - intros e H. split.
    + unfold _get_predictions_and_targets in H.
      apply MatchExtras.bind_raise in H. destruct H as [H | [these [_ H]]];
        [eapply MatchExtras.take_raise; eauto |].
      apply MatchExtras.bind_raise in H. destruct H as [H | [subs [_ H]]].
      { destruct (for_list_raise _ _ _ H) as [t [_ Ht]].
        apply first_index_of_raise in Ht. tauto. }
      apply MatchExtras.bind_raise in H. destruct H as [H | [gi [_ H]]];
        [eapply MatchExtras.take_raise; eauto |].
      apply MatchExtras.bind_raise in H. destruct H as [H | [tc [_ H]]];
        [eapply MatchExtras.take_raise; eauto |].
      apply MatchExtras.bind_raise in H. destruct H as [H | [pm [_ H]]];
        [eapply MatchExtras.take_raise; eauto | discriminate].
    + destruct (cyclone_times d cid Ltimes) as [these [_ Hmem]].
      destruct (all_present_or_missing init_times these)
        as [Hall | [t [Ht Hmiss]]].
      * destruct (get_predictions_and_targets_total d cid init_times
                    Ltimes Ltargets Lprobs) as (pm & tc & Hok).
        { intros t Ht. apply Hmem. auto. }
        rewrite Hok in H. discriminate.
      * exists t. split; [exact Ht |]. intros g Hg. apply Hmiss.
        apply Hmem. eauto.
  - apply get_predictions_and_targets_inv.
Qed.

(** Two init times of a three-row table, with a lead time of one hour:
    the future of time 7200 is not in the table. *)
Lemma get_intensities_by_time_witness :
  List.length (storm_intensities_m_s01 MoreExamples.example_table_ex)
  = List.length (ships_valid_times_unix_sec MoreExamples.example_table_ex) /\
  Py.in_int64 (HOURS_TO_SECONDS * 1) = true /\
  ((forall t, In t [0; 7200]%Z ->
              In t (ships_valid_times_unix_sec
                      MoreExamples.example_table_ex)) ->
   exists current future,
     _get_intensities MoreExamples.round_half_even
       MoreExamples.example_table_ex [0; 7200]%Z 1
     = Ok (current, future)) /\
  (forall e,
     _get_intensities MoreExamples.round_half_even
       MoreExamples.example_table_ex [0; 7200]%Z 1 = Raise e ->
     e = IndexError /\
     exists t, In t [0; 7200]%Z /\
               ~ In t (ships_valid_times_unix_sec
                         MoreExamples.example_table_ex)) /\
  (forall current future,
     _get_intensities MoreExamples.round_half_even
       MoreExamples.example_table_ex [0; 7200]%Z 1
     = Ok (current, future) ->
     List.length current = List.length [0; 7200]%Z /\
     List.length future = List.length [0; 7200]%Z /\
     forall k t, nth_error [0; 7200]%Z k = Some t ->
       (exists p v,
           Py.first_index_of
             (ships_valid_times_unix_sec MoreExamples.example_table_ex) t
           = Ok p /\
           nth_error
             (storm_intensities_m_s01 MoreExamples.example_table_ex) p
           = Some v /\
           nth_error current k
           = Some (MoreExamples.round_half_even
                     (METRES_PER_SECOND_TO_KT * v)%float)) /\
       (~ In (Py.wrap_int64 (t + HOURS_TO_SECONDS * 1))
             (ships_valid_times_unix_sec MoreExamples.example_table_ex) ->
        nth_error future k = Some (MoreExamples.round_half_even 0%float)) /\
       (forall p,
          Py.first_index_of
            (ships_valid_times_unix_sec MoreExamples.example_table_ex)
            (Py.wrap_int64 (t + HOURS_TO_SECONDS * 1)) = Ok p ->
          exists v,
            nth_error
              (storm_intensities_m_s01 MoreExamples.example_table_ex) p
            = Some v /\
            nth_error future k
            = Some (MoreExamples.round_half_even
                      (METRES_PER_SECOND_TO_KT * v)%float))).
Proof.
  split; [reflexivity |]. split; [reflexivity |].
  exact (get_intensities_by_time MoreExamples.round_half_even
           MoreExamples.example_table_ex [0; 7200]%Z 1%Z eq_refl eq_refl).
Defined.

(** The two rows of cyclone 2005AL01, asked for in reverse order. *)
Lemma get_predictions_and_targets_by_cyclone_and_time_witness :
  List.length (table_init_times_unix_sec MoreExamples.prediction_table_ex)
  = List.length (table_cyclone_ids MoreExamples.prediction_table_ex) /\
  List.length (table_target_classes MoreExamples.prediction_table_ex)
  = List.length (table_cyclone_ids MoreExamples.prediction_table_ex) /\
  List.length (table_probability_matrix MoreExamples.prediction_table_ex)
  = List.length (table_cyclone_ids MoreExamples.prediction_table_ex) /\
  ((forall t, In t [3600; 0]%Z ->
      exists g,
        is_row_of MoreExamples.prediction_table_ex "2005AL01" t g) ->
   exists probs targets,
     _get_predictions_and_targets MoreExamples.prediction_table_ex
       "2005AL01" [3600; 0]%Z
     = Ok (probs, targets)) /\
  (forall e,
     _get_predictions_and_targets MoreExamples.prediction_table_ex
       "2005AL01" [3600; 0]%Z = Raise e ->
     e = IndexError /\
     exists t, In t [3600; 0]%Z /\
       forall g,
         ~ is_row_of MoreExamples.prediction_table_ex "2005AL01" t g) /\
  (forall probs targets,
     _get_predictions_and_targets MoreExamples.prediction_table_ex
       "2005AL01" [3600; 0]%Z
     = Ok (probs, targets) ->
     List.length probs = List.length [3600; 0]%Z /\
     List.length targets = List.length [3600; 0]%Z /\
     forall k t, nth_error [3600; 0]%Z k = Some t ->
       exists g,
         is_row_of MoreExamples.prediction_table_ex "2005AL01" t g /\
         (forall g', (g' < g)%nat ->
            ~ is_row_of MoreExamples.prediction_table_ex "2005AL01" t g') /\
         nth_error targets k
         = nth_error
             (table_target_classes MoreExamples.prediction_table_ex) g /\
         nth_error probs k
         = nth_error
             (table_probability_matrix MoreExamples.prediction_table_ex) g).
Proof.
  split; [reflexivity |]. split; [reflexivity |]. split; [reflexivity |].
  exact (get_predictions_and_targets_by_cyclone_and_time
           MoreExamples.prediction_table_ex "2005AL01" [3600; 0]%Z
           eq_refl eq_refl eq_refl).
Defined.

End PlotPredictorsExtras.

(** ** More about [satellite_plotting.py] *)

Module SatellitePlottingExtras.

Import SatellitePlotting ErrorChecking SatellitePlottingClaims.
Local Open Scope float_scope.

Lemma edges_of_short_array (p edges : list float) :
  _grid_points_to_edges p = Ok edges ->
  (1 <= List.length p)%nat /\ (List.length p = 1%nat -> edges = []).
Proof.
  destruct p as [| x [| y rest]]; intros H.
  - discriminate H.
  - inversion H. split; [simpl; lia | reflexivity].
  - split; [simpl; lia | simpl; lia].
Qed.

Lemma edges_length (p edges : list float) :
  _grid_points_to_edges p = Ok edges ->
  (2 <= List.length p)%nat ->
  List.length edges = S (List.length p).
Proof.
  intros H HP. rewrite (grid_points_to_edges_value p HP) in H.
  inversion H. simpl. rewrite length_app, midpoints_length. simpl. lia.
Qed.

(** With [allow_nan=True] the check lets the NaN entries through. *)
Lemma greater_array_or_nan_Forall (values : list float) (base : float) :
  assert_is_greater_numpy_array values base true = Ok tt ->
  Forall (fun v => is_nan v = true \/ (base <? v) = true) values.
Proof.
  unfold assert_is_greater_numpy_array.
  destruct (forallb _ values) eqn:E; [| discriminate]. intros _.
  rewrite forallb_forall in E. apply Forall_forall. intros v Hv.
  specialize (E v Hv). apply orb_true_iff in E. exact E.
Qed.

Lemma valid_lat_Forall (values : list float) :
  assert_is_valid_lat_numpy_array values = Ok tt ->
  Forall (fun v => (-90 <=? v) = true /\ (v <=? 90) = true) values.
Proof.
  unfold assert_is_valid_lat_numpy_array.
  destruct (forallb _ values) eqn:E; [| discriminate]. intros _.
  rewrite forallb_forall in E. apply Forall_forall. intros v Hv.
  specialize (E v Hv). apply andb_true_iff in E. exact E.
Qed.

Section Extras.

Variable convert_lng_negative_in_west : ndarray -> result ndarray.
Variable draw_contours :
  ndarray -> ndarray -> ndarray -> float -> float -> Z -> result unit.

(** X15: when [plot_2d_grid_regular] gets as far as drawing, every
    brightness temperature is positive or NaN, every latitude lies in
    [-90, 90], latitudes and converted longitudes increase strictly, and
    the cell edges it hands to [pcolormesh] come from non-empty coordinate
    arrays: with two or more coordinates there is one edge more than
    coordinates; with a single coordinate the edge array is empty. *)
Theorem plot_2d_grid_regular_edges (bt lat lon : ndarray)
    (cbar : option string) (edge_lngs edge_lats : list float) :
  plot_2d_grid_regular convert_lng_negative_in_west bt lat lon cbar
  = Ok (edge_lngs, edge_lats) ->
  exists lon',
    convert_lng_negative_in_west lon = Ok lon' /\
    _grid_points_to_edges (flat lat) = Ok edge_lats /\
    _grid_points_to_edges (flat lon') = Ok edge_lngs /\
    Forall (fun v => is_nan v = true \/ (0 <? v) = true) (flat bt) /\
    Forall (fun v => (-90 <=? v) = true /\ (v <=? 90) = true) (flat lat) /\
    strictly_increasing (flat lat) /\
    strictly_increasing (flat lon') /\
    (1 <= List.length (flat lat))%nat /\
    (1 <= List.length (flat lon'))%nat /\
    (List.length (flat lat) = 1%nat -> edge_lats = []) /\
    (List.length (flat lon') = 1%nat -> edge_lngs = []) /\
    ((2 <= List.length (flat lat))%nat ->
     List.length edge_lats = S (List.length (flat lat))) /\
    ((2 <= List.length (flat lon'))%nat ->
     List.length edge_lngs = S (List.length (flat lon'))).
Proof.
  unfold plot_2d_grid_regular. intros H.
  inv_bind_as H u1 Hdim.
  inv_bind_as H u2 Hvalid. destruct u2. apply valid_lat_Forall in Hvalid.
  inv_bind_as H u3 Hlat. destruct u3. apply diff_positive in Hlat.
  inv_bind_as H u4 Hdim2.
  inv_bind_as H lon' Hlon'.
  inv_bind_as H u5 Hlng. destruct u5. apply diff_positive in Hlng.
  inv_bind_as H rows Hrows.
  inv_bind_as H cols Hcols.
  inv_bind_as H u6 Hshape.
  inv_bind_as H u7 Htemp. destruct u7.
  apply greater_array_or_nan_Forall in Htemp.
  inv_bind_as H elat Helat.
  inv_bind_as H elon Helon.
  inversion H; subst edge_lngs edge_lats; clear H.
  destruct (edges_of_short_array _ _ Helat) as [Nlat Slat].
  destruct (edges_of_short_array _ _ Helon) as [Nlon Slon].
  exists lon'. repeat (split; [assumption |]). split.
  - apply edges_length. exact Helat.
  - apply edges_length. exact Helon.
Qed.

Lemma max_of_pair_left (a b : float) :
  (a <? b) = false -> F64.max_of_pair a b = a.
Proof. intros H. unfold F64.max_of_pair. rewrite H. reflexivity. Qed.

Lemma max_of_pair_left_geq (a : float) (b : float) :
  is_nan a = false ->
  (a <=? F64.max_of_pair a b) = true.
Proof.
  intros Ha. unfold F64.max_of_pair. destruct (a <? b) eqn:H.
  - apply FloatFacts.float_ltb_leb. exact H.
  - apply FloatFacts.float_leb_refl. exact Ha.
Qed.

Lemma contour_bounds_fixed (min_value max_value : float) :
  (TOLERANCE <=? min_value) = true ->
  (min_value + TOLERANCE <=? max_value) = true ->
  contour_bounds min_value max_value = (min_value, max_value).
Proof.
  intros H1 H2. unfold contour_bounds.
  rewrite (max_of_pair_left min_value)
    by (apply FloatFacts.float_leb_not_ltb; exact H1).
  rewrite max_of_pair_left
    by (apply FloatFacts.float_leb_not_ltb; exact H2).
  reflexivity.
Qed.

Lemma contour_bounds_idempotent (min_value max_value : float) :
  contour_bounds (fst (contour_bounds min_value max_value))
    (snd (contour_bounds min_value max_value))
  = contour_bounds min_value max_value.
Proof.
  unfold contour_bounds. simpl fst. simpl snd.
  set (lo := F64.max_of_pair min_value TOLERANCE).
  assert (Hlo : F64.max_of_pair lo TOLERANCE = lo).
  { apply max_of_pair_left. apply max_of_pair_not_below. }
  rewrite Hlo.
  rewrite (max_of_pair_left (F64.max_of_pair max_value (lo + TOLERANCE)))
    by apply max_of_pair_not_below.
  reflexivity.
Qed.

Lemma plot_saliency_bounds (m lat lon : ndarray) (mn mx : float) (n : Z)
    (r : float * float) :
  plot_saliency draw_contours m lat lon mn mx n = Ok r ->
  r = contour_bounds mn mx.
Proof.
  unfold plot_saliency. intros H.
  inv_bind H. inv_bind H. inv_bind H. inversion H. reflexivity.
Qed.

Lemma plot_class_activation_bounds (m lat lon : ndarray) (mn mx : float)
    (n : Z) (r : float * float) :
  plot_class_activation draw_contours m lat lon mn mx n = Ok r ->
  r = contour_bounds mn mx.
Proof.
  unfold plot_class_activation. intros H.
  inv_bind H. inv_bind H. inv_bind H. inversion H. reflexivity.
Qed.

(** X16: [plot_saliency] and [plot_class_activation] only ever raise the
    bounds they are given (a returned bound is never below the one passed,
    and is at least the one passed unless that is NaN), return them
    unchanged when the minimum is at least [TOLERANCE] and the maximum at
    least the sum of minimum and [TOLERANCE], and a further call of either
    function on the returned bounds returns them again. *)
Theorem contour_bounds_stable (m lat lon : ndarray) (mn mx : float) (n : Z)
    (r : float * float) :
  plot_saliency draw_contours m lat lon mn mx n = Ok r \/
  plot_class_activation draw_contours m lat lon mn mx n = Ok r ->
  ((fst r <? mn) = false /\ (snd r <? mx) = false) /\
  ((is_nan mn = false -> (mn <=? fst r) = true) /\
   (is_nan mx = false -> (mx <=? snd r) = true)) /\
  ((TOLERANCE <=? mn) = true -> (mn + TOLERANCE <=? mx) = true ->
   r = (mn, mx)) /\
  (forall m' lat' lon' n' r',
     plot_saliency draw_contours m' lat' lon' (fst r) (snd r) n' = Ok r' \/
     plot_class_activation draw_contours m' lat' lon' (fst r) (snd r) n'
     = Ok r' ->
     r' = r).
Proof.
  intros H.
  assert (Hr : r = contour_bounds mn mx).
  { destruct H as [H | H];
      [eapply plot_saliency_bounds | eapply plot_class_activation_bounds];
      eauto. }
  subst r. split; [| split; [| split]].
  - unfold contour_bounds. simpl. split; apply max_of_pair_not_below.
  - unfold contour_bounds. simpl.
    split; intros Hnan; apply max_of_pair_left_geq; exact Hnan.
  - intros H1 H2. apply contour_bounds_fixed; assumption.
  - intros m' lat' lon' n' r' H'.
    rewrite <- contour_bounds_idempotent.
    destruct H' as [H' | H'];
      [eapply plot_saliency_bounds | eapply plot_class_activation_bounds];
      eauto.
Qed.

End Extras.

Lemma plot_2d_grid_regular_edges_witness :
  plot_2d_grid_regular LngConversion.convert_array_negative_in_west
    Examples.grid_matrix Examples.grid_latitudes Examples.grid_longitudes
    None
  = Ok ([19.5; 20.5; 21.5], [9.5; 10.5; 11.5]) /\
  exists lon',
    LngConversion.convert_array_negative_in_west Examples.grid_longitudes
    = Ok lon' /\
    _grid_points_to_edges (flat Examples.grid_latitudes)
    = Ok [9.5; 10.5; 11.5] /\
    _grid_points_to_edges (flat lon') = Ok [19.5; 20.5; 21.5] /\
    Forall (fun v => is_nan v = true \/ (0 <? v) = true)
      (flat Examples.grid_matrix) /\
    Forall (fun v => (-90 <=? v) = true /\ (v <=? 90) = true)
      (flat Examples.grid_latitudes) /\
    strictly_increasing (flat Examples.grid_latitudes) /\
    strictly_increasing (flat lon') /\
    (1 <= List.length (flat Examples.grid_latitudes))%nat /\
    (1 <= List.length (flat lon'))%nat /\
    (List.length (flat Examples.grid_latitudes) = 1%nat ->
     [9.5; 10.5; 11.5] = []) /\
    (List.length (flat lon') = 1%nat -> [19.5; 20.5; 21.5] = []) /\
    ((2 <= List.length (flat Examples.grid_latitudes))%nat ->
     List.length [9.5; 10.5; 11.5]%float
     = S (List.length (flat Examples.grid_latitudes))) /\
    ((2 <= List.length (flat lon'))%nat ->
     List.length [19.5; 20.5; 21.5]%float = S (List.length (flat lon'))).
Proof.
  split; [exact plot_grid_run |].
  exact (plot_2d_grid_regular_edges
           LngConversion.convert_array_negative_in_west
           Examples.grid_matrix Examples.grid_latitudes
           Examples.grid_longitudes None _ _ plot_grid_run).
Defined.

Lemma contour_bounds_stable_witness :
  (plot_saliency Examples.draw_nothing Examples.grid_matrix
     Examples.grid_latitudes Examples.grid_longitudes (-1) (-2) 5
   = Ok (0x1.0c6f7a0b5ed8dp-20, 0x1.0c6f7a0b5ed8dp-19) \/
   plot_class_activation Examples.draw_nothing Examples.grid_matrix
     Examples.grid_latitudes Examples.grid_longitudes (-1) (-2) 5
   = Ok (0x1.0c6f7a0b5ed8dp-20, 0x1.0c6f7a0b5ed8dp-19)) /\
  ((0x1.0c6f7a0b5ed8dp-20 <? -1) = false /\
   (0x1.0c6f7a0b5ed8dp-19 <? -2) = false) /\
  ((is_nan (-1) = false -> (-1 <=? 0x1.0c6f7a0b5ed8dp-20) = true) /\
   (is_nan (-2) = false -> (-2 <=? 0x1.0c6f7a0b5ed8dp-19) = true)) /\
  ((TOLERANCE <=? -1) = true -> (-1 + TOLERANCE <=? -2) = true ->
   (0x1.0c6f7a0b5ed8dp-20, 0x1.0c6f7a0b5ed8dp-19) = (-1, -2)) /\
  (forall m' lat' lon' n' r',
     plot_saliency Examples.draw_nothing m' lat' lon'
       0x1.0c6f7a0b5ed8dp-20 0x1.0c6f7a0b5ed8dp-19 n' = Ok r' \/
     plot_class_activation Examples.draw_nothing m' lat' lon'
       0x1.0c6f7a0b5ed8dp-20 0x1.0c6f7a0b5ed8dp-19 n' = Ok r' ->
     r' = (0x1.0c6f7a0b5ed8dp-20, 0x1.0c6f7a0b5ed8dp-19)).
Proof.
  split; [left; exact plot_saliency_run |].
  exact (contour_bounds_stable Examples.draw_nothing
           Examples.grid_matrix Examples.grid_latitudes
           Examples.grid_longitudes (-1) (-2) 5
           (0x1.0c6f7a0b5ed8dp-20, 0x1.0c6f7a0b5ed8dp-19)
           (or_introl plot_saliency_run)).
Defined.

End SatellitePlottingExtras.

(** ** More about [plot_occlusion_maps.py] *)

Module PlotOcclusionMapsExtras.

Import SatellitePlotting PlotOcclusionMaps.
Local Open Scope float_scope.

Section Extras.

Variable draw_contours :
  ndarray -> ndarray -> ndarray -> float -> float -> Z -> result unit.
Variable save_panel : nat -> result unit.

(** X17: the loop over lag times of [_plot_occlusion_map_one_example]
    adjusts the contour bounds once and for all: after one or more panels
    the bounds it leaves for the colour bar are those of the first panel,
    [contour_bounds] of the percentiles it started from: the minimum never
    below [TOLERANCE], the maximum never below the binary64 sum of minimum
    and [TOLERANCE], and at least these when the percentiles are not NaN.
    With no lag time at all the percentiles reach the colour bar
    untouched. *)
Theorem plot_panels_bounds (occlusion_matrix : ndarray)
    (latitudes longitudes : nat -> ndarray) (normalized : bool)
    (range : list nat) (mn mx : float) (r : float * float) :
  plot_panels draw_contours save_panel occlusion_matrix latitudes longitudes
    normalized range mn mx = Ok r ->
  (range = [] -> r = (mn, mx)) /\
  (range <> [] ->
   r = contour_bounds mn mx /\
   (fst r <? TOLERANCE) = false /\
   (snd r <? fst r + TOLERANCE) = false /\
   (is_nan mn = false -> (TOLERANCE <=? fst r) = true) /\
   (is_nan mn = false -> is_nan mx = false ->
    (fst r + TOLERANCE <=? snd r) = true)).
Proof.
  revert mn mx. induction range as [| k range IH]; intros mn mx H.
  - simpl in H. inversion H. split; [reflexivity | congruence].
  - split; [discriminate |]. intros _.
    simpl in H. inv_bind_as H b Hb. inv_bind_as H u Hu.
    assert (Eb : b = contour_bounds mn mx).
    { destruct normalized;
        [eapply SatellitePlottingExtras.plot_saliency_bounds
        | eapply SatellitePlottingExtras.plot_class_activation_bounds];
        eauto. }
    destruct (IH _ _ H) as [Hnil Hcons].
    assert (Er : r = contour_bounds mn mx).
    { destruct range as [| k' range'].
      - rewrite (Hnil eq_refl), Eb.
        destruct (contour_bounds mn mx). reflexivity.
      - destruct (Hcons ltac:(discriminate)) as [Er _].
        rewrite Er, Eb.
        apply SatellitePlottingExtras.contour_bounds_idempotent. }
    split; [exact Er |]. rewrite Er.
    pose proof (SatellitePlottingClaims.contour_bounds_spec mn mx)
      as (H1 & H2 & H3 & H4 & _).
    auto.
Qed.

End Extras.

(** Two panels drawn from bounds that are out of order: the first panel
    raises them, the second leaves them alone. *)
Lemma plot_panels_run :
  plot_panels Examples.draw_nothing MoreExamples.save_nothing
    Examples.grid_matrix
    (fun _ => Examples.grid_latitudes) (fun _ => Examples.grid_longitudes)
    true [0%nat; 1%nat] (-1) (-2)
  = Ok (0x1.0c6f7a0b5ed8dp-20, 0x1.0c6f7a0b5ed8dp-19).
Proof. reflexivity. Qed.

Lemma plot_panels_bounds_witness :
  plot_panels Examples.draw_nothing MoreExamples.save_nothing
    Examples.grid_matrix
    (fun _ => Examples.grid_latitudes) (fun _ => Examples.grid_longitudes)
    true [0%nat; 1%nat] (-1) (-2)
  = Ok (0x1.0c6f7a0b5ed8dp-20, 0x1.0c6f7a0b5ed8dp-19) /\
  ([0%nat; 1%nat] = [] ->
   (0x1.0c6f7a0b5ed8dp-20, 0x1.0c6f7a0b5ed8dp-19) = (-1, -2)) /\
  ([0%nat; 1%nat] <> [] ->
   (0x1.0c6f7a0b5ed8dp-20, 0x1.0c6f7a0b5ed8dp-19) = contour_bounds (-1) (-2)
   /\
   (0x1.0c6f7a0b5ed8dp-20 <? TOLERANCE) = false /\
   (0x1.0c6f7a0b5ed8dp-19 <? 0x1.0c6f7a0b5ed8dp-20 + TOLERANCE) = false /\
   (is_nan (-1) = false -> (TOLERANCE <=? 0x1.0c6f7a0b5ed8dp-20) = true) /\
   (is_nan (-1) = false -> is_nan (-2) = false ->
    (0x1.0c6f7a0b5ed8dp-20 + TOLERANCE <=? 0x1.0c6f7a0b5ed8dp-19) = true)).
Proof.
  split; [exact plot_panels_run |].
  exact (plot_panels_bounds Examples.draw_nothing MoreExamples.save_nothing
           Examples.grid_matrix
           (fun _ => Examples.grid_latitudes)
           (fun _ => Examples.grid_longitudes)
           true [0%nat; 1%nat] (-1) (-2)
           (0x1.0c6f7a0b5ed8dp-20, 0x1.0c6f7a0b5ed8dp-19) plot_panels_run).
Defined.

End PlotOcclusionMapsExtras.
